(* ===== verification/_CoqProject ===== *)
-Q . S2P
Prelude.v
JsNumber.v
JsValue.v
Options.v
Offsets.v
Edges.v
Sampler.v
Dispatch.v
Tracker.v
Timers.v
Schedule.v
Bridge.v
Page.v
PageSchedule.v
