(* ===== verification/Prelude.v ===== *)
(** * A verification development for jQuery-Viewpoint ([src/js/viewpoint.js])

    ** The program

    [viewpoint.js] is a jQuery plugin.  [$(els).viewpoint(options)]
    creates one [Viewpoint] instance per element (the constructor, lines
    55-73, and [init], 82-98).  [setupEvents] (100-220) binds four
    handlers: a [checkViewPoint] handler on the element, a
    [document.ready] handler, and [scroll] and [resize] handlers on the
    scroll element that re-trigger the element's event after
    [options.delay] ms, debounced with [setTimeout].  One evaluation
    samples the geometry into [currentState] ([updateCurrentState],
    222-237), runs the affix family ([onAffixTop] / [offAffixTop]),
    computes the four edge checks and their aggregate ([isInViewPoint],
    240-250, the checks 252-304), and runs the position family
    ([onInView] / [offView]).  Two memories, [isCalled] and
    [isAffixTopCalled], keep each family from firing the same callback
    twice in a row.  [reset], [disable] and [enable] (306-320) are
    reached through the bridge's method branch (324-354).

    ** The files

    - [Prelude] (this file): the state-and-exception monad [M] in which
      the handlers are written (an exception keeps the effects before
      it, as in JavaScript), its laws, the hint databases [vp] and
      [vp_rw], and the list and rational helpers the components share.
    - [JsNumber], [JsValue]: the JavaScript runtime the plugin relies on.
      Numbers are [NaN], the infinities or exact rationals.  The file
      gives the arithmetic and comparisons, [StringToNumber] and
      [parseFloat] on strings, values, truthiness, [$.isFunction] and
      [typeof].  Rounding to binary64 is not modelled.
    - [Options]: [defaultOptions], [$.extend] and the constructor's
      callback guard.
    - [Offsets]: [isNumeric] and [isPercent] (39-53) and the percentage of
      a dimension.
    - [Edges]: the five checks and the aggregate on a [geometry] record.
    - [Sampler]: [updateCurrentState] and [isInViewPoint] on a
      [snapshot] of [currentState], from a [sample] of the host's jQuery
      readings.
    - [Dispatch]: the [checkViewPoint] handler and its closures ([Module
      Handler]), [reset], and the abstract dispatcher [spec_step] it
      refines.
    - [Tracker]: the page as a [world]: the instances by element, the
      bindings (one per [setupEvents] call, in call order, each with its
      own [debounceScrollTimer] and [debounceResizeTimer] and its own
      [checkViewPoint] handler on the element), the one [currentState]
      all instances share, the pending timers, the callback calls, the
      evaluations and the reported exceptions.  It has [setupEvents],
      the four handlers of a binding, [trigger] with bubbling (an
      element runs one handler per binding of its instance), the timers,
      and [disable] / [enable] / [reset] on an instance.
      The host's events ([event]: ready, scroll, resize, time passing,
      layout change, a script's trigger or method call) drive [step]
      and [run].
    - [Timers]: what a timer callback can do to the world ([grows]) and
      the liveness of the debounce timers.
    - [Schedule]: the specification's debounce (section 4.5) as an
      abstract state, one pending re-evaluation per tracker, and the
      refinement of it by the timers.
    - [Bridge]: the constructor, [init], [$.data], the [:viewpoint]
      selector and the bridge [viewpoint] over a [page].  The bridge has
      its construction branch and its method branch, over every data
      field and method of a tracker or of an inert instance,
      [setupEvents] included, [init] and [constructor] on the calls
      that keep the instance on its own element ([call_init],
      [call_constructor]).
    - [Page]: runs of bridge calls and host events from the empty page.
    - [PageSchedule]: the bridge composed with the scheduler: page runs
      refine the specification's debounce.

    ** The theorems

    The properties of the manifest are tagged C1-C33 in the files.
    - Dispatch: the handler refines the abstract dispatcher (C1).  A
      second evaluation fires nothing exactly when at most one position
      category applies (C2), and two applicable categories refire on
      every evaluation (C4).  Along evaluations that all find the
      element affixed (or all not), the affix family fires at most once
      in total (C8).  Affix callbacks see the previous evaluation's
      flags (C9).  A truthy non-function [inView] throws after the
      affix family ran and the snapshot was stored, before [isCalled]
      is written (C15).  [offAffixTop] fires while affixed (C17), and
      [reset] re-enables a callback (C18).  One evaluation calls at
      most two callbacks in view and six otherwise (C25).
    - Edges / Offsets: the aggregate is the overlap of the shifted box
      with the viewport (C3), off-top is monotone in the scroll position
      (C21), and percentages act in opposite directions on opposite
      edges (C22).  The decimal percentage round-trips (C23).
    - Tracker / Timers / Schedule: the world invariant (timer ids fresh
      and distinct; every pending scroll timer is the
      [debounceScrollTimer] of a binding of its element; snapshot well
      formed) is preserved by every event, so an element has at most as
      many pending scroll timers as bindings (C28).  On a page where
      every element is bound once, the pending scroll timers refine the
      specification's debounce on every run without [resize] (C29).
      Scrolls are debounced (C6), resizes are not (C7).  Instances share
      the snapshot (C10).  Disabled trackers ignore notifications (C11),
      but a timer armed before [disable] still fires (C12).  [trigger]
      bubbles to tracked ancestors, disabled ones included (C19).  Once
      time passes every due time, every timer has fired and evaluated
      its element (C26), and the due timers evaluate their elements
      once each, in the order of the host's timer queue, and nothing
      else (C31).
    - Bridge / Page: the invariant holds on every page a run reaches
      from the empty page (C5).  A construction binds a tracker (C13)
      and never replaces an instance (C20).  One without callbacks
      blocks later ones (C14), and a missing scroll element throws and
      leaves the page unchanged (C16).  [isInViewPoint] through the
      bridge reads the stored, possibly foreign, geometry (C24).  Each
      [setupEvents] call through the bridge adds a full set of
      handlers: after [k] extra calls one scroll gives
      [(k + 1) * (k + 1)] evaluations (C27); [init] called with the
      tracker's own element is the same [setupEvents] (C32).
    - PageSchedule: from the empty page, every run whose bridge calls
      bind no tracker a second time and whose host events are not
      [resize] keeps each element's pending scroll timers equal to the
      specification's pending re-evaluation (C30); it composes C29 with
      the bridge, whose [each] loop binds each new tracker once.  On
      the same runs, [resize] included, no element ever has two pending
      scroll timers (C33).
    Every theorem with a hypothesis has a witness at a concrete page or
    evaluation, checked by evaluation.

    ** Bounds and fuel

    No definition needs fuel.  The recursions are structural: on lists
    of events, timers, bindings, bubbling paths, elements and
    characters, and on the number of handlers an element carries.  The
    decimal printer of [Offsets] uses the number itself as fuel, which
    [nat_digits_spec] shows is enough.  The clock is an unbounded
    integer and delays are truncated and clamped at 0.  The reduction of
    huge delays modulo 2^32 by [setTimeout] is not modelled.

    ** Not modelled

    The host's layout readings and selector resolution are inputs: the
    world's [w_layout] and [w_path] and the bridge's [resolve].  A
    ready handler bound after the document's ready signal is not run at
    bind time: jQuery runs it at once (1.x, 2.x) or in a later task
    (3.x), and the repository pins no version; the same holds of the
    ready handler a later [setupEvents] call binds.  The host may
    deliver [EvReady] more than once, where a document signals it once:
    the runs of the model include the real ones, and the theorems that
    quantify over runs cover them.  The members [init] and
    [constructor] are reachable through the bridge's method branch.
    [init(element)] re-targets [self.$element] to [$(element)], and
    [constructor(element, opt)] with a truthy element and a plain
    object replaces the instance's [options] and calls [init]; the
    model follows [init] when [$(element)] is the instance's own element
    and [constructor] when it returns at its guard.  Re-targeting to
    other elements needs the registry of handlers by element, jQuery's
    getters on arbitrary and empty selections and the partial writes
    [updateCurrentState] makes to [currentState] before
    [$elementPos.top] throws on an empty one; the keys of an arbitrary
    plain object are not modelled either.  On those calls, and on the
    members every object inherits, [viewpoint] returns [None] and a
    [Page] run stops there.  The caller's callbacks are opaque
    functions: a call is recorded and returns normally; a callback that
    throws, or that calls back into the plugin ([disable], [reset],
    [setupEvents], [trigger]) while an evaluation runs, is not
    modelled.  The host's timer queue ([advance], [sort_due]: due
    timers run in order of due time, ties in the order they were armed)
    is the browser's, modelled after HTML, not code of the repository.  Event names are compared as
    values; jQuery namespaces of the [checkViewPoint] event are not
    modelled.  [$.fn.viewpoint.version] and the [$.expr] plumbing carry
    no behaviour.

    This file is the prelude: the monad, the hint databases and tactics,
    and the generic lemmas the components share. *)

From stdpp Require Import base list strings.
From Stdlib Require Import QArith Lqa.
Local Close Scope Q_scope.

Declare Scope vp_scope.
Delimit Scope vp_scope with vp.

(** ** JavaScript exceptions

    The plugin raises two kinds of exceptions: the strings thrown by
    [init] ([throw "scrollElement not found"]) and the [TypeError] the
    engine raises when an option that is truthy but not a function is
    called as a callback. *)
Inductive exn :=
  | TypeError (what : string)
  | Thrown (msg : string).

#[export] Instance exn_eq_dec : EqDecision exn.
Proof. solve_decision. Defined.

(** ** The state-and-exception monad

    A JavaScript statement sequence that mutates the heap and may throw
    is a function from the heap to an outcome and the heap it leaves
    behind: the mutations made before a [throw] persist, as they do in
    JavaScript. *)
Inductive outcome (A : Type) :=
  | Ok (a : A)
  | Exc (e : exn).
Arguments Ok {_} _.
Arguments Exc {_} _.

Definition M (S A : Type) : Type := S -> outcome A * S.

#[export] Instance M_ret {S} : MRet (M S) := fun A a s => (Ok a, s).
#[export] Instance M_bind {S} : MBind (M S) := fun A B k m s =>
  match m s with
  | (Ok a, s') => k a s'
  | (Exc e, s') => (Exc e, s')
  end.
#[export] Instance M_throw {S} : MThrow exn (M S) := fun A e s => (Exc e, s).

Definition mget {S} : M S S := fun s => (Ok s, s).
Definition mput {S} (s : S) : M S unit := fun _ => (Ok tt, s).
Definition mmodify {S} (f : S -> S) : M S unit := fun s => (Ok tt, f s).

(** [when b m] is the one-armed [if (b) { m }] of the source. *)
Definition mwhen {S} (b : bool) (m : M S unit) : M S unit :=
  if b then m else mret tt.

(** Run a computation and keep only the final heap. *)
Definition exec {S A} (m : M S A) (s : S) : S := snd (m s).

Section MonadLaws.
Context {S : Type}.

Lemma bind_unfold {A B} (m : M S A) (k : A -> M S B) s :
    (m ≫= k) s = match m s with
                 | (Ok a, s') => k a s'
                 | (Exc e, s') => (Exc e, s')
                 end.
  Proof. reflexivity. Qed.

Lemma ret_bind {A B} (a : A) (k : A -> M S B) s : (mret a ≫= k) s = k a s.
  Proof. reflexivity. Qed.

Lemma bind_ok {A B} (m : M S A) (k : A -> M S B) s a s' :
    m s = (Ok a, s') -> (m ≫= k) s = k a s'.
  Proof. intros H. rewrite bind_unfold, H. reflexivity. Qed.

Lemma bind_exc {A B} (m : M S A) (k : A -> M S B) s e s' :
    m s = (Exc e, s') -> (m ≫= k) s = (Exc e, s').
  Proof. intros H. rewrite bind_unfold, H. reflexivity. Qed.

Lemma bind_assoc {A B C} (m : M S A) (k : A -> M S B) (k' : B -> M S C) s :
    ((m ≫= k) ≫= k') s = (m ≫= (fun a => k a ≫= k')) s.
  Proof. rewrite !bind_unfold. destruct (m s) as [[a|e] s']; reflexivity. Qed.

Lemma mwhen_false (m : M S unit) s : mwhen false m s = (Ok tt, s).
  Proof. reflexivity. Qed.

Lemma mwhen_true (m : M S unit) s : mwhen true m s = m s.
  Proof. reflexivity. Qed.
End MonadLaws.

(** ** Hint databases *)
Create HintDb vp discriminated.
Create Rewrite HintDb vp_rw.

#[export] Hint Rewrite @ret_bind @mwhen_false @mwhen_true : vp_rw.

(** ** Generic lemmas on rationals and booleans *)

Lemma Qle_bool_true (a b : Q) : Qle_bool a b = true <-> (a <= b)%Q.
Proof. apply Qle_bool_iff. Qed.

Lemma Qle_bool_false (a b : Q) : Qle_bool a b = false <-> (b < a)%Q.
Proof.
  rewrite <- not_true_iff_false, Qle_bool_iff. split.
  - apply Qnot_le_lt.
  - intros H1 H2. apply (Qlt_not_le _ _ H1 H2).
Qed.

(** [qb] turns every [Qle_bool] test of the goal and the hypotheses into
    the comparison it decides, splitting the goal on the undecided ones. *)
Ltac qb :=
  repeat match goal with
  | H : Qle_bool _ _ = true |- _ => apply Qle_bool_true in H
  | H : Qle_bool _ _ = false |- _ => apply Qle_bool_false in H
  | |- context [Qle_bool ?a ?b] =>
      let E := fresh "Eq" in destruct (Qle_bool a b) eqn:E
  end.

(** [solve_q] closes a linear goal over rationals after [qb]. *)
Ltac solve_q := qb; try lra; try (exfalso; lra).

#[export] Hint Resolve Qle_bool_true Qle_bool_false : vp.

(** ** Generic lemmas on lists *)

Lemma filter_length_le {A} (P : A -> Prop) `{!forall x, Decision (P x)} (l : list A) :
  length (filter P l) <= length l.
Proof.
  induction l as [|x l IH]; [done|]. rewrite filter_cons.
  case_decide; simpl; lia.
Qed.

(** Stdlib's boolean [List.filter]. *)
Lemma filter_app_bool {A} (f : A -> bool) (l1 l2 : list A) :
  List.filter f (l1 ++ l2) = List.filter f l1 ++ List.filter f l2.
Proof. induction l1 as [|x l1 IH]; simpl; [done|]. destruct (f x); simpl; congruence. Qed.

Lemma filter_all_false {A} (f : A -> bool) (l : list A) :
  Forall (fun x => f x = false) l -> List.filter f l = [].
Proof. induction 1 as [|x l Hx _ IH]; simpl; [done|]. by rewrite Hx. Qed.

Lemma filter_all_true {A} (f : A -> bool) (l : list A) :
  Forall (fun x => f x = true) l -> List.filter f l = l.
Proof. induction 1 as [|x l Hx _ IH]; simpl; [done|]. by rewrite Hx, IH. Qed.

Lemma filter_comm_bool {A} (f g : A -> bool) (l : list A) :
  List.filter f (List.filter g l) = List.filter g (List.filter f l).
Proof.
  induction l as [|x l IH]; simpl; [done|].
  destruct (f x) eqn:Ef, (g x) eqn:Eg; simpl; rewrite ?Ef, ?Eg, IH; done.
Qed.

(** Filtering first by a test the kept elements pass anyway. *)
Lemma filter_filter_implied {A} (f g : A -> bool) (l : list A) :
  Forall (fun x => f x = true -> g x = true) l -> List.filter f (List.filter g l) = List.filter f l.
Proof.
  induction 1 as [|x l Hx _ IH]; simpl; [done|].
  destruct (g x) eqn:Eg; simpl; rewrite ?IH; [done|].
  destruct (f x) eqn:Ef; [|done]. specialize (Hx eq_refl). congruence.
Qed.
