(* ===== verification/JsNumber.v ===== *)
(** * JavaScript numbers and the string-to-number conversions

    The plugin's offset parsing ([isNumeric] and [isPercent] in
    [src/js/viewpoint.js]) relies on three pieces of the JavaScript
    runtime: the arithmetic and comparisons of numbers, the conversion
    [ToNumber] of a string (used by [obj - x] and [Number(s)]) and
    [parseFloat].  They are not code of the repository; this file models
    them after ECMA-262 (7.1.4.1 StringToNumber, 19.2.4 parseFloat).

    A number is [NaN], an infinity, or a finite value kept as an exact
    rational.  Rounding to binary64, overflow of huge exponents to an
    infinity and the sign of zero are not modelled: the plugin compares
    offsets of a few thousand pixels, where none of them matters. *)

From S2P Require Import Prelude.
From stdpp Require Import base list strings.
From Stdlib Require Import QArith Lqa Ascii.
Local Close Scope Q_scope.

Inductive jsnum :=
  | NaN
  | PInf
  | NInf
  | Fin (q : Q).

(** Structural equality of numbers (used to compare JavaScript values as
    keys, not [===]: that is [num_equiv] and the comparisons below). *)
#[export] Instance Q_eq_dec : EqDecision Q.
Proof. intros [n1 d1] [n2 d2]. destruct (decide (n1 = n2)), (decide (d1 = d2));
  [left; congruence | right; congruence ..]. Defined.

#[export] Instance jsnum_eq_dec : EqDecision jsnum.
Proof. solve_decision. Defined.

(** ** Arithmetic (ECMA-262 6.1.6.1) *)

Definition num_neg (n : jsnum) : jsnum :=
  match n with
  | NaN => NaN
  | PInf => NInf
  | NInf => PInf
  | Fin q => Fin (- q)
  end.

Definition num_add (a b : jsnum) : jsnum :=
  match a, b with
  | NaN, _ | _, NaN => NaN
  | PInf, NInf | NInf, PInf => NaN
  | PInf, _ | _, PInf => PInf
  | NInf, _ | _, NInf => NInf
  | Fin x, Fin y => Fin (x + y)
  end.

Definition num_sub (a b : jsnum) : jsnum := num_add a (num_neg b).

(** The infinity of the sign of a nonzero rational. *)
Definition inf_of_sign (x : Q) : jsnum := if Qle_bool 0 x then PInf else NInf.

Definition num_mul (a b : jsnum) : jsnum :=
  match a, b with
  | NaN, _ | _, NaN => NaN
  | Fin x, Fin y => Fin (x * y)
  | Fin x, PInf | PInf, Fin x => if Qeq_bool x 0 then NaN else inf_of_sign x
  | Fin x, NInf | NInf, Fin x => if Qeq_bool x 0 then NaN else inf_of_sign (- x)
  | PInf, PInf | NInf, NInf => PInf
  | PInf, NInf | NInf, PInf => NInf
  end.

Definition num_div (a b : jsnum) : jsnum :=
  match a, b with
  | NaN, _ | _, NaN => NaN
  | Fin x, Fin y =>
      if Qeq_bool y 0 then (if Qeq_bool x 0 then NaN else inf_of_sign x)
      else Fin (x / y)
  | Fin _, (PInf | NInf) => Fin 0
  | PInf, Fin y => if Qle_bool 0 y then PInf else NInf
  | NInf, Fin y => if Qle_bool 0 y then NInf else PInf
  | (PInf | NInf), (PInf | NInf) => NaN
  end.

(** [a >= b]; every comparison with [NaN] is false. *)
Definition num_ge (a b : jsnum) : bool :=
  match a, b with
  | NaN, _ | _, NaN => false
  | PInf, _ | _, NInf => true
  | NInf, _ | _, PInf => false
  | Fin x, Fin y => Qle_bool y x
  end.

Definition num_le (a b : jsnum) : bool := num_ge b a.

(** ** Equality of values

    Two finite numbers are the same JavaScript number when their
    rationals are equal; [Fin (1#2)] and [Fin (2#4)] are different
    terms, so the development works up to [num_equiv]. *)
Definition num_equiv (a b : jsnum) : Prop :=
  match a, b with
  | NaN, NaN | PInf, PInf | NInf, NInf => True
  | Fin x, Fin y => (x == y)%Q
  | _, _ => False
  end.

Infix "≡n" := num_equiv (at level 70) : vp_scope.
Open Scope vp_scope.

#[export] Instance num_equiv_equivalence : Equivalence num_equiv.
Proof.
  split.
  - intros []; simpl; auto. reflexivity.
  - intros [] []; simpl; auto. intros; symmetry; auto.
  - intros [] [] []; simpl; try tauto. intros H1 H2. rewrite H1; exact H2.
Qed.

Lemma Qeq_bool_compat (x x' y y' : Q) :
  (x == x')%Q -> (y == y')%Q -> Qeq_bool x y = Qeq_bool x' y'.
Proof.
  intros Hx Hy. destruct (Qeq_bool x y) eqn:E1, (Qeq_bool x' y') eqn:E2; auto;
  apply Qeq_bool_iff in E1 || apply Qeq_bool_iff in E2;
  rewrite <- not_true_iff_false, Qeq_bool_iff in *; exfalso; lra.
Qed.

Lemma Qle_bool_compat (x x' y y' : Q) :
  (x == x')%Q -> (y == y')%Q -> Qle_bool x y = Qle_bool x' y'.
Proof. intros Hx Hy. solve_q. Qed.

#[export] Instance Fin_proper : Proper (Qeq ==> num_equiv) Fin.
Proof. intros x y H. exact H. Qed.

#[export] Instance num_neg_proper : Proper (num_equiv ==> num_equiv) num_neg.
Proof. intros [] [] H; simpl in *; try tauto. rewrite H. reflexivity. Qed.

#[export] Instance num_add_proper : Proper (num_equiv ==> num_equiv ==> num_equiv) num_add.
Proof.
  intros [] [] Ha [] [] Hb; simpl in *; try tauto. rewrite Ha, Hb. reflexivity.
Qed.

#[export] Instance num_sub_proper : Proper (num_equiv ==> num_equiv ==> num_equiv) num_sub.
Proof. intros a a' Ha b b' Hb. unfold num_sub. rewrite Ha, Hb. reflexivity. Qed.

#[export] Instance inf_of_sign_proper : Proper (Qeq ==> eq) inf_of_sign.
Proof. intros x y H. unfold inf_of_sign. erewrite Qle_bool_compat; eauto; reflexivity. Qed.

Ltac num_compat :=
  repeat match goal with
  | H : (?x == ?y)%Q |- context [Qeq_bool ?x ?z] =>
      rewrite (Qeq_bool_compat x y z z H (Qeq_refl z))
  | H : (?x == ?y)%Q |- context [Qle_bool ?z ?x] =>
      rewrite (Qle_bool_compat z z x y (Qeq_refl z) H)
  | H : (?x == ?y)%Q |- context [inf_of_sign ?x] => rewrite H
  end.

#[export] Instance num_mul_proper : Proper (num_equiv ==> num_equiv ==> num_equiv) num_mul.
Proof.
  intros [] [] Ha [] [] Hb; simpl in *; try tauto; num_compat;
    repeat case_match; simpl; try tauto; try reflexivity;
    try (rewrite Ha, Hb; reflexivity);
    try (rewrite Ha; reflexivity); try (rewrite Hb; reflexivity).
Qed.

#[export] Instance num_div_proper : Proper (num_equiv ==> num_equiv ==> num_equiv) num_div.
Proof.
  intros [] [] Ha [] [] Hb; simpl in *; try tauto; num_compat;
    repeat case_match; simpl; try tauto; try reflexivity;
    try (rewrite Ha, Hb; reflexivity);
    try (rewrite Ha; reflexivity); try (rewrite Hb; reflexivity).
Qed.

#[export] Instance num_ge_proper : Proper (num_equiv ==> num_equiv ==> eq) num_ge.
Proof.
  intros [] [] Ha [] [] Hb; simpl in *; try tauto; try reflexivity.
  apply Qle_bool_compat; auto.
Qed.

#[export] Instance num_le_proper : Proper (num_equiv ==> num_equiv ==> eq) num_le.
Proof. intros a a' Ha b b' Hb. unfold num_le. rewrite Ha, Hb. reflexivity. Qed.

(** On finite operands the operations are those of the rationals. *)
Lemma num_sub_fin x y : num_sub (Fin x) (Fin y) = Fin (x - y).
Proof. reflexivity. Qed.

Lemma num_ge_fin x y : num_ge (Fin x) (Fin y) = Qle_bool y x.
Proof. reflexivity. Qed.

#[export] Hint Rewrite num_sub_fin num_ge_fin : vp_rw.

(** ** Strings to numbers (ECMA-262 7.1.4.1 and 19.2.4)

    Strings are lists of 8-bit characters; the white space that
    [ToNumber] and [parseFloat] skip is the ASCII white space, line
    terminators and the no-break space (code 160). *)

Definition is_ws (c : ascii) : bool :=
  let n := nat_of_ascii c in
  (n =? 9) || (n =? 10) || (n =? 11) || (n =? 12) || (n =? 13)
  || (n =? 32) || (n =? 160).

Fixpoint trim_left (l : list ascii) : list ascii :=
  match l with
  | c :: r => if is_ws c then trim_left r else l
  | [] => []
  end.

Definition trim (l : list ascii) : list ascii := rev (trim_left (rev (trim_left l))).

(** The value of a digit in radix [r] (2, 8, 10 or 16). *)
Definition digit_val (r : nat) (c : ascii) : option nat :=
  let n := nat_of_ascii c in
  let d :=
    if (48 <=? n) && (n <=? 57) then Some (n - 48)
    else if (97 <=? n) && (n <=? 102) then Some (n - 87)
    else if (65 <=? n) && (n <=? 70) then Some (n - 55)
    else None in
  match d with
  | Some v => if v <? r then Some v else None
  | None => None
  end.

(** The longest run of digits at the head of [l], and the rest. *)
Fixpoint take_digits (r : nat) (l : list ascii) : list nat * list ascii :=
  match l with
  | c :: l' =>
      match digit_val r c with
      | Some d => let '(ds, rest) := take_digits r l' in (d :: ds, rest)
      | None => ([], l)
      end
  | [] => ([], [])
  end.

Definition digits_value (r : Z) (ds : list nat) : Z :=
  fold_left (fun acc d => (acc * r + Z.of_nat d)%Z) ds 0%Z.

(** [m * 10 ^ k] as a rational. *)
Definition scale10 (m k : Z) : Q :=
  if (0 <=? k)%Z then inject_Z (m * 10 ^ k) else Qmake m (Z.to_pos (10 ^ (- k))).

(** The optional exponent part [(e|E) [+|-] digits] at the head of [l]. *)
Definition scan_exponent (l : list ascii) : Z * list ascii :=
  match l with
  | c :: l' =>
      if Ascii.eqb c "e" || Ascii.eqb c "E" then
        let '(sg, l'') :=
          match l' with
          | s :: r => if Ascii.eqb s "+" then (1%Z, r)
                      else if Ascii.eqb s "-" then ((-1)%Z, r) else (1%Z, l')
          | [] => (1%Z, l')
          end in
        match take_digits 10 l'' with
        | ([], _) => (0%Z, l)
        | (ds, rest) => ((sg * digits_value 10 ds)%Z, rest)
        end
      else (0%Z, l)
  | [] => (0%Z, [])
  end.

(** Strip [p] from the head of [l]. *)
Fixpoint strip_literal (p l : list ascii) : option (list ascii) :=
  match p, l with
  | [], _ => Some l
  | c :: p', d :: l' => if Ascii.eqb c d then strip_literal p' l' else None
  | _ :: _, [] => None
  end.

(** The longest prefix of [l] that is a StrUnsignedDecimalLiteral:
    [Infinity], or [digits [. [digits]] [exponent]], or
    [. digits [exponent]]. *)
Definition scan_unsigned (l : list ascii) : option (jsnum * list ascii) :=
  match strip_literal (String.list_ascii_of_string "Infinity") l with
  | Some rest => Some (PInf, rest)
  | None =>
      let '(ip, r1) := take_digits 10 l in
      let '(fp, r2) :=
        match r1 with
        | c :: r => if Ascii.eqb c "." then take_digits 10 r else ([], r1)
        | [] => ([], [])
        end in
      match ip, fp with
      | [], [] => None
      | _, _ =>
          let '(e, r3) := scan_exponent r2 in
          Some (Fin (scale10 (digits_value 10 (ip ++ fp)) (e - Z.of_nat (length fp))), r3)
      end
  end.

(** The longest prefix that is a StrDecimalLiteral (an optional sign). *)
Definition scan_signed (l : list ascii) : option (jsnum * list ascii) :=
  match l with
  | c :: r =>
      if Ascii.eqb c "-" then
        match scan_unsigned r with
        | Some (v, rest) => Some (num_neg v, rest)
        | None => None
        end
      else if Ascii.eqb c "+" then scan_unsigned r
      else scan_unsigned l
  | [] => None
  end.

(** [0x..], [0o..], [0b..] (NonDecimalIntegerLiteral, no sign). *)
Definition radix_of_prefix (c : ascii) : option nat :=
  if Ascii.eqb c "x" || Ascii.eqb c "X" then Some 16
  else if Ascii.eqb c "o" || Ascii.eqb c "O" then Some 8
  else if Ascii.eqb c "b" || Ascii.eqb c "B" then Some 2
  else None.

Definition scan_nondecimal (l : list ascii) : option jsnum :=
  match l with
  | z :: p :: r =>
      if Ascii.eqb z "0" then
        match radix_of_prefix p with
        | Some rad =>
            match take_digits rad r with
            | (d :: ds, []) => Some (Fin (inject_Z (digits_value (Z.of_nat rad) (d :: ds))))
            | _ => None
            end
        | None => None
        end
      else None
  | _ => None
  end.

(** [ToNumber] of a string: white space around a numeric literal is
    ignored, the empty (or blank) string is [0], anything else is [NaN]. *)
Definition StringToNumber (s : string) : jsnum :=
  match trim (String.list_ascii_of_string s) with
  | [] => Fin 0
  | t =>
      match scan_nondecimal t with
      | Some v => v
      | None =>
          match scan_signed t with
          | Some (v, []) => v
          | _ => NaN
          end
      end
  end.

(** [parseFloat]: leading white space is skipped and the longest
    decimal prefix is read; [NaN] when there is none. *)
Definition parseFloat (s : string) : jsnum :=
  match scan_signed (trim_left (String.list_ascii_of_string s)) with
  | Some (v, _) => v
  | None => NaN
  end.
