(* ===== verification/JsValue.v ===== *)
(** * JavaScript values as the plugin's options hold them

    The options object of [src/js/viewpoint.js] holds arbitrary
    JavaScript values: the plugin tests callbacks with [$.isFunction]
    (construction) and with truthiness (dispatch), offsets with
    [typeof x === "number"] and [typeof x === "string"], and hands the
    delay to [setTimeout].  This file gives the values, these tests and
    [ToNumber], after ECMA-262 (7.1.2 ToBoolean, 7.1.4 ToNumber). *)

From S2P Require Import Prelude JsNumber.
From stdpp Require Import base list strings.
From Stdlib Require Import QArith Lqa.
Local Close Scope Q_scope.

(** A function is known by an identity [fid]; plain objects by [oid]. *)
Definition fid := nat.
Definition oid := nat.

Inductive jsval :=
  | JUndefined
  | JNull
  | JBool (b : bool)
  | JNum (n : jsnum)
  | JStr (s : string)
  | JFun (f : fid)
  | JObj (o : oid).

#[export] Instance jsval_eq_dec : EqDecision jsval.
Proof. solve_decision. Defined.

(** ToBoolean. *)
Definition truthy (v : jsval) : bool :=
  match v with
  | JUndefined | JNull => false
  | JBool b => b
  | JNum NaN => false
  | JNum (Fin q) => negb (Qeq_bool q 0)
  | JNum _ => true
  | JStr s => negb (String.eqb s "")
  | JFun _ | JObj _ => true
  end.

(** [$.isFunction]. *)
Definition isFunction (v : jsval) : bool :=
  match v with JFun _ => true | _ => false end.

Definition typeof_number (v : jsval) : bool :=
  match v with JNum _ => true | _ => false end.

Definition typeof_string (v : jsval) : bool :=
  match v with JStr _ => true | _ => false end.

(** ToNumber, on the values that are not objects. *)
Definition ToNumber (v : jsval) : jsnum :=
  match v with
  | JUndefined => NaN
  | JNull => Fin 0
  | JBool b => Fin (if b then 1 else 0)
  | JNum n => n
  | JStr s => StringToNumber s
  | JFun _ | JObj _ => NaN
  end.

Lemma isFunction_truthy v : isFunction v = true -> truthy v = true.
Proof. destruct v; simpl; congruence. Qed.

Lemma truthy_undefined : truthy JUndefined = false.
Proof. reflexivity. Qed.

#[export] Hint Resolve isFunction_truthy : vp.
#[export] Hint Rewrite truthy_undefined : vp_rw.
