(* ===== verification/Options.v ===== *)
(** * The plugin's options: [defaultOptions] and their merge

    [src/js/viewpoint.js] lines 16-37 declare [defaultOptions]; the
    constructor [Viewpoint] (lines 55-73) checks that one of the eight
    callback slots holds a function and merges the caller's object over
    the defaults with [$.extend({}, defaultOptions, opt)].  An options
    object is a record with one JavaScript value per key; an absent key
    of the caller's object is [JUndefined], which [$.extend] skips. *)

From S2P Require Import Prelude JsNumber JsValue.
From stdpp Require Import base list strings.
From Stdlib Require Import QArith.
Local Close Scope Q_scope.

Record options := mkOptions {
  scrollElement : jsval;
  contentPane : jsval;
  eventCheckViewPoint : jsval;
  eventNamespace : jsval;
  inView : jsval;
  offView : jsval;
  offTop : jsval;
  offRight : jsval;
  offBottom : jsval;
  offLeft : jsval;
  topOffset : jsval;
  rightOffset : jsval;
  bottomOffset : jsval;
  leftOffset : jsval;
  affixOffset : jsval;
  affixTop : jsval;
  offAffixTop : jsval;
  delay : jsval
}.

(** The global [window] object, the default [scrollElement]. *)
Definition window_obj : jsval := JObj 0.

Definition defaultOptions : options := {|
  scrollElement := window_obj;
  contentPane := JNull;
  eventCheckViewPoint := JStr "checkViewPoint";
  eventNamespace := JStr ".viewpoint";
  inView := JUndefined;
  offView := JUndefined;
  offTop := JUndefined;
  offRight := JUndefined;
  offBottom := JUndefined;
  offLeft := JUndefined;
  topOffset := JUndefined;
  rightOffset := JUndefined;
  bottomOffset := JUndefined;
  leftOffset := JUndefined;
  affixOffset := JUndefined;
  affixTop := JUndefined;
  offAffixTop := JUndefined;
  delay := JNum (Fin 70)
|}.

(** The caller's options object, every key absent. *)
Definition no_options : options := {|
  scrollElement := JUndefined; contentPane := JUndefined;
  eventCheckViewPoint := JUndefined; eventNamespace := JUndefined;
  inView := JUndefined; offView := JUndefined; offTop := JUndefined;
  offRight := JUndefined; offBottom := JUndefined; offLeft := JUndefined;
  topOffset := JUndefined; rightOffset := JUndefined;
  bottomOffset := JUndefined; leftOffset := JUndefined;
  affixOffset := JUndefined; affixTop := JUndefined;
  offAffixTop := JUndefined; delay := JUndefined
|}.

(** One key of [$.extend(target, src)]: a value of [src] that is not
    [undefined] overwrites the target's. *)
Definition extend_val (target src : jsval) : jsval :=
  match src with JUndefined => target | _ => src end.

(** [$.extend({}, defaultOptions, opt)]. *)
Definition extend (d o : options) : options := {|
  scrollElement := extend_val (scrollElement d) (scrollElement o);
  contentPane := extend_val (contentPane d) (contentPane o);
  eventCheckViewPoint := extend_val (eventCheckViewPoint d) (eventCheckViewPoint o);
  eventNamespace := extend_val (eventNamespace d) (eventNamespace o);
  inView := extend_val (inView d) (inView o);
  offView := extend_val (offView d) (offView o);
  offTop := extend_val (offTop d) (offTop o);
  offRight := extend_val (offRight d) (offRight o);
  offBottom := extend_val (offBottom d) (offBottom o);
  offLeft := extend_val (offLeft d) (offLeft o);
  topOffset := extend_val (topOffset d) (topOffset o);
  rightOffset := extend_val (rightOffset d) (rightOffset o);
  bottomOffset := extend_val (bottomOffset d) (bottomOffset o);
  leftOffset := extend_val (leftOffset d) (leftOffset o);
  affixOffset := extend_val (affixOffset d) (affixOffset o);
  affixTop := extend_val (affixTop d) (affixTop o);
  offAffixTop := extend_val (offAffixTop d) (offAffixTop o);
  delay := extend_val (delay d) (delay o)
|}.

(** The constructor's guard (lines 59-66): some callback slot of the
    caller's object holds a function. *)
Definition has_callback (o : options) : bool :=
  isFunction (inView o) || isFunction (offView o) || isFunction (offTop o)
  || isFunction (offRight o) || isFunction (offBottom o) || isFunction (offLeft o)
  || isFunction (affixTop o) || isFunction (offAffixTop o).

(** Merging over the defaults keeps every callback slot the caller set:
    the defaults hold none. *)
Lemma extend_default_callbacks o :
  inView (extend defaultOptions o) = inView o /\
  offView (extend defaultOptions o) = offView o /\
  offTop (extend defaultOptions o) = offTop o /\
  offRight (extend defaultOptions o) = offRight o /\
  offBottom (extend defaultOptions o) = offBottom o /\
  offLeft (extend defaultOptions o) = offLeft o /\
  affixTop (extend defaultOptions o) = affixTop o /\
  offAffixTop (extend defaultOptions o) = offAffixTop o.
Proof.
  destruct o; simpl.
  repeat split; unfold extend_val; repeat case_match; congruence.
Qed.

Lemma has_callback_extend o :
  has_callback (extend defaultOptions o) = has_callback o.
Proof.
  unfold has_callback.
  destruct (extend_default_callbacks o) as (-> & -> & -> & -> & -> & -> & -> & ->).
  reflexivity.
Qed.

(** ** Concrete configurations

    [$.extend({}, defaultOptions, opt)] for a caller's object that sets
    the eight callback slots, and one that sets the four edge offsets. *)
Definition with_callbacks (iv ov ot orr ob ol aft oat : jsval) : options :=
  extend defaultOptions {|
    scrollElement := JUndefined; contentPane := JUndefined;
    eventCheckViewPoint := JUndefined; eventNamespace := JUndefined;
    inView := iv; offView := ov; offTop := ot; offRight := orr; offBottom := ob;
    offLeft := ol; topOffset := JUndefined; rightOffset := JUndefined;
    bottomOffset := JUndefined; leftOffset := JUndefined; affixOffset := JUndefined;
    affixTop := aft; offAffixTop := oat; delay := JUndefined |}.

Definition with_offsets (base : options) (t r b l : jsval) : options :=
  extend base {|
    scrollElement := JUndefined; contentPane := JUndefined;
    eventCheckViewPoint := JUndefined; eventNamespace := JUndefined;
    inView := JUndefined; offView := JUndefined; offTop := JUndefined;
    offRight := JUndefined; offBottom := JUndefined; offLeft := JUndefined;
    topOffset := t; rightOffset := r; bottomOffset := b; leftOffset := l;
    affixOffset := JUndefined; affixTop := JUndefined; offAffixTop := JUndefined;
    delay := JUndefined |}.
