(* ===== verification/Offsets.v ===== *)
(** * Offset specifications: [isNumeric], [isPercent] and percentages

    [src/js/viewpoint.js] lines 39-53: an edge offset is a number, or a
    string ["<number>%"] read as a percentage of the tracked element's
    width or height (lines 259, 271, 283, 295).  [isNumeric(obj)] is the
    jQuery idiom [obj - parseFloat(obj) >= 0]; [isPercent(str)] returns
    the text before a trailing ["%"] when it passes [isNumeric], and
    [false] otherwise ([None] here).

    The theorems: the percentage of a decimal integer round-trips
    (printing [n] followed by ["%"] resolves to [n] percent of the
    dimension), and the accepted strings include negative, hexadecimal
    and exponent forms, while malformed ones resolve to nothing. *)

From S2P Require Import Prelude JsNumber JsValue.
From stdpp Require Import base list strings.
From Stdlib Require Import QArith Lqa Ascii.
Local Close Scope Q_scope.

(** [isNumeric(obj)] (line 39) on the string argument it is called with. *)
Definition isNumeric (obj : string) : bool :=
  num_ge (num_sub (ToNumber (JStr obj)) (parseFloat obj)) (Fin 0).

(** [isPercent(str)] (lines 43-53). *)
Definition isPercent (str : jsval) : option string :=
  match str with
  | JStr s =>
      if bool_decide (String.get (String.length s - 1) s = Some "%"%char) then
        let ret := String.substring 0 (String.length s - 1) s in
        if isNumeric ret then Some ret else None
      else None
  | _ => None
  end.

(** [dim * (Number(offsetPercentNum) / 100)] (lines 259, 271, 283, 295). *)
Definition percent_of (dim : Q) (p : string) : jsnum :=
  num_mul (Fin dim) (num_div (ToNumber (JStr p)) (Fin 100)).

(** ** A decimal printer for natural numbers *)

Fixpoint nat_digits_aux (fuel n : nat) (acc : list nat) : list nat :=
  match fuel with
  | 0 => n :: acc
  | S f => if n <? 10 then n :: acc else nat_digits_aux f (n / 10) (n mod 10 :: acc)
  end.

(** The decimal digits of [n], most significant first. *)
Definition nat_digits (n : nat) : list nat := nat_digits_aux n n [].

Definition digit_char (d : nat) : ascii := ascii_of_nat (48 + d).

Definition print_nat (n : nat) : string :=
  String.string_of_list_ascii (map digit_char (nat_digits n)).

Lemma nat_digits_aux_spec fuel n acc :
  n <= fuel ->
  exists ds, nat_digits_aux fuel n acc = ds ++ acc /\ ds <> [] /\
    Forall (fun d => d < 10) ds /\
    digits_value 10 ds = Z.of_nat n.
Proof.
  revert n acc. induction fuel as [|f IH]; intros n acc Hn.
  - exists [n]. assert (n = 0) as -> by lia.
    refine (conj eq_refl (conj _ (conj _ _))); [done | apply Forall_singleton; lia | done].
  - cbn [nat_digits_aux]. destruct (Nat.ltb_spec n 10).
    + exists [n].
      refine (conj eq_refl (conj _ (conj _ _))); [done | apply Forall_singleton; lia | cbn [digits_value fold_left]; lia].
    + destruct (IH (n / 10) (n mod 10 :: acc)) as (ds & Heq & Hne & Hall & Hval).
      { apply Nat.lt_succ_r. apply Nat.lt_le_trans with n; [|lia].
        apply Nat.div_lt; lia. }
      exists (ds ++ [n mod 10]). rewrite Heq, <- app_assoc.
      refine (conj eq_refl (conj _ (conj _ _))).
      * destruct ds; simpl; congruence.
      * apply Forall_app. split; auto. constructor; [apply Nat.mod_upper_bound|]; auto.
      * unfold digits_value in *. rewrite fold_left_app, Hval.
        cbn [fold_left]. pose proof (Nat.div_mod_eq n 10). lia.
Qed.

Lemma nat_digits_spec n :
  nat_digits n <> [] /\ Forall (fun d => d < 10) (nat_digits n) /\
  digits_value 10 (nat_digits n) = Z.of_nat n.
Proof.
  destruct (nat_digits_aux_spec n n [] (le_n n)) as (ds & Heq & H).
  unfold nat_digits. rewrite Heq, app_nil_r. exact H.
Qed.

(** ** Scanning the printed digits *)

Lemma digit_char_facts d :
  d < 10 ->
  digit_val 10 (digit_char d) = Some d /\ is_ws (digit_char d) = false /\
  radix_of_prefix (digit_char d) = None /\
  Ascii.eqb (digit_char d) "-" = false /\ Ascii.eqb (digit_char d) "+" = false /\
  Ascii.eqb (digit_char d) "I" = false /\ Ascii.eqb (digit_char d) "." = false.
Proof. intros Hd. do 10 (destruct d as [|d]; [done|]). lia. Qed.

Lemma take_digits_printed ds :
  Forall (fun d => d < 10) ds -> take_digits 10 (map digit_char ds) = (ds, []).
Proof.
  induction 1 as [|d ds Hd _ IH]; [done|].
  cbn [map take_digits]. destruct (digit_char_facts d Hd) as (-> & _).
  rewrite IH. done.
Qed.

Lemma trim_left_printed ds :
  Forall (fun d => d < 10) ds -> trim_left (map digit_char ds) = map digit_char ds.
Proof.
  destruct 1 as [|d ds Hd _]; [done|].
  cbn [map trim_left]. by destruct (digit_char_facts d Hd) as (_ & -> & _).
Qed.

Lemma trim_printed ds :
  Forall (fun d => d < 10) ds -> trim (map digit_char ds) = map digit_char ds.
Proof.
  intros Hall. unfold trim. rewrite trim_left_printed by done.
  rewrite <- map_rev, trim_left_printed, map_rev, rev_involutive; [done|].
  by apply Forall_rev.
Qed.

(** The printed digits of [n] scan as the number [n] and nothing else. *)
Lemma scan_printed n :
  let l := map digit_char (nat_digits n) in
  scan_nondecimal l = None /\
  scan_signed l = Some (Fin (scale10 (Z.of_nat n) 0), []).
Proof.
  destruct (nat_digits_spec n) as (Hne & Hall & Hval). simpl.
  destruct (nat_digits n) as [|d ds] eqn:E; [done|].
  pose proof (Forall_inv Hall) as Hd.
  destruct (digit_char_facts d Hd) as (_ & _ & Hrad & Hmin & Hplus & HI & _).
  split.
  - cbn [map scan_nondecimal]. destruct ds as [|d' ds]; [done|].
    cbn [map]. apply Forall_inv_tail, Forall_inv in Hall.
    destruct (digit_char_facts d' Hall) as (_ & _ & -> & _). by case_match.
  - cbn [map scan_signed]. rewrite Hmin, Hplus.
    unfold scan_unsigned.
    assert (Hs : strip_literal (String.list_ascii_of_string "Infinity")
                   (digit_char d :: map digit_char ds) = None).
    { cbn -[Ascii.eqb digit_char]. rewrite Ascii.eqb_sym, HI. done. }
    rewrite Hs.
    change (digit_char d :: map digit_char ds) with (map digit_char (d :: ds)).
    rewrite take_digits_printed by done. cbn -[digits_value scale10].
    rewrite app_nil_r, Hval. done.
Qed.

Lemma StringToNumber_print_nat n :
  StringToNumber (print_nat n) ≡n Fin (inject_Z (Z.of_nat n)).
Proof.
  unfold StringToNumber, print_nat. rewrite String.list_ascii_of_string_of_list_ascii.
  destruct (nat_digits_spec n) as (Hne & Hall & _).
  rewrite trim_printed by done.
  destruct (scan_printed n) as [H1 H2]. simpl in H1, H2.
  destruct (map digit_char (nat_digits n)) as [|c l] eqn:E.
  { destruct (nat_digits n); done. }
  rewrite H1, H2. unfold scale10. simpl. rewrite Z.mul_1_r. reflexivity.
Qed.

Lemma parseFloat_print_nat n :
  parseFloat (print_nat n) ≡n Fin (inject_Z (Z.of_nat n)).
Proof.
  unfold parseFloat, print_nat. rewrite String.list_ascii_of_string_of_list_ascii.
  destruct (nat_digits_spec n) as (_ & Hall & _).
  rewrite trim_left_printed by done. destruct (scan_printed n) as [_ ->].
  unfold scale10. simpl. rewrite Z.mul_1_r. reflexivity.
Qed.

Lemma isNumeric_print_nat n : isNumeric (print_nat n) = true.
Proof.
  unfold isNumeric. cbn [ToNumber].
  rewrite StringToNumber_print_nat, parseFloat_print_nat.
  simpl. apply Qle_bool_true. lra.
Qed.

(** Appending ["%"] and taking everything but the last character. *)
Lemma percent_suffix s :
  String.get (String.length (s ++ "%") - 1) (s ++ "%") = Some "%"%char /\
  String.substring 0 (String.length (s ++ "%") - 1) (s ++ "%") = s.
Proof.
  assert (Hlen : String.length (s ++ "%") = S (String.length s)).
  { induction s; simpl; auto. }
  rewrite Hlen. simpl. rewrite Nat.sub_0_r. clear Hlen.
  induction s as [|c s [IH1 IH2]]; [done|]. simpl. rewrite IH1, IH2. done.
Qed.

(** ** Percentages: round trip and the accepted forms *)

(** C23: writing a decimal integer [n] followed by ["%"] as an offset
    option makes [isPercent] return exactly the printed number, and the
    offset resolves to [n] percent of the element's dimension. *)
Theorem isPercent_print_roundtrip (n : nat) (h : Q) :
  isPercent (JStr (print_nat n ++ "%")) = Some (print_nat n) /\
  percent_of h (print_nat n) ≡n Fin (h * inject_Z (Z.of_nat n) / 100).
Proof.
  destruct (percent_suffix (print_nat n)) as [Hget Hsub]. split.
  - unfold isPercent. rewrite bool_decide_eq_true_2 by exact Hget.
    rewrite Hsub, isNumeric_print_nat. done.
  - unfold percent_of. cbn [ToNumber]. rewrite StringToNumber_print_nat.
    simpl. unfold Qdiv. ring.
Qed.

(** [isNumeric] tests [Number(s) - parseFloat(s) >= 0], not that the
    string is a number: ["-50%"], ["1e1%"] and [" 5 %"] are percentages,
    and so is ["0x32%"], read as [50] percent since [parseFloat] stops at
    the [x]; ["Infinity%"], ["10px%"] and ["%"] are not. *)
Example isPercent_accepted_forms (h : Q) :
  isPercent (JStr "-50%") = Some "-50" /\ isPercent (JStr "1e1%") = Some "1e1" /\
  isPercent (JStr " 5 %") = Some " 5 " /\
  isPercent (JStr "0x32%") = Some "0x32" /\ percent_of h "0x32" ≡n Fin (h * 50 / 100) /\
  isPercent (JStr "Infinity%") = None /\ isPercent (JStr "10px%") = None /\
  isPercent (JStr "%") = None.
Proof.
  split_and!; try (vm_compute; reflexivity).
  assert (E : num_div (StringToNumber "0x32") (Fin 100) = Fin (50 / 100)) by (vm_compute; reflexivity).
  unfold percent_of. cbn -[Qmult Qdiv StringToNumber num_div]. rewrite E. cbn [num_equiv]. field.
Qed.
