(* ===== verification/Edges.v ===== *)
(** * The edge evaluator: [checkOffTop], [checkOffRight],
      [checkOffBottom], [checkOffLeft] and [checkAffixTop]

    [src/js/viewpoint.js] lines 252-304.  Each check resolves the offset
    option of its edge (a number, a ["p%"] string of the element's
    height or width, or [0]) and compares the scroll position against the
    element's edge.  The checks read the geometry fields that
    [updateCurrentState] stored in [currentState]; here they read a
    [geometry] record with those fields.

    The theorems: the in-view aggregate is exactly the open overlap of
    the element's box, moved by the offsets, with the scrolled viewport
    (a refinement of the geometric specification); scrolling further
    down never brings an element back from off-top; and the percentage
    offsets of the bottom and right edges act in the opposite direction
    from the numeric ones, while those of the top and left edges agree. *)

From S2P Require Import Prelude JsNumber JsValue Options Offsets.
From stdpp Require Import base list strings.
From Stdlib Require Import QArith Lqa.
Local Close Scope Q_scope.

(** The fields of [currentState] written by [updateCurrentState]
    (lines 226-235). *)
Record geometry := mkGeometry {
  winWidth : Q;
  winHeight : Q;
  winScrollTop : Q;
  winScrollLeft : Q;
  elementWidth : Q;
  elementHeight : Q;
  elementOffsetTop : Q;
  elementOffsetLeft : Q;
  foldWidth : Q;
  foldHeight : Q
}.

(** ** Offsets (lines 254-260, 266-272, 278-284, 290-296, 302) *)

Definition topOffsetValue (o : options) (cs : geometry) : jsnum :=
  let offsetPercentNum := isPercent (topOffset o) in
  match topOffset o with
  | JNum n => n
  | _ =>
      match offsetPercentNum with
      | Some p => percent_of (elementHeight cs) p
      | None => Fin 0
      end
  end.

Definition rightOffsetValue (o : options) (cs : geometry) : jsnum :=
  let offsetPercentNum := isPercent (rightOffset o) in
  match rightOffset o with
  | JNum n => n
  | _ =>
      match offsetPercentNum with
      | Some p => num_sub (Fin 0) (percent_of (elementWidth cs) p)
      | None => Fin 0
      end
  end.

Definition bottomOffsetValue (o : options) (cs : geometry) : jsnum :=
  let offsetPercentNum := isPercent (bottomOffset o) in
  match bottomOffset o with
  | JNum n => n
  | _ =>
      match offsetPercentNum with
      | Some p => num_sub (Fin 0) (percent_of (elementHeight cs) p)
      | None => Fin 0
      end
  end.

Definition leftOffsetValue (o : options) (cs : geometry) : jsnum :=
  let offsetPercentNum := isPercent (leftOffset o) in
  match leftOffset o with
  | JNum n => n
  | _ =>
      match offsetPercentNum with
      | Some p => percent_of (elementWidth cs) p
      | None => Fin 0
      end
  end.

Definition affixOffsetValue (o : options) : jsnum :=
  match affixOffset o with JNum n => n | _ => Fin 0 end.

(** ** The checks *)

Definition checkOffTop (o : options) (cs : geometry) : bool :=
  num_ge (Fin (winScrollTop cs))
         (num_sub (Fin (elementOffsetTop cs + elementHeight cs)) (topOffsetValue o cs)).

Definition checkOffRight (o : options) (cs : geometry) : bool :=
  num_le (Fin (foldWidth cs)) (num_sub (Fin (elementOffsetLeft cs)) (rightOffsetValue o cs)).

Definition checkOffBottom (o : options) (cs : geometry) : bool :=
  num_le (Fin (foldHeight cs)) (num_sub (Fin (elementOffsetTop cs)) (bottomOffsetValue o cs)).

Definition checkOffLeft (o : options) (cs : geometry) : bool :=
  num_ge (Fin (winScrollLeft cs))
         (num_sub (Fin (elementOffsetLeft cs + elementWidth cs)) (leftOffsetValue o cs)).

Definition checkAffixTop (o : options) (cs : geometry) : bool :=
  num_ge (Fin (winScrollTop cs)) (num_sub (Fin (elementOffsetTop cs)) (affixOffsetValue o)).

(** The aggregate of [isInViewPoint] (line 247). *)
Definition in_view_of (o : options) (cs : geometry) : bool :=
  negb (checkOffTop o cs) && negb (checkOffRight o cs)
  && negb (checkOffBottom o cs) && negb (checkOffLeft o cs).

(** ** Comparisons against a finite offset *)

Lemma ge_sub_fin a b x t :
  x ≡n Fin t -> num_ge (Fin a) (num_sub (Fin b) x) = Qle_bool (b - t) a.
Proof. intros Hx. rewrite Hx. reflexivity. Qed.

Lemma le_sub_fin a b x t :
  x ≡n Fin t -> num_le (Fin a) (num_sub (Fin b) x) = Qle_bool a (b - t).
Proof. intros Hx. unfold num_le. rewrite Hx. reflexivity. Qed.

(** The checks, once the offsets of the edges are known to be finite. *)
Section FiniteOffsets.
Context (o : options) (cs : geometry) (t r b l : Q).
Hypothesis Ht : topOffsetValue o cs ≡n Fin t.
Hypothesis Hr : rightOffsetValue o cs ≡n Fin r.
Hypothesis Hb : bottomOffsetValue o cs ≡n Fin b.
Hypothesis Hl : leftOffsetValue o cs ≡n Fin l.

Lemma checkOffTop_fin :
    checkOffTop o cs = Qle_bool (elementOffsetTop cs + elementHeight cs - t) (winScrollTop cs).
  Proof. apply ge_sub_fin, Ht. Qed.

Lemma checkOffRight_fin :
    checkOffRight o cs = Qle_bool (foldWidth cs) (elementOffsetLeft cs - r).
  Proof. apply le_sub_fin, Hr. Qed.

Lemma checkOffBottom_fin :
    checkOffBottom o cs = Qle_bool (foldHeight cs) (elementOffsetTop cs - b).
  Proof. apply le_sub_fin, Hb. Qed.

Lemma checkOffLeft_fin :
    checkOffLeft o cs = Qle_bool (elementOffsetLeft cs + elementWidth cs - l) (winScrollLeft cs).
  Proof. apply ge_sub_fin, Hl. Qed.
End FiniteOffsets.

(** ** The geometric specification of "in view"

    Two open intervals [(a1, a2)] and [(b1, b2)] meet. *)
Definition overlap (a1 a2 b1 b2 : Q) : Prop := (a1 < b2 /\ b1 < a2)%Q.

(** The element's box with the offsets applied: the top and left
    offsets move its bottom and right edges in, the bottom and right
    offsets move its top and left edges out. *)
Definition element_box_visible (cs : geometry) (t r b l : Q) : Prop :=
  overlap (elementOffsetTop cs - b) (elementOffsetTop cs + elementHeight cs - t)
          (winScrollTop cs) (foldHeight cs) /\
  overlap (elementOffsetLeft cs - r) (elementOffsetLeft cs + elementWidth cs - l)
          (winScrollLeft cs) (foldWidth cs).

(** C3: with finite offsets, the in-view aggregate of [isInViewPoint]
    holds exactly when the element's box, moved by the offsets, meets
    the scrolled viewport on both axes. *)
Theorem in_view_of_spec (o : options) (cs : geometry) (t r b l : Q) :
  topOffsetValue o cs ≡n Fin t -> rightOffsetValue o cs ≡n Fin r ->
  bottomOffsetValue o cs ≡n Fin b -> leftOffsetValue o cs ≡n Fin l ->
  in_view_of o cs = true <-> element_box_visible cs t r b l.
Proof.
  intros Ht Hr Hb Hl. unfold in_view_of, element_box_visible, overlap.
  rewrite (checkOffTop_fin _ _ _ Ht), (checkOffRight_fin _ _ _ Hr),
    (checkOffBottom_fin _ _ _ Hb), (checkOffLeft_fin _ _ _ Hl).
  rewrite !andb_true_iff, !negb_true_iff, !Qle_bool_false. lra.
Qed.

(** The offsets an options object without edge offsets resolves to. *)
Lemma no_offsets_zero o cs :
  topOffset o = JUndefined -> rightOffset o = JUndefined ->
  bottomOffset o = JUndefined -> leftOffset o = JUndefined ->
  topOffsetValue o cs ≡n Fin 0 /\ rightOffsetValue o cs ≡n Fin 0 /\
  bottomOffsetValue o cs ≡n Fin 0 /\ leftOffsetValue o cs ≡n Fin 0.
Proof.
  unfold topOffsetValue, rightOffsetValue, bottomOffsetValue, leftOffsetValue.
  intros -> -> -> ->. repeat split; reflexivity.
Qed.

(** ** Scrolling and the direction of the offsets *)

Lemma topOffsetValue_height o cs cs' :
  elementHeight cs = elementHeight cs' -> topOffsetValue o cs = topOffsetValue o cs'.
Proof. intros H. unfold topOffsetValue. rewrite H. reflexivity. Qed.

Lemma bottomOffsetValue_height o cs cs' :
  elementHeight cs = elementHeight cs' -> bottomOffsetValue o cs = bottomOffsetValue o cs'.
Proof. intros H. unfold bottomOffsetValue. rewrite H. reflexivity. Qed.

(** C21: scrolling further down (a larger [scrollTop], the element where
    it was) never brings an element back from off-top, whatever the
    offset option holds, [NaN] and infinities included. *)
Theorem offTop_monotone (o : options) (cs cs' : geometry) :
  elementOffsetTop cs' = elementOffsetTop cs -> elementHeight cs' = elementHeight cs ->
  (winScrollTop cs <= winScrollTop cs')%Q ->
  checkOffTop o cs = true -> checkOffTop o cs' = true.
Proof.
  unfold checkOffTop. intros Ht Hh Hs.
  rewrite (topOffsetValue_height o cs' cs Hh), Ht, Hh.
  destruct (topOffsetValue o cs); simpl; auto. intros. solve_q.
Qed.

(** The same for the bottom edge: a larger fold never makes an element
    that is not off-bottom become off-bottom. *)
Lemma offBottom_antitone (o : options) (cs cs' : geometry) :
  elementOffsetTop cs' = elementOffsetTop cs -> elementHeight cs' = elementHeight cs ->
  (foldHeight cs <= foldHeight cs')%Q ->
  checkOffBottom o cs' = true -> checkOffBottom o cs = true.
Proof.
  unfold checkOffBottom, num_le. intros Ht Hh Hs.
  rewrite (bottomOffsetValue_height o cs' cs Hh), Ht.
  destruct (bottomOffsetValue o cs); simpl; auto. intros. solve_q.
Qed.

Lemma isPercent_str v p : isPercent v = Some p -> exists s, v = JStr s.
Proof. destruct v; simpl; try discriminate. eauto. Qed.

(** C22: the same percentage string acts in opposite directions on the
    top and the bottom edge: as [topOffset] it behaves as the number
    [q] it resolves to, as [bottomOffset] as the number [-q]; a numeric
    [bottomOffset] of [q] moves the edge the other way. *)
Theorem percent_offset_direction (o1 o2 o3 o4 : options) (cs : geometry) (p : string) (q : Q) :
  isPercent (topOffset o1) = Some p -> topOffset o2 = JNum (Fin q) ->
  isPercent (bottomOffset o3) = Some p -> bottomOffset o4 = JNum (Fin (- q)) ->
  percent_of (elementHeight cs) p ≡n Fin q ->
  checkOffTop o1 cs = checkOffTop o2 cs /\ checkOffBottom o3 cs = checkOffBottom o4 cs.
Proof.
  intros H1 H2 H3 H4 Hq.
  destruct (isPercent_str _ _ H1) as [s1 E1], (isPercent_str _ _ H3) as [s3 E3].
  unfold checkOffTop, checkOffBottom, topOffsetValue, bottomOffsetValue.
  rewrite E1, E3, <- E1, <- E3, H1, H2, H3, H4, Hq. split; [reflexivity|].
  cbn [num_le num_ge num_sub num_add num_neg]. apply Qle_bool_compat; [reflexivity | ring].
Qed.

(** ** Witnesses *)

(** A 1000x800 viewport scrolled to 600; a 100x400 element at (100, 0). *)
Definition geo_off_top : geometry := mkGeometry 1000 800 600 0 100 400 100 0 1000 1400.

(** The same viewport scrolled to 700. *)
Definition geo_further_down : geometry := mkGeometry 1000 800 700 0 100 400 100 0 1000 1500.

(** The viewport at the top of the document: the element is in view. *)
Definition geo_in_view : geometry := mkGeometry 1000 800 0 0 100 400 100 0 1000 800.

Definition opts_pct_top : options := with_offsets defaultOptions (JStr "10%") JUndefined JUndefined JUndefined.
Definition opts_num_top : options := with_offsets defaultOptions (JNum (Fin 40)) JUndefined JUndefined JUndefined.
Definition opts_pct_bottom : options := with_offsets defaultOptions JUndefined JUndefined (JStr "10%") JUndefined.
Definition opts_num_bottom : options := with_offsets defaultOptions JUndefined JUndefined (JNum (Fin (-40))) JUndefined.

Lemma in_view_of_spec_witness :
  topOffsetValue defaultOptions geo_in_view ≡n Fin 0 /\
  (in_view_of defaultOptions geo_in_view = true <-> element_box_visible geo_in_view 0 0 0 0).
Proof.
  split; [reflexivity|].
  apply in_view_of_spec; reflexivity.
Defined.

Lemma offTop_monotone_witness :
  checkOffTop defaultOptions geo_off_top = true /\ checkOffTop defaultOptions geo_further_down = true.
Proof.
  split; [vm_compute; reflexivity|].
  apply (offTop_monotone defaultOptions geo_off_top geo_further_down);
    try reflexivity; vm_compute; try reflexivity; discriminate.
Defined.

(** ["10%"] of a 400px element is 40px: on the top edge it acts as
    [topOffset: 40], on the bottom edge as [bottomOffset: -40]. *)
Lemma percent_offset_direction_witness :
  percent_of (elementHeight geo_off_top) "10" ≡n Fin 40 /\
  checkOffTop opts_pct_top geo_off_top = checkOffTop opts_num_top geo_off_top /\
  checkOffBottom opts_pct_bottom geo_off_top = checkOffBottom opts_num_bottom geo_off_top.
Proof.
  split; [vm_compute; reflexivity|].
  apply (percent_offset_direction _ _ _ _ _ "10" 40); vm_compute; reflexivity.
Defined.
