(* ===== verification/Sampler.v ===== *)
(** * The state sampler: [currentState], [updateCurrentState] and
      [isInViewPoint]

    [src/js/viewpoint.js] lines 222-250.  [currentState] is an object on
    [Viewpoint.prototype] (line 80): [updateCurrentState] writes the
    geometry read from jQuery and [isAffixTop] into it, and
    [isInViewPoint] writes the four off-edge flags and their aggregate.
    A field not yet written is [None] (the object starts as [{}]).

    The host's readings at the time of a call are a [sample]: the scroll
    element's [width()], [height()], [scrollTop()], [scrollLeft()] and the
    element's [width()], [height()], [offset()] (relative to the
    document) and [position()] (relative to its offset parent).

    The theorems: every snapshot the two methods leave behind is
    well formed (its folds are the viewport extents plus the scroll
    offsets, and its stored flags agree with their aggregate), and
    [isInViewPoint] returns the aggregate of the edge checks. *)

From S2P Require Import Prelude JsNumber JsValue Options Offsets Edges.
From stdpp Require Import base list strings.
From Stdlib Require Import QArith Lqa.
Local Close Scope Q_scope.

Record sample := mkSample {
  s_width : Q;
  s_height : Q;
  s_scrollTop : Q;
  s_scrollLeft : Q;
  s_elementWidth : Q;
  s_elementHeight : Q;
  s_offset : Q * Q;
  s_position : Q * Q
}.

Record snapshot := mkSnapshot {
  cs_geo : option geometry;
  cs_isAffixTop : option bool;
  cs_isOffTop : option bool;
  cs_isOffRight : option bool;
  cs_isOffBottom : option bool;
  cs_isOffLeft : option bool;
  cs_isInViewPoint : option bool
}.

(** [currentState: {}] (line 80). *)
Definition empty_snapshot : snapshot := mkSnapshot None None None None None None None.

(** The geometry [updateCurrentState] computes (lines 224-235): the
    element's position is [position()] when a content pane was
    resolved, [offset()] otherwise. *)
Definition sample_geometry (hasContentPane : bool) (smp : sample) : geometry :=
  let pos := if hasContentPane then s_position smp else s_offset smp in
  {| winWidth := s_width smp;
     winHeight := s_height smp;
     winScrollTop := s_scrollTop smp;
     winScrollLeft := s_scrollLeft smp;
     elementWidth := s_elementWidth smp;
     elementHeight := s_elementHeight smp;
     elementOffsetTop := fst pos;
     elementOffsetLeft := snd pos;
     foldWidth := s_width smp + s_scrollLeft smp;
     foldHeight := s_height smp + s_scrollTop smp |}.

(** [updateCurrentState] (lines 222-237): the geometry fields and
    [isAffixTop] are overwritten, the other flags are left as they were. *)
Definition updateCurrentState (hasContentPane : bool) (o : options) (smp : sample)
    (cs : snapshot) : snapshot :=
  let g := sample_geometry hasContentPane smp in
  {| cs_geo := Some g;
     cs_isAffixTop := Some (checkAffixTop o g);
     cs_isOffTop := cs_isOffTop cs;
     cs_isOffRight := cs_isOffRight cs;
     cs_isOffBottom := cs_isOffBottom cs;
     cs_isOffLeft := cs_isOffLeft cs;
     cs_isInViewPoint := cs_isInViewPoint cs |}.

(** The four checks on the stored geometry.  Before any
    [updateCurrentState] every field is [undefined], every arithmetic
    result [NaN] and every comparison false. *)
Definition edge_flags (o : options) (geo : option geometry) : bool * bool * bool * bool :=
  match geo with
  | Some g => (checkOffTop o g, checkOffRight o g, checkOffBottom o g, checkOffLeft o g)
  | None => (false, false, false, false)
  end.

(** [isInViewPoint] (lines 240-250): stores the four flags, then their
    aggregate, and returns it. *)
Definition isInViewPoint (o : options) (cs : snapshot) : snapshot * bool :=
  let '(t, r, b, l) := edge_flags o (cs_geo cs) in
  let iv := negb t && negb r && negb b && negb l in
  ({| cs_geo := cs_geo cs;
      cs_isAffixTop := cs_isAffixTop cs;
      cs_isOffTop := Some t;
      cs_isOffRight := Some r;
      cs_isOffBottom := Some b;
      cs_isOffLeft := Some l;
      cs_isInViewPoint := Some iv |}, iv).

(** ** Well-formed snapshots *)

Definition geometry_wf (g : geometry) : Prop :=
  (foldWidth g == winWidth g + winScrollLeft g)%Q /\
  (foldHeight g == winHeight g + winScrollTop g)%Q.

(** The flags stored in a snapshot agree with their aggregate: either
    none has been written yet, or all have and [isInViewPoint] is the
    conjunction of the negated edge flags. *)
Definition flags_coherent (cs : snapshot) : Prop :=
  (cs_isOffTop cs = None /\ cs_isOffRight cs = None /\ cs_isOffBottom cs = None /\
   cs_isOffLeft cs = None /\ cs_isInViewPoint cs = None) \/
  exists t r b l,
    cs_isOffTop cs = Some t /\ cs_isOffRight cs = Some r /\
    cs_isOffBottom cs = Some b /\ cs_isOffLeft cs = Some l /\
    cs_isInViewPoint cs = Some (negb t && negb r && negb b && negb l).

Definition snapshot_wf (cs : snapshot) : Prop :=
  match cs_geo cs with Some g => geometry_wf g | None => True end /\ flags_coherent cs.

Lemma empty_snapshot_wf : snapshot_wf empty_snapshot.
Proof. split; [done | left; repeat split]. Qed.

Lemma sample_geometry_wf p smp : geometry_wf (sample_geometry p smp).
Proof. split; simpl; reflexivity. Qed.

Lemma updateCurrentState_wf p o smp cs :
  snapshot_wf cs -> snapshot_wf (updateCurrentState p o smp cs).
Proof.
  intros [_ Hf]. split; [apply sample_geometry_wf|].
  destruct Hf as [Hn | (t & r & b & l & Hs)]; [left | right; exists t, r, b, l]; exact Hn || exact Hs.
Qed.

Lemma isInViewPoint_wf o cs : snapshot_wf cs -> snapshot_wf (isInViewPoint o cs).1.
Proof.
  intros [Hg _]. unfold isInViewPoint.
  destruct (edge_flags o (cs_geo cs)) as [[[t r] b] l].
  split; [exact Hg|]. right. exists t, r, b, l. repeat split.
Qed.

#[export] Hint Resolve empty_snapshot_wf updateCurrentState_wf isInViewPoint_wf : vp.

(** [isInViewPoint] returns the aggregate of the edge checks on the
    stored geometry, and leaves the geometry alone. *)
Lemma isInViewPoint_result o cs g :
  cs_geo cs = Some g ->
  (isInViewPoint o cs).2 = in_view_of o g /\ cs_geo (isInViewPoint o cs).1 = Some g.
Proof. intros H. unfold isInViewPoint. rewrite H. done. Qed.
