(* ===== verification/Dispatch.v ===== *)
(** * The transition dispatcher: the [checkViewPoint] handler

    [src/js/viewpoint.js] lines 112-181.  On every evaluation the
    handler bound in [setupEvents] samples the geometry
    ([updateCurrentState]), runs the affix family ([onAffixTop] or
    [offAffixTop]), computes [isInViewPoint] and runs the position family
    ([onInView] or [offView]).  The memory of each family is the last
    callback name it fired, [isCalled] and [isAffixTopCalled] (strings
    of the source, [""] initially); here they are enumerations.

    The handler runs in the state-and-exception monad of the prelude:
    its state is the instance's two memories, the shared [currentState]
    and the list of callback invocations made so far (each with the
    callback's slot, the function, the element and the snapshot it
    received).  Calling a slot that is truthy but not a function raises
    a [TypeError]; the effects before it persist.

    The theorems: the handler refines an abstract dispatcher
    ([affix_fire], [fire_seq] over [applicable]); a second evaluation on
    unchanged geometry fires nothing exactly when at most one position
    callback applies, and fires every applicable one again otherwise;
    the affix family fires at most one callback per evaluation; the
    affix callbacks receive the edge flags of the previous evaluation;
    and a non-function callback aborts the evaluation with a
    [TypeError]. *)

From S2P Require Import Prelude JsNumber JsValue Options Offsets Edges Sampler.
From stdpp Require Import base list strings sets.
From Stdlib Require Import QArith Lqa.
Local Close Scope Q_scope.

(** A DOM element, by identity. *)
Definition elem := nat.

(** [isCalled]: [""], ["inView"], ["offView"], ["offTop"], ["offRight"],
    ["offBottom"], ["offLeft"]. *)
Inductive pos_cat := PNone | PInView | POffView | POffTop | POffRight | POffBottom | POffLeft.

(** [isAffixTopCalled]: [""], ["affixTop"], ["offAffixTop"]. *)
Inductive affix_cat := ANone | AAffixTop | AOffAffixTop.

#[export] Instance pos_cat_eq_dec : EqDecision pos_cat.
Proof. solve_decision. Defined.
#[export] Instance affix_cat_eq_dec : EqDecision affix_cat.
Proof. solve_decision. Defined.

(** The eight callback slots of the options. *)
Inductive slot :=
  | SInView | SOffView | SOffTop | SOffRight | SOffBottom | SOffLeft
  | SAffixTop | SOffAffixTop.

#[export] Instance slot_eq_dec : EqDecision slot.
Proof. solve_decision. Defined.

Definition slot_val (o : options) (s : slot) : jsval :=
  match s with
  | SInView => inView o | SOffView => offView o | SOffTop => offTop o
  | SOffRight => offRight o | SOffBottom => offBottom o | SOffLeft => offLeft o
  | SAffixTop => affixTop o | SOffAffixTop => offAffixTop o
  end.

Definition pos_slot (c : pos_cat) : slot :=
  match c with
  | PInView | PNone => SInView | POffView => SOffView | POffTop => SOffTop
  | POffRight => SOffRight | POffBottom => SOffBottom | POffLeft => SOffLeft
  end.

Definition affix_slot (c : affix_cat) : slot :=
  match c with AAffixTop | ANone => SAffixTop | AOffAffixTop => SOffAffixTop end.

(** One invocation [options[slot](self.$element, self.currentState)]. *)
Record call := mkCall {
  c_slot : slot;
  c_fun : fid;
  c_elem : elem;
  c_state : snapshot
}.

Record dstate := mkDState {
  d_isCalled : pos_cat;
  d_isAffixTopCalled : affix_cat;
  d_cs : snapshot;
  d_calls : list call
}.

Definition set_isCalled (c : pos_cat) (d : dstate) : dstate :=
  mkDState c (d_isAffixTopCalled d) (d_cs d) (d_calls d).
Definition set_isAffixTopCalled (c : affix_cat) (d : dstate) : dstate :=
  mkDState (d_isCalled d) c (d_cs d) (d_calls d).
Definition set_cs (cs : snapshot) (d : dstate) : dstate :=
  mkDState (d_isCalled d) (d_isAffixTopCalled d) cs (d_calls d).

(** Calling the value of a slot: a function is invoked with the element
    and the shared snapshot; any other value raises a [TypeError].  A
    function call is recorded in [d_calls] and returns normally: the
    caller's callbacks are opaque, and one that throws or calls back
    into the plugin ([disable], [reset], [setupEvents], [trigger]) is
    not modelled. *)
Definition invoke (o : options) (s : slot) (el : elem) : M dstate unit :=
  fun d =>
    match slot_val o s with
    | JFun f => (Ok tt, mkDState (d_isCalled d) (d_isAffixTopCalled d) (d_cs d)
                                (d_calls d ++ [mkCall s f el (d_cs d)]))
    | _ => (Exc (TypeError "callback is not a function"), d)
    end.

(** The closures [setupEvents] defines (lines 129-181) share their
    names with option keys ([offAffixTop], [offView]); they live in a
    module of their own. *)
Module Handler.

(** [onAffixTop] (lines 129-134) and [offAffixTop] (lines 136-141). *)
Definition onAffixTop (o : options) (el : elem) : M dstate unit :=
  d ← mget;
  mwhen (bool_decide (d_isAffixTopCalled d ≠ AAffixTop))
    (invoke o SAffixTop el;; mmodify (set_isAffixTopCalled AAffixTop)).

Definition offAffixTop (o : options) (el : elem) : M dstate unit :=
  d ← mget;
  mwhen (bool_decide (d_isAffixTopCalled d ≠ AOffAffixTop))
    (invoke o SOffAffixTop el;; mmodify (set_isAffixTopCalled AOffAffixTop)).

(** [onInView] (lines 143-148). *)
Definition onInView (o : options) (el : elem) : M dstate unit :=
  d ← mget;
  mwhen (truthy (inView o) && bool_decide (d_isCalled d ≠ PInView))
    (invoke o SInView el;; mmodify (set_isCalled PInView)).

(** One [if (options.x && currentState.flag) { if (isCalled !== "x") ... }]
    block of [offView] (lines 157-180); the [offView] block itself
    (lines 151-156) has the flag [true]. *)
Definition offView_block (o : options) (el : elem) (c : pos_cat) (flag : bool) : M dstate unit :=
  mwhen (truthy (slot_val o (pos_slot c)) && flag)
    (d ← mget;
     mwhen (bool_decide (d_isCalled d ≠ c))
       (invoke o (pos_slot c) el;; mmodify (set_isCalled c))).

Definition flag_of (v : option bool) : bool :=
  match v with Some b => b | None => false end.

(** [offView] (lines 150-181). *)
Definition offView (o : options) (el : elem) : M dstate unit :=
  offView_block o el POffView true;;
  d ← mget;
  offView_block o el POffTop (flag_of (cs_isOffTop (d_cs d)));;
  d ← mget;
  offView_block o el POffRight (flag_of (cs_isOffRight (d_cs d)));;
  d ← mget;
  offView_block o el POffBottom (flag_of (cs_isOffBottom (d_cs d)));;
  d ← mget;
  offView_block o el POffLeft (flag_of (cs_isOffLeft (d_cs d))).

(** The handler of the [checkViewPoint] event (lines 112-127). *)
Definition checkViewPoint (hasContentPane : bool) (o : options) (el : elem) (smp : sample)
    : M dstate unit :=
  mmodify (fun d => set_cs (updateCurrentState hasContentPane o smp (d_cs d)) d);;
  d ← mget;
  (if truthy (affixTop o) && flag_of (cs_isAffixTop (d_cs d)) then onAffixTop o el
   else if truthy (Options.offAffixTop o) then offAffixTop o el
   else mret tt);;
  d ← mget;
  let '(cs', iv) := isInViewPoint o (d_cs d) in
  mput (set_cs cs' d);;
  if iv then onInView o el else offView o el.

End Handler.

(** [reset(opt)] (lines 306-310): [opt.isCalled === false] clears
    [isCalled] and [opt.isAffixTopCalled === false] clears
    [isAffixTopCalled].  [opt] is [None] when it is falsy, otherwise the
    values of its two properties ([undefined] when absent). *)
Definition is_false_val (v : jsval) : bool :=
  match v with JBool false => true | _ => false end.

Definition reset (opt : option (jsval * jsval)) (d : dstate) : dstate :=
  let '(ic, iac) :=
    match opt with
    | Some (a, b) => (is_false_val a, is_false_val b)
    | None => (false, false)
    end in
  mkDState (if ic then PNone else d_isCalled d) (if iac then ANone else d_isAffixTopCalled d)
           (d_cs d) (d_calls d).

(** The callbacks of the affix family, and the calls an evaluation added. *)
Definition is_affix_slot (s : slot) : bool :=
  match s with SAffixTop | SOffAffixTop => true | _ => false end.

Definition new_calls (d d' : dstate) : list call := drop (length (d_calls d)) (d_calls d').

(** ** The abstract dispatcher *)

Definition all_slots : list slot :=
  [SInView; SOffView; SOffTop; SOffRight; SOffBottom; SOffLeft; SAffixTop; SOffAffixTop].

(** Every slot the handler may call holds a function or a falsy value. *)
Definition callable (o : options) : bool :=
  forallb (fun s => negb (truthy (slot_val o s)) || isFunction (slot_val o s)) all_slots.

Definition slot_fid (o : options) (s : slot) : fid :=
  match slot_val o s with JFun f => f | _ => 0 end.

Definition mk_call (o : options) (el : elem) (cs : snapshot) (s : slot) : call :=
  mkCall s (slot_fid o s) el cs.

Definition pos_calls (o : options) (el : elem) (cs : snapshot) (P : list pos_cat) : list call :=
  map (fun c => mk_call o el cs (pos_slot c)) P.

(** The position callbacks that apply, in the order the handler tries
    them: [inView] when in view; otherwise [offView] and then each edge
    whose flag is set. *)
Definition applicable (o : options) (iv t r b l : bool) : list pos_cat :=
  if iv then (if truthy (inView o) then [PInView] else [])
  else (if truthy (offView o) then [POffView] else [])
       ++ (if truthy (offTop o) && t then [POffTop] else [])
       ++ (if truthy (offRight o) && r then [POffRight] else [])
       ++ (if truthy (offBottom o) && b then [POffBottom] else [])
       ++ (if truthy (offLeft o) && l then [POffLeft] else []).

(** Trying the applicable categories in order: each one fires when the
    memory differs from it, and the memory becomes it either way. *)
Fixpoint fire_seq (mem : pos_cat) (L : list pos_cat) : list pos_cat :=
  match L with
  | [] => []
  | c :: L' => (if decide (mem = c) then [] else [c]) ++ fire_seq c L'
  end.

Fixpoint last_or (L : list pos_cat) (mem : pos_cat) : pos_cat :=
  match L with
  | [] => mem
  | c :: L' => last_or L' c
  end.

(** The affix family: at most one category applies. *)
Definition affix_target (o : options) (isAffix : bool) : option affix_cat :=
  if truthy (affixTop o) && isAffix then Some AAffixTop
  else if truthy (offAffixTop o) then Some AOffAffixTop
  else None.

Definition affix_fire (o : options) (isAffix : bool) (mem : affix_cat) : list affix_cat :=
  match affix_target o isAffix with
  | Some c => if decide (mem = c) then [] else [c]
  | None => []
  end.

Definition affix_next (o : options) (isAffix : bool) (mem : affix_cat) : affix_cat :=
  match affix_target o isAffix with Some c => c | None => mem end.

(** The categories that apply to a sample. *)
Definition applicable_at (p : bool) (o : options) (smp : sample) : list pos_cat :=
  let g := sample_geometry p smp in
  let '(t, r, b, l) := edge_flags o (Some g) in
  applicable o (in_view_of o g) t r b l.

(** One evaluation, as the abstract dispatcher describes it. *)
Definition spec_step (p : bool) (o : options) (el : elem) (smp : sample) (d : dstate) : dstate :=
  let g := sample_geometry p smp in
  let cs1 := updateCurrentState p o smp (d_cs d) in
  let cs2 := (isInViewPoint o cs1).1 in
  let A := affix_fire o (checkAffixTop o g) (d_isAffixTopCalled d) in
  let L := applicable_at p o smp in
  mkDState (last_or L (d_isCalled d)) (affix_next o (checkAffixTop o g) (d_isAffixTopCalled d)) cs2
    (d_calls d ++ map (fun c => mk_call o el cs1 (affix_slot c)) A
               ++ pos_calls o el cs2 (fire_seq (d_isCalled d) L)).

(** ** Lemmas on the abstract dispatcher *)

Lemma fire_seq_app m L1 L2 :
  fire_seq m (L1 ++ L2) = fire_seq m L1 ++ fire_seq (last_or L1 m) L2.
Proof.
  revert m. induction L1 as [|c L1 IH]; intros m; [done|].
  simpl. rewrite IH, app_assoc. done.
Qed.

Lemma last_or_app L1 L2 m : last_or (L1 ++ L2) m = last_or L2 (last_or L1 m).
Proof. revert m. induction L1; simpl; auto. Qed.

Lemma last_or_in L m : L <> [] -> last_or L m ∈ L.
Proof.
  revert m. induction L as [|c L IH]; intros m H; [done|].
  destruct L as [|c' L]; simpl; [set_solver|].
  apply elem_of_cons. right. apply (IH c). done.
Qed.

(** Once the memory is the last applicable category, a single one
    fires nothing again, and two or more distinct ones all fire again. *)
Lemma fire_seq_last_small L m : length L <= 1 -> fire_seq (last_or L m) L = [].
Proof.
  destruct L as [|c [|c' L]]; simpl; intros H; [done| |lia].
  by rewrite decide_True.
Qed.

Lemma fire_seq_distinct m L :
  NoDup L -> m ∉ L -> fire_seq m L = L.
Proof.
  revert m. induction L as [|c L IH]; intros m Hnd Hm; [done|].
  apply NoDup_cons in Hnd as [Hc Hnd]. simpl.
  rewrite decide_False by set_solver. rewrite IH; done.
Qed.

Lemma fire_seq_last_large L m :
  NoDup L -> 2 <= length L -> fire_seq (last_or L m) L = L.
Proof.
  intros Hnd Hlen. destruct L as [|c L]; [simpl in Hlen; lia|].
  pose proof (NoDup_cons_1_1 _ _ Hnd) as Hc.
  simpl. assert (Hl : last_or L c ∈ L) by (apply last_or_in; destruct L; simpl in *; [lia|done]).
  rewrite decide_False by (intros He; rewrite He in Hl; done).
  f_equal. apply fire_seq_distinct; [by apply NoDup_cons in Hnd as [_ ?]|].
  set_solver.
Qed.

Lemma applicable_NoDup o iv t r b l : NoDup (applicable o iv t r b l).
Proof.
  unfold applicable. repeat case_match; apply (bool_decide_unpack _); reflexivity.
Qed.

Lemma affix_fire_next o a m : affix_fire o a (affix_next o a m) = [].
Proof.
  unfold affix_fire, affix_next. destruct (affix_target o a); [|done].
  by rewrite decide_True.
Qed.

Lemma affix_fire_length o a m : length (affix_fire o a m) <= 1.
Proof. unfold affix_fire. repeat case_match; simpl; lia. Qed.

(** ** The handler implements the abstract dispatcher *)

(** The effect of trying the categories [L] of the position family. *)
Definition fire (o : options) (el : elem) (L : list pos_cat) (d : dstate) : dstate :=
  mkDState (last_or L (d_isCalled d)) (d_isAffixTopCalled d) (d_cs d)
    (d_calls d ++ pos_calls o el (d_cs d) (fire_seq (d_isCalled d) L)).

(** The effect of the affix family. *)
Definition affix_apply (o : options) (el : elem) (a : bool) (d : dstate) : dstate :=
  mkDState (d_isCalled d) (affix_next o a (d_isAffixTopCalled d)) (d_cs d)
    (d_calls d ++ map (fun c => mk_call o el (d_cs d) (affix_slot c))
                      (affix_fire o a (d_isAffixTopCalled d))).

Lemma dstate_eta d : mkDState (d_isCalled d) (d_isAffixTopCalled d) (d_cs d) (d_calls d) = d.
Proof. by destruct d. Qed.

Lemma fire_nil o el d : fire o el [] d = d.
Proof. unfold fire. simpl. rewrite app_nil_r. apply dstate_eta. Qed.

Lemma fire_app o el L1 L2 d : fire o el L2 (fire o el L1 d) = fire o el (L1 ++ L2) d.
Proof.
  unfold fire. simpl. rewrite last_or_app, fire_seq_app.
  unfold pos_calls. rewrite map_app, app_assoc. done.
Qed.

Lemma fire_cs o el L d : d_cs (fire o el L d) = d_cs d.
Proof. done. Qed.

#[export] Hint Rewrite fire_nil fire_app fire_cs : vp_rw.

(** Calling the slot, when the handler does, does not throw. *)
Definition slot_ok (o : options) (s : slot) : Prop :=
  truthy (slot_val o s) = true -> isFunction (slot_val o s) = true.

Lemma callable_slot o s : callable o = true -> slot_ok o s.
Proof.
  unfold callable. rewrite forallb_forall. intros H Ht.
  assert (Hin : In s all_slots) by (destruct s; simpl; tauto).
  specialize (H s Hin). rewrite Ht in H. exact H.
Qed.

Lemma invoke_fun o s el d :
  isFunction (slot_val o s) = true ->
  invoke o s el d = (Ok tt, mkDState (d_isCalled d) (d_isAffixTopCalled d) (d_cs d)
                                     (d_calls d ++ [mk_call o el (d_cs d) s])).
Proof.
  unfold invoke, mk_call, slot_fid. destruct (slot_val o s); try discriminate. done.
Qed.

Lemma invoke_nonfun o s el d :
  isFunction (slot_val o s) = false ->
  invoke o s el d = (Exc (TypeError "callback is not a function"), d).
Proof. unfold invoke. destruct (slot_val o s); try discriminate; done. Qed.

Section Refinement.
Context (o : options) (el : elem).

Lemma offView_block_spec c flag d :
    slot_ok o (pos_slot c) ->
    Handler.offView_block o el c flag d =
    (Ok tt, fire o el (if truthy (slot_val o (pos_slot c)) && flag then [c] else []) d).
  Proof.
    intros Hok. unfold Handler.offView_block.
    destruct (truthy (slot_val o (pos_slot c)) && flag) eqn:Ht; [|by rewrite fire_nil].
    apply andb_true_iff in Ht as [Ht _].
    rewrite mwhen_true, bind_unfold. cbn [mget]. unfold fire. simpl.
    case_bool_decide as Hne.
    - rewrite mwhen_true, bind_unfold, invoke_fun by auto.
      case_decide; done.
    - rewrite mwhen_false. case_decide; [|done].
      rewrite app_nil_r, <- Hne, dstate_eta. done.
  Qed.

Lemma onInView_spec d :
    slot_ok o SInView ->
    Handler.onInView o el d = (Ok tt, fire o el (if truthy (inView o) then [PInView] else []) d).
  Proof.
    intros Hok. transitivity (Handler.offView_block o el PInView true d).
    - unfold Handler.onInView, Handler.offView_block. cbn [slot_val pos_slot].
      rewrite andb_true_r. destruct (truthy (inView o)); reflexivity.
    - rewrite offView_block_spec by done. cbn [slot_val pos_slot].
      rewrite andb_true_r. reflexivity.
  Qed.
Lemma offView_spec d t r b l :
    (forall c, slot_ok o (pos_slot c)) ->
    cs_isOffTop (d_cs d) = Some t -> cs_isOffRight (d_cs d) = Some r ->
    cs_isOffBottom (d_cs d) = Some b -> cs_isOffLeft (d_cs d) = Some l ->
    Handler.offView o el d = (Ok tt, fire o el (applicable o false t r b l) d).
  Proof.
    intros Hok Ht Hr Hb Hl. unfold Handler.offView.
    repeat (rewrite bind_unfold, offView_block_spec by apply Hok; cbn [mget];
            rewrite ?bind_unfold; cbn [mget]; rewrite ?fire_cs).
    rewrite offView_block_spec, Ht, Hr, Hb, Hl by apply Hok. cbn [Handler.flag_of].
    rewrite !fire_app, andb_true_r. reflexivity.
  Qed.
  (** The effect of one affix closure for the category [c]. *)
Definition affix_effect (c : affix_cat) (d : dstate) : dstate :=
    if decide (d_isAffixTopCalled d = c) then d
    else mkDState (d_isCalled d) c (d_cs d) (d_calls d ++ [mk_call o el (d_cs d) (affix_slot c)]).

Ltac affix_closure_tac :=
    intros Hok Ht; unfold Handler.onAffixTop, Handler.offAffixTop;
    rewrite bind_unfold; cbn [mget]; unfold affix_effect;
    case_bool_decide as Hne;
    [ rewrite mwhen_true, bind_unfold, invoke_fun by auto;
      case_decide; done
    | rewrite mwhen_false; case_decide; done ].

Lemma onAffixTop_spec d :
    slot_ok o SAffixTop -> truthy (affixTop o) = true -> Handler.onAffixTop o el d = (Ok tt, affix_effect AAffixTop d).
  Proof. affix_closure_tac. Qed.

Lemma offAffixTop_spec d :
    slot_ok o SOffAffixTop -> truthy (Options.offAffixTop o) = true ->
    Handler.offAffixTop o el d = (Ok tt, affix_effect AOffAffixTop d).
  Proof. affix_closure_tac. Qed.

Lemma affix_branch_spec d :
    slot_ok o SAffixTop -> slot_ok o SOffAffixTop ->
    (if truthy (affixTop o) && Handler.flag_of (cs_isAffixTop (d_cs d)) then Handler.onAffixTop o el
     else if truthy (Options.offAffixTop o) then Handler.offAffixTop o el else mret tt) d
    = (Ok tt, affix_apply o el (Handler.flag_of (cs_isAffixTop (d_cs d))) d).
  Proof.
    intros Hok1 Hok2. unfold affix_apply, affix_next, affix_fire, affix_target.
    destruct (truthy (affixTop o) && _) eqn:E1.
    - apply andb_true_iff in E1 as [E1 _]. rewrite onAffixTop_spec by done.
      unfold affix_effect. case_decide as Hm; [rewrite <- Hm; simpl; by rewrite app_nil_r, dstate_eta|done].
    - destruct (truthy (Options.offAffixTop o)) eqn:E2.
      + rewrite offAffixTop_spec by done.
        unfold affix_effect. case_decide as Hm; [rewrite <- Hm; simpl; by rewrite app_nil_r, dstate_eta|done].
      + cbn. by rewrite app_nil_r, dstate_eta.
  Qed.
End Refinement.

(** The handler and the abstract dispatcher agree on callable options. *)
Lemma checkViewPoint_spec (p : bool) (o : options) (el : elem) (smp : sample) (d : dstate) :
  callable o = true ->
  Handler.checkViewPoint p o el smp d = (Ok tt, spec_step p o el smp d).
Proof.
  intros Hc. unfold Handler.checkViewPoint.
  rewrite bind_unfold. cbn [mmodify]. rewrite bind_unfold. cbn [mget].
  rewrite bind_unfold, affix_branch_spec by (apply callable_slot; done).
  rewrite bind_unfold. cbn [mget]. unfold spec_step, applicable_at.
  unfold isInViewPoint at 1. cbn [affix_apply d_cs set_cs updateCurrentState cs_geo edge_flags].
  rewrite bind_unfold. cbn [mput].
  remember (sample_geometry p smp) as g eqn:Hg.
  destruct (negb (checkOffTop o g) && negb (checkOffRight o g) && negb (checkOffBottom o g)
            && negb (checkOffLeft o g)) eqn:Hiv.
  - rewrite onInView_spec by (apply callable_slot; done). unfold fire, affix_apply, in_view_of.
    cbn -[checkOffTop checkOffRight checkOffBottom checkOffLeft checkAffixTop].
    subst g. unfold applicable. rewrite !Hiv, !app_assoc. reflexivity.
  - rewrite (offView_spec _ _ _ (checkOffTop o g) (checkOffRight o g)
               (checkOffBottom o g) (checkOffLeft o g)) by
      (reflexivity || (intros; apply callable_slot; done)).
    unfold fire, affix_apply, in_view_of.
    cbn -[checkOffTop checkOffRight checkOffBottom checkOffLeft checkAffixTop].
    subst g. unfold applicable. rewrite !Hiv, !app_assoc. reflexivity.
Qed.

(** C1: when every callback slot holds a function or a falsy value, one
    evaluation of the [checkViewPoint] handler has exactly the effect of
    the abstract dispatcher: it stores the new snapshot, fires the affix
    category that applies unless it is the remembered one, tries the
    applicable position categories in order firing each one that differs
    from the memory, and records each call with the snapshot it saw. *)
Theorem checkViewPoint_refines (p : bool) (o : options) (el : elem) (smp : sample) (d : dstate) :
  callable o = true ->
  Handler.checkViewPoint p o el smp d = (Ok tt, spec_step p o el smp d).
Proof. apply checkViewPoint_spec. Qed.

Lemma spec_step_calls p o el smp d :
  d_calls (spec_step p o el smp d) =
  d_calls d ++ map (fun c => mk_call o el (updateCurrentState p o smp (d_cs d)) (affix_slot c))
                   (affix_fire o (checkAffixTop o (sample_geometry p smp)) (d_isAffixTopCalled d))
            ++ pos_calls o el (isInViewPoint o (updateCurrentState p o smp (d_cs d))).1
                 (fire_seq (d_isCalled d) (applicable_at p o smp)).
Proof. reflexivity. Qed.

Lemma pos_calls_nil o el cs P : pos_calls o el cs P = [] <-> P = [].
Proof. unfold pos_calls. split; [apply map_eq_nil|intros ->; done]. Qed.

(** Two evaluations in a row on the same sample. *)
Lemma spec_step_twice p o el smp d :
  let d1 := spec_step p o el smp d in
  d_calls (spec_step p o el smp d1) =
  d_calls d1 ++ pos_calls o el (isInViewPoint o (updateCurrentState p o smp (d_cs d1))).1
                  (fire_seq (last_or (applicable_at p o smp) (d_isCalled d)) (applicable_at p o smp)).
Proof.
  cbv zeta. rewrite (spec_step_calls p o el smp (spec_step p o el smp d)).
  change (d_isAffixTopCalled (spec_step p o el smp d))
    with (affix_next o (checkAffixTop o (sample_geometry p smp)) (d_isAffixTopCalled d)).
  change (d_isCalled (spec_step p o el smp d))
    with (last_or (applicable_at p o smp) (d_isCalled d)).
  rewrite affix_fire_next. done.
Qed.

Lemma applicable_at_NoDup p o smp : NoDup (applicable_at p o smp).
Proof. unfold applicable_at. simpl. apply applicable_NoDup. Qed.

(** C2: when every callback slot is callable, a second evaluation on
    unchanged geometry fires no callback if and only if at most one
    position callback applies. *)
Theorem second_evaluation_silent (p : bool) (o : options) (el : elem) (smp : sample)
    (d d1 d2 : dstate) :
  callable o = true ->
  Handler.checkViewPoint p o el smp d = (Ok tt, d1) ->
  Handler.checkViewPoint p o el smp d1 = (Ok tt, d2) ->
  (d_calls d2 = d_calls d1 <-> length (applicable_at p o smp) <= 1).
Proof.
  intros Hc H1 H2. rewrite checkViewPoint_spec in H1, H2 by done.
  injection H1 as <-. injection H2 as <-. rewrite spec_step_twice.
  rewrite <- (app_nil_r (d_calls (spec_step p o el smp d))) at 2.
  rewrite (app_inv_head_iff _ _ _), pos_calls_nil. split.
  - intros Hnil. destruct (decide (length (applicable_at p o smp) <= 1)) as [|Hlen]; [done|].
    rewrite fire_seq_last_large in Hnil by (apply applicable_at_NoDup || lia).
    rewrite Hnil in Hlen. simpl in Hlen. lia.
  - apply fire_seq_last_small.
Qed.

(** C4: when two or more position callbacks apply (say [offView] and
    [offTop] for an element above the viewport), every evaluation after
    the first fires all of them again, in order, although the geometry
    has not changed. *)
Theorem repeated_evaluation_refires (p : bool) (o : options) (el : elem) (smp : sample)
    (d d1 d2 : dstate) :
  callable o = true -> 2 <= length (applicable_at p o smp) ->
  Handler.checkViewPoint p o el smp d = (Ok tt, d1) ->
  Handler.checkViewPoint p o el smp d1 = (Ok tt, d2) ->
  map c_slot (drop (length (d_calls d1)) (d_calls d2)) = map pos_slot (applicable_at p o smp).
Proof.
  intros Hc Hlen H1 H2. rewrite checkViewPoint_spec in H1, H2 by done.
  injection H1 as <-. injection H2 as <-. rewrite spec_step_twice, drop_app_length.
  rewrite fire_seq_last_large by (apply applicable_at_NoDup || lia).
  unfold pos_calls. rewrite map_map. done.
Qed.

(** ** Concrete evaluations *)

(** A 1000x800 viewport scrolled to [scrollTop = 600], and a 100x400
    element at [offsetTop = 100]: its bottom edge (500) is above the
    viewport. *)
Definition sample_off_top : sample :=
  mkSample 1000 800 600 0 100 400 (100, 0)%Q (100, 0)%Q.

(** The same element with the viewport at the top of the document. *)
Definition sample_in_view : sample :=
  mkSample 1000 800 0 0 100 400 (100, 0)%Q (100, 0)%Q.

Definition initial_dstate : dstate := mkDState PNone ANone empty_snapshot [].

(** [offView] and [offTop] configured. *)
Definition opts_off_view_top : options :=
  with_callbacks JUndefined (JFun 2) (JFun 3) JUndefined JUndefined JUndefined
                 JUndefined JUndefined.

(** Only [inView] configured. *)
Definition opts_in_view : options :=
  with_callbacks (JFun 1) JUndefined JUndefined JUndefined JUndefined JUndefined
                 JUndefined JUndefined.

Definition eval_once (o : options) (smp : sample) (d : dstate) : dstate :=
  exec (Handler.checkViewPoint false o 7 smp) d.

Lemma second_evaluation_silent_witness :
  let d1 := eval_once opts_in_view sample_in_view initial_dstate in
  let d2 := eval_once opts_in_view sample_in_view d1 in
  callable opts_in_view = true /\
  Handler.checkViewPoint false opts_in_view 7 sample_in_view initial_dstate = (Ok tt, d1) /\
  Handler.checkViewPoint false opts_in_view 7 sample_in_view d1 = (Ok tt, d2) /\
  (d_calls d2 = d_calls d1 <-> length (applicable_at false opts_in_view sample_in_view) <= 1).
Proof.
  cbv zeta. split; [vm_compute; reflexivity|]. split; [vm_compute; reflexivity|].
  split; [vm_compute; reflexivity|].
  apply (second_evaluation_silent false opts_in_view 7 sample_in_view initial_dstate);
    vm_compute; reflexivity.
Defined.

Lemma repeated_evaluation_refires_witness :
  let d1 := eval_once opts_off_view_top sample_off_top initial_dstate in
  let d2 := eval_once opts_off_view_top sample_off_top d1 in
  callable opts_off_view_top = true /\ 2 <= length (applicable_at false opts_off_view_top sample_off_top) /\
  map c_slot (drop (length (d_calls d1)) (d_calls d2)) = [SOffView; SOffTop].
Proof.
  cbv zeta. split; [vm_compute; reflexivity|]. split; [vm_compute; lia|].
  rewrite (repeated_evaluation_refires false opts_off_view_top 7 sample_off_top initial_dstate
             (eval_once opts_off_view_top sample_off_top initial_dstate));
    vm_compute; try reflexivity; lia.
Defined.

(** ** Per-evaluation guarantees and the error path *)

Lemma new_calls_spec p o el smp d :
  new_calls d (spec_step p o el smp d) =
  map (fun c => mk_call o el (updateCurrentState p o smp (d_cs d)) (affix_slot c))
      (affix_fire o (checkAffixTop o (sample_geometry p smp)) (d_isAffixTopCalled d))
  ++ pos_calls o el (isInViewPoint o (updateCurrentState p o smp (d_cs d))).1
       (fire_seq (d_isCalled d) (applicable_at p o smp)).
Proof. unfold new_calls. rewrite spec_step_calls, drop_app_length. done. Qed.

Lemma pos_calls_not_affix o el cs P :
  Forall (fun c => is_affix_slot (c_slot c) = false) (pos_calls o el cs P).
Proof. unfold pos_calls. apply Forall_map, Forall_forall. intros [] _; done. Qed.

Lemma affix_calls_affix o el cs A :
  Forall (fun c => is_affix_slot (c_slot c) = true)
         (map (fun c => mk_call o el cs (affix_slot c)) A).
Proof. apply Forall_map, Forall_forall. intros [] _; done. Qed.

(** Consecutive evaluations of one tracker, one per sample; an
    exception ends the sequence. *)
Fixpoint eval_seq (p : bool) (o : options) (el : elem) (smps : list sample) (d : dstate)
    : outcome unit * dstate :=
  match smps with
  | [] => (Ok tt, d)
  | smp :: rest =>
      match Handler.checkViewPoint p o el smp d with
      | (Ok _, d1) => eval_seq p o el rest d1
      | (Exc x, d1) => (Exc x, d1)
      end
  end.

Lemma affix_count_app l1 l2 :
  length (List.filter (fun c => is_affix_slot (c_slot c)) (l1 ++ l2)) =
  length (List.filter (fun c => is_affix_slot (c_slot c)) l1) +
  length (List.filter (fun c => is_affix_slot (c_slot c)) l2).
Proof. rewrite filter_app_bool, length_app. done. Qed.

(** One evaluation calls the affix callbacks [affix_fire] selects. *)
Lemma spec_step_affix_count p o el smp d :
  exists l, d_calls (spec_step p o el smp d) = d_calls d ++ l /\
    length (List.filter (fun c => is_affix_slot (c_slot c)) l) =
    length (affix_fire o (checkAffixTop o (sample_geometry p smp)) (d_isAffixTopCalled d)).
Proof.
  eexists. split; [reflexivity|]. rewrite affix_count_app.
  rewrite (filter_all_false _ _ (pos_calls_not_affix _ _ _ _)).
  rewrite (filter_all_true _ _ (affix_calls_affix _ _ _ _)), length_map. cbn. lia.
Qed.

(** Along evaluations that all find the element affixed, or all find it
    not affixed, the affix callbacks called are at most those the first
    evaluation selects: that evaluation stores the category it fires. *)
Lemma eval_seq_affix p o el smps a d d' :
  callable o = true -> Forall (fun smp => checkAffixTop o (sample_geometry p smp) = a) smps ->
  eval_seq p o el smps d = (Ok tt, d') ->
  exists l, d_calls d' = d_calls d ++ l /\
    length (List.filter (fun c => is_affix_slot (c_slot c)) l) <= length (affix_fire o a (d_isAffixTopCalled d)).
Proof.
  intros Hc. revert d. induction smps as [|smp smps IH]; intros d Ha He; cbn [eval_seq] in He.
  - injection He as <-. exists []. rewrite app_nil_r. split; [done|cbn; lia].
  - apply Forall_cons in Ha as [Ha1 Ha]. rewrite checkViewPoint_spec in He by exact Hc.
    destruct (spec_step_affix_count p o el smp d) as (l1 & E1 & C1).
    destruct (IH _ Ha He) as (l2 & E2 & C2). rewrite Ha1 in C1.
    replace (d_isAffixTopCalled (spec_step p o el smp d)) with (affix_next o a (d_isAffixTopCalled d))
      in C2 by (unfold spec_step; rewrite Ha1; done).
    rewrite affix_fire_next in C2. exists (l1 ++ l2). rewrite E2, E1, app_assoc.
    split; [done|]. rewrite affix_count_app. cbn in C2. lia.
Qed.

(** C8: along consecutive evaluations that all find the element affixed
    (or all find it not affixed), the affix family fires at most once in
    total: [onAffixTop] and [offAffixTop] store the category they fire
    in [isAffixTopCalled] and test it first. *)
Theorem affix_at_most_once (p : bool) (o : options) (el : elem) (smps : list sample) (a : bool)
    (d d' : dstate) :
  callable o = true -> Forall (fun smp => checkAffixTop o (sample_geometry p smp) = a) smps ->
  eval_seq p o el smps d = (Ok tt, d') ->
  length (List.filter (fun c => is_affix_slot (c_slot c)) (new_calls d d')) <= 1.
Proof.
  intros Hc Ha He. destruct (eval_seq_affix p o el smps a d d' Hc Ha He) as (l & E & C).
  unfold new_calls. rewrite E, drop_app_length. etransitivity; [exact C|apply affix_fire_length].
Qed.

(** The calls of the affix family carry the flags found in the snapshot. *)
Lemma affix_calls_state (p : bool) (o : options) (el : elem) (smp : sample)
    (d d' : dstate) :
  callable o = true -> Handler.checkViewPoint p o el smp d = (Ok tt, d') ->
  Forall (fun c => is_affix_slot (c_slot c) = true ->
            cs_geo (c_state c) = Some (sample_geometry p smp) /\
            cs_isOffTop (c_state c) = cs_isOffTop (d_cs d) /\
            cs_isOffRight (c_state c) = cs_isOffRight (d_cs d) /\
            cs_isOffBottom (c_state c) = cs_isOffBottom (d_cs d) /\
            cs_isOffLeft (c_state c) = cs_isOffLeft (d_cs d) /\
            cs_isInViewPoint (c_state c) = cs_isInViewPoint (d_cs d))
         (new_calls d d').
Proof.
  intros Hc H. rewrite checkViewPoint_spec in H by done. injection H as <-.
  rewrite new_calls_spec. apply Forall_app. split.
  - apply Forall_map, Forall_forall. intros c _ _. repeat split.
  - eapply Forall_impl; [apply pos_calls_not_affix|]. intros c Hc' Ha. congruence.
Qed.

(** The flags an evaluation leaves in the snapshot are those of its
    own geometry. *)
Lemma spec_step_flags p o el smp d :
  let g := sample_geometry p smp in
  cs_isOffTop (d_cs (spec_step p o el smp d)) = Some (checkOffTop o g) /\
  cs_isInViewPoint (d_cs (spec_step p o el smp d)) = Some (in_view_of o g).
Proof. done. Qed.

(** C9: the snapshot an affix callback receives holds the new geometry
    but the edge flags and the in-view flag of the previous evaluation:
    [isInViewPoint] runs only after the affix family. *)
Theorem affix_callbacks_see_previous_flags (p : bool) (o : options) (el : elem) (smp : sample)
    (d d' : dstate) :
  callable o = true -> Handler.checkViewPoint p o el smp d = (Ok tt, d') ->
  Forall (fun c => is_affix_slot (c_slot c) = true ->
            cs_geo (c_state c) = Some (sample_geometry p smp) /\
            cs_isOffTop (c_state c) = cs_isOffTop (d_cs d) /\
            cs_isOffRight (c_state c) = cs_isOffRight (d_cs d) /\
            cs_isOffBottom (c_state c) = cs_isOffBottom (d_cs d) /\
            cs_isOffLeft (c_state c) = cs_isOffLeft (d_cs d) /\
            cs_isInViewPoint (c_state c) = cs_isInViewPoint (d_cs d))
         (new_calls d d').
Proof. apply affix_calls_state. Qed.

(** The state of an evaluation once the affix family has run and
    [isInViewPoint] has stored its flags. *)
Definition mid_state (p : bool) (o : options) (el : elem) (smp : sample) (d : dstate) : dstate :=
  let cs1 := updateCurrentState p o smp (d_cs d) in
  set_cs (isInViewPoint o cs1).1
    (affix_apply o el (checkAffixTop o (sample_geometry p smp)) (set_cs cs1 d)).

Lemma checkViewPoint_unfold p o el smp d :
  slot_ok o SAffixTop -> slot_ok o SOffAffixTop ->
  Handler.checkViewPoint p o el smp d =
  (if in_view_of o (sample_geometry p smp) then Handler.onInView o el else Handler.offView o el)
    (mid_state p o el smp d).
Proof.
  intros H1 H2. unfold Handler.checkViewPoint.
  rewrite bind_unfold. cbn [mmodify]. rewrite bind_unfold. cbn [mget].
  rewrite bind_unfold, affix_branch_spec by done.
  rewrite bind_unfold. cbn [mget]. reflexivity.
Qed.

(** C15: an [inView] option that is truthy but not a function (the
    constructor only requires some slot to be a function) makes every
    evaluation that finds the element in view throw a [TypeError] after
    the affix family has run and [isInViewPoint] has stored the new
    snapshot, and before [isCalled] is updated: the exception keeps
    those writes and the affix calls, and the next evaluation throws
    again. *)
Theorem inView_not_function_throws (p : bool) (o : options) (el : elem) (smp : sample) (d : dstate) :
  slot_ok o SAffixTop -> slot_ok o SOffAffixTop ->
  truthy (inView o) = true -> isFunction (inView o) = false ->
  in_view_of o (sample_geometry p smp) = true -> d_isCalled d <> PInView ->
  let a := checkAffixTop o (sample_geometry p smp) in
  let cs1 := updateCurrentState p o smp (d_cs d) in
  exists d', Handler.checkViewPoint p o el smp d = (Exc (TypeError "callback is not a function"), d') /\
    d_isCalled d' = d_isCalled d /\
    d_cs d' = (isInViewPoint o cs1).1 /\
    d_isAffixTopCalled d' = affix_next o a (d_isAffixTopCalled d) /\
    new_calls d d' = map (fun c => mk_call o el cs1 (affix_slot c)) (affix_fire o a (d_isAffixTopCalled d)).
Proof.
  intros H1 H2 Ht Hf Hiv Hne. cbv zeta. rewrite checkViewPoint_unfold, Hiv by done.
  unfold Handler.onInView. rewrite bind_unfold. cbn [mget].
  rewrite Ht, bool_decide_true by exact Hne. rewrite mwhen_true, bind_unfold, invoke_nonfun by exact Hf.
  eexists. split; [reflexivity|]. split; [done|]. split; [done|]. split; [done|].
  unfold new_calls, mid_state. cbn [set_cs affix_apply d_calls]. rewrite drop_app_length. done.
Qed.

(** C17: when [affixTop] is not set, [offAffixTop] fires (once) although
    the element is affixed: the [else] branch of line 118 does not test
    [isAffixTop]. *)
Theorem offAffixTop_fires_while_affixed (p : bool) (o : options) (el : elem) (smp : sample)
    (d d' : dstate) :
  callable o = true -> truthy (affixTop o) = false -> truthy (Options.offAffixTop o) = true ->
  checkAffixTop o (sample_geometry p smp) = true -> d_isAffixTopCalled d <> AOffAffixTop ->
  Handler.checkViewPoint p o el smp d = (Ok tt, d') ->
  d_isAffixTopCalled d' = AOffAffixTop /\ head (map c_slot (new_calls d d')) = Some SOffAffixTop.
Proof.
  intros Hc Ha Hoa Haff Hne H. rewrite checkViewPoint_spec in H by done. injection H as <-.
  rewrite new_calls_spec. cbn [d_isAffixTopCalled spec_step].
  unfold affix_next, affix_fire, affix_target. rewrite Ha, Hoa. simpl.
  case_decide; done.
Qed.

(** C18: [reset] with [isCalled: false] makes the next evaluation on
    unchanged geometry fire the single applicable position callback
    again, exactly once. *)
Theorem reset_refires (p : bool) (o : options) (el : elem) (smp : sample) (c : pos_cat)
    (d d1 d2 : dstate) :
  callable o = true -> applicable_at p o smp = [c] ->
  Handler.checkViewPoint p o el smp d = (Ok tt, d1) ->
  Handler.checkViewPoint p o el smp (reset (Some (JBool false, JUndefined)) d1) = (Ok tt, d2) ->
  map c_slot (new_calls d1 d2) = [pos_slot c].
Proof.
  intros Hc HL H1 H2. rewrite checkViewPoint_spec in H1, H2 by done.
  injection H1 as <-. injection H2 as <-.
  change (new_calls (spec_step p o el smp d)) with (new_calls (reset (Some (JBool false, JUndefined)) (spec_step p o el smp d))).
  rewrite new_calls_spec. cbn [reset is_false_val d_isAffixTopCalled d_isCalled spec_step].
  rewrite affix_fire_next, HL. simpl.
  assert (c <> PNone) by (intros ->; pose proof (applicable_NoDup o); unfold applicable_at in HL;
    simpl in HL; unfold applicable in HL; repeat case_match; simplify_eq).
  rewrite decide_False by done. done.
Qed.

(** ** Witnesses on concrete evaluations *)

Definition opts_affix : options :=
  with_callbacks JUndefined JUndefined JUndefined JUndefined JUndefined JUndefined
                 (JFun 4) JUndefined.

Definition opts_off_affix_only : options :=
  with_callbacks JUndefined JUndefined JUndefined JUndefined JUndefined JUndefined
                 JUndefined (JFun 5).

(** [inView: "yes"] next to a real [offView] callback. *)
Definition opts_bad_in_view : options :=
  with_callbacks (JStr "yes") (JFun 2) JUndefined JUndefined JUndefined JUndefined
                 JUndefined JUndefined.

Lemma checkViewPoint_refines_witness :
  callable opts_in_view = true /\
  Handler.checkViewPoint false opts_in_view 7 sample_in_view initial_dstate =
  (Ok tt, spec_step false opts_in_view 7 sample_in_view initial_dstate).
Proof.
  split; [vm_compute; reflexivity|].
  apply checkViewPoint_refines. vm_compute. reflexivity.
Defined.

(** Three evaluations of an affixed element: [affixTop] is called once. *)
Lemma affix_at_most_once_witness :
  let r := eval_seq false opts_affix 7 [sample_off_top; sample_off_top; sample_off_top] initial_dstate in
  r.1 = Ok tt /\
  length (List.filter (fun c => is_affix_slot (c_slot c)) (new_calls initial_dstate r.2)) <= 1 /\
  map c_slot (new_calls initial_dstate r.2) = [SAffixTop].
Proof.
  cbv zeta. split; [vm_compute; reflexivity|]. split; [|vm_compute; reflexivity].
  apply (affix_at_most_once false opts_affix 7 [sample_off_top; sample_off_top; sample_off_top] true);
    [vm_compute; reflexivity | repeat constructor | vm_compute; reflexivity].
Defined.

(** The element was in view (flags [false]) and is now above the
    viewport and affixed: the [affixTop] callback is handed
    [isOffTop = false] with a geometry that is off-top. *)
Lemma affix_callbacks_see_previous_flags_witness :
  let d := eval_once opts_affix sample_in_view initial_dstate in
  let d' := eval_once opts_affix sample_off_top d in
  callable opts_affix = true /\
  Handler.checkViewPoint false opts_affix 7 sample_off_top d = (Ok tt, d') /\
  map (fun c => (c_slot c, cs_isOffTop (c_state c))) (new_calls d d') = [(SAffixTop, Some false)] /\
  checkOffTop opts_affix (sample_geometry false sample_off_top) = true /\
  Forall (fun c => is_affix_slot (c_slot c) = true ->
            cs_geo (c_state c) = Some (sample_geometry false sample_off_top) /\
            cs_isOffTop (c_state c) = cs_isOffTop (d_cs d) /\
            cs_isOffRight (c_state c) = cs_isOffRight (d_cs d) /\
            cs_isOffBottom (c_state c) = cs_isOffBottom (d_cs d) /\
            cs_isOffLeft (c_state c) = cs_isOffLeft (d_cs d) /\
            cs_isInViewPoint (c_state c) = cs_isInViewPoint (d_cs d))
         (new_calls d d').
Proof.
  cbv zeta. split; [vm_compute; reflexivity|]. split; [vm_compute; reflexivity|].
  split; [vm_compute; reflexivity|]. split; [vm_compute; reflexivity|].
  apply (affix_callbacks_see_previous_flags false opts_affix 7 sample_off_top); vm_compute; reflexivity.
Defined.

Lemma inView_not_function_throws_witness :
  has_callback opts_bad_in_view = true /\
  exists d', Handler.checkViewPoint false opts_bad_in_view 7 sample_in_view initial_dstate =
             (Exc (TypeError "callback is not a function"), d') /\ d_isCalled d' = PNone /\
    d_cs d' = (isInViewPoint opts_bad_in_view
                 (updateCurrentState false opts_bad_in_view sample_in_view (d_cs initial_dstate))).1 /\
    d_isAffixTopCalled d' = affix_next opts_bad_in_view
        (checkAffixTop opts_bad_in_view (sample_geometry false sample_in_view)) ANone /\
    new_calls initial_dstate d' = [].
Proof.
  split; [vm_compute; reflexivity|].
  apply (inView_not_function_throws false opts_bad_in_view 7 sample_in_view initial_dstate);
    try (vm_compute; reflexivity); try (vm_compute; discriminate); discriminate.
Defined.

Lemma offAffixTop_fires_while_affixed_witness :
  let d' := eval_once opts_off_affix_only sample_off_top initial_dstate in
  checkAffixTop opts_off_affix_only (sample_geometry false sample_off_top) = true /\
  d_isAffixTopCalled d' = AOffAffixTop /\ head (map c_slot (new_calls initial_dstate d')) = Some SOffAffixTop.
Proof.
  cbv zeta. split; [vm_compute; reflexivity|].
  apply (offAffixTop_fires_while_affixed false opts_off_affix_only 7 sample_off_top initial_dstate);
    try (vm_compute; reflexivity); discriminate.
Defined.

Lemma reset_refires_witness :
  let d1 := eval_once opts_in_view sample_in_view initial_dstate in
  let d2 := eval_once opts_in_view sample_in_view (reset (Some (JBool false, JUndefined)) d1) in
  applicable_at false opts_in_view sample_in_view = [PInView] /\
  map c_slot (new_calls d1 d2) = [SInView].
Proof.
  cbv zeta. split; [vm_compute; reflexivity|].
  apply (reset_refires false opts_in_view 7 sample_in_view PInView initial_dstate);
    vm_compute; reflexivity.
Defined.

(** ** How many callbacks one evaluation calls *)

Lemma fire_seq_length m L : length (fire_seq m L) <= length L.
Proof.
  revert m. induction L as [|c L IH]; intros m; cbn [fire_seq length]; [lia|].
  rewrite length_app. specialize (IH c). case_decide; cbn [length]; lia.
Qed.

(** C25: with every callback slot callable, one evaluation calls at most
    two callbacks when the element is in view (an affix callback and
    [inView]) and at most six otherwise (an affix callback, [offView]
    and one per edge). *)
Theorem evaluation_calls_bounded (p : bool) (o : options) (el : elem) (smp : sample)
    (d d' : dstate) (r : outcome unit) :
  callable o = true -> Handler.checkViewPoint p o el smp d = (r, d') ->
  length (new_calls d d') <= if in_view_of o (sample_geometry p smp) then 2 else 6.
Proof.
  intros Hc H. rewrite checkViewPoint_spec in H by done. injection H as _ <-.
  rewrite new_calls_spec, length_app, length_map. unfold pos_calls. rewrite length_map.
  pose proof (affix_fire_length o (checkAffixTop o (sample_geometry p smp)) (d_isAffixTopCalled d)).
  pose proof (fire_seq_length (d_isCalled d) (applicable_at p o smp)).
  unfold applicable_at, applicable in *. cbn [edge_flags] in *.
  destruct (in_view_of o _); repeat case_match; cbn [length app] in *; lia.
Qed.

Lemma evaluation_calls_bounded_witness :
  let d1 := eval_once opts_off_view_top sample_off_top initial_dstate in
  length (new_calls initial_dstate d1) = 2 /\
  length (new_calls initial_dstate d1) <=
    if in_view_of opts_off_view_top (sample_geometry false sample_off_top) then 2 else 6.
Proof.
  cbv zeta. split; [vm_compute; reflexivity|].
  apply (evaluation_calls_bounded false opts_off_view_top 7 sample_off_top initial_dstate _ (Ok tt));
    vm_compute; reflexivity.
Defined.

(** ** The handlers leave the snapshot alone, except where they store it *)

(** A computation that never changes [currentState]. *)
Definition cs_frame {A} (m : M dstate A) : Prop := forall d, d_cs (snd (m d)) = d_cs d.

Lemma cs_frame_bind {A B} (m : M dstate A) (k : A -> M dstate B) :
  cs_frame m -> (forall a, cs_frame (k a)) -> cs_frame (m ≫= k).
Proof.
  intros Hm Hk d. rewrite bind_unfold. specialize (Hm d).
  destruct (m d) as [[a|x] d'] eqn:E; simpl in *; [rewrite Hk|]; done.
Qed.

Lemma cs_frame_ret {A} (a : A) : cs_frame (mret a).
Proof. intros d. done. Qed.

Lemma cs_frame_get : cs_frame mget.
Proof. intros d. done. Qed.

Lemma cs_frame_when b m : cs_frame m -> cs_frame (mwhen b m).
Proof. intros H. destruct b; [exact H|apply cs_frame_ret]. Qed.

Lemma cs_frame_invoke o s el : cs_frame (invoke o s el).
Proof. intros d. unfold invoke. destruct (slot_val o s); done. Qed.

Lemma cs_frame_isCalled c : cs_frame (mmodify (set_isCalled c)).
Proof. intros d. done. Qed.

Lemma cs_frame_isAffixTopCalled c : cs_frame (mmodify (set_isAffixTopCalled c)).
Proof. intros d. done. Qed.

Create HintDb cs_frame discriminated.
#[export] Hint Resolve cs_frame_bind cs_frame_ret cs_frame_get cs_frame_when cs_frame_invoke
  cs_frame_isCalled cs_frame_isAffixTopCalled : cs_frame.

Ltac cs_frame_tac := repeat (intros; apply cs_frame_bind || apply cs_frame_when); eauto with cs_frame.

Lemma cs_frame_affix_branch o el (b1 b2 : bool) :
  cs_frame (if b1 then Handler.onAffixTop o el else if b2 then Handler.offAffixTop o el else mret tt).
Proof.
  destruct b1; [|destruct b2]; unfold Handler.onAffixTop, Handler.offAffixTop; cs_frame_tac.
Qed.

Lemma cs_frame_position o el (b : bool) : cs_frame (if b then Handler.onInView o el else Handler.offView o el).
Proof.
  destruct b; unfold Handler.onInView, Handler.offView, Handler.offView_block; cs_frame_tac.
Qed.

(** Whatever its outcome, an evaluation leaves [currentState] as
    [updateCurrentState] or [isInViewPoint] wrote it, so a well-formed
    snapshot stays well formed. *)
Lemma checkViewPoint_snapshot_wf p o el smp d :
  snapshot_wf (d_cs d) -> snapshot_wf (d_cs (snd (Handler.checkViewPoint p o el smp d))).
Proof.
  intros Hwf. unfold Handler.checkViewPoint.
  rewrite bind_unfold. cbn [mmodify]. rewrite bind_unfold. cbn [mget]. rewrite bind_unfold.
  set (d1 := set_cs (updateCurrentState p o smp (d_cs d)) d).
  assert (Hd1 : snapshot_wf (d_cs d1)) by (apply updateCurrentState_wf; done).
  pose proof (cs_frame_affix_branch o el
    (truthy (affixTop o) && Handler.flag_of (cs_isAffixTop (d_cs d1)))
    (truthy (Options.offAffixTop o)) d1) as Hf.
  destruct ((if truthy (affixTop o) && Handler.flag_of (cs_isAffixTop (d_cs d1))
             then Handler.onAffixTop o el
             else if truthy (Options.offAffixTop o) then Handler.offAffixTop o el else mret tt) d1)
    as [[[]|x] d2] eqn:E; simpl in Hf |- *; [|rewrite Hf; exact Hd1].
  rewrite bind_unfold. cbn [mget].
  destruct (isInViewPoint o (d_cs d2)) as [cs' iv] eqn:Eiv.
  rewrite bind_unfold. cbn [mput]. rewrite (cs_frame_position o el iv). simpl.
  pose proof (isInViewPoint_wf o (d_cs d2)) as Hw. rewrite Eiv in Hw. apply Hw.
  rewrite Hf. exact Hd1.
Qed.
