(* ===== verification/Tracker.v ===== *)
(** * The schedule trigger: [setupEvents], timers and the page's events

    [src/js/viewpoint.js] lines 100-220 and 306-320.  [setupEvents] binds
    four handlers: the [checkViewPoint] handler on the element (modelled
    in [Dispatch]), a [document.ready] handler that triggers it at once,
    and [scroll] and [resize] handlers on the scroll element that arm a
    [setTimeout] of [options.delay] milliseconds, clearing the previous
    one first.  [disable] and [enable] set [isDisable], which the three
    notification handlers test; the timer callbacks do not.

    Each [setupEvents] call is a [binding]: the element whose instance
    it bound handlers for and the two debounce variables its closures
    share.  A second call on the same instance (through the bridge)
    binds a second set of handlers with variables of their own, and the
    element then carries two [checkViewPoint] handlers.

    The page is a [world]: the clock, the tracker instances by element
    ([$.data(el, "viewpoint")]), the bindings in the order they were made,
    the single [currentState] object all instances share (it lives on
    [Viewpoint.prototype]), the pending timers in the order they were
    armed, the callback calls, the log of evaluations and the exceptions
    the host reported.  The host supplies the geometry of each element
    ([w_layout]) and the path an event bubbles along ([w_path]: the
    element and its ancestors); [trigger] runs, innermost first, the
    [checkViewPoint] handlers (one per binding) of every tracked element
    on that path that bound them under the triggered name, as jQuery's
    [.trigger] does.

    Timers are fired by [EvAdvance]: the timers that fall due fire in
    the order of their due time, those due at the same time in the order
    they were armed (HTML's timer ordering).  The delay is the option's
    [ToNumber], truncated, with [NaN], infinities and negative values
    read as [0] (WebIDL [long] and HTML [setTimeout]); the reduction
    modulo 2^32 of huge delays is not modelled. *)

From S2P Require Import Prelude JsNumber JsValue Options Offsets Edges Sampler Dispatch.
From stdpp Require Import base list strings gmap sets.
From Stdlib Require Import QArith Lqa Sorted.
Local Close Scope Q_scope.

Inductive timer_kind := KScroll | KResize.

#[export] Instance timer_kind_eq_dec : EqDecision timer_kind.
Proof. solve_decision. Defined.

Record timer := mkTimer {
  tm_id : nat;
  tm_due : Z;
  tm_owner : elem;
  tm_kind : timer_kind
}.

(** One [Viewpoint] instance: its options, whether [init] resolved a
    content pane, the elements [sWindow] resolved to, its two memories
    and [isDisable]. *)
Record inst := mkInst {
  i_opts : options;
  i_pane : bool;
  i_sWindow : list elem;
  i_isCalled : pos_cat;
  i_isAffixTopCalled : affix_cat;
  i_isDisable : bool
}.

(** One call of [setupEvents] (lines 100-220): the element whose
    instance it bound handlers for, and the two variables
    [debounceScrollTimer] and [debounceResizeTimer] its handlers close
    over.  Every call has its own pair. *)
Record binding := mkBinding {
  b_el : elem;
  b_scrollTimer : option nat;
  b_resizeTimer : option nat
}.

(** [w_order] lists the bindings in the order [setupEvents] ran: the
    window handlers of a binding run in that order, and an element
    carries one [checkViewPoint] handler per binding of its instance. *)
Record world := mkWorld {
  w_now : Z;
  w_insts : gmap elem inst;
  w_order : list binding;
  w_cs : snapshot;
  w_timers : list timer;
  w_next : nat;
  w_calls : list call;
  w_evals : list elem;
  w_errors : list exn;
  w_layout : elem -> sample;
  w_path : elem -> list elem
}.

(** ** Record updates *)

Definition set_inst (e : elem) (i : inst) (w : world) : world :=
  mkWorld (w_now w) (<[e := i]> (w_insts w)) (w_order w) (w_cs w) (w_timers w) (w_next w)
          (w_calls w) (w_evals w) (w_errors w) (w_layout w) (w_path w).

Definition set_binding (k : nat) (b : binding) (w : world) : world :=
  mkWorld (w_now w) (w_insts w) (<[k := b]> (w_order w)) (w_cs w) (w_timers w) (w_next w)
          (w_calls w) (w_evals w) (w_errors w) (w_layout w) (w_path w).

Definition set_timers (ts : list timer) (w : world) : world :=
  mkWorld (w_now w) (w_insts w) (w_order w) (w_cs w) ts (w_next w)
          (w_calls w) (w_evals w) (w_errors w) (w_layout w) (w_path w).

Definition set_now (t : Z) (w : world) : world :=
  mkWorld t (w_insts w) (w_order w) (w_cs w) (w_timers w) (w_next w)
          (w_calls w) (w_evals w) (w_errors w) (w_layout w) (w_path w).

Definition add_error (x : exn) (w : world) : world :=
  mkWorld (w_now w) (w_insts w) (w_order w) (w_cs w) (w_timers w) (w_next w)
          (w_calls w) (w_evals w) (w_errors w ++ [x]) (w_layout w) (w_path w).

Definition set_layout (L : elem -> sample) (w : world) : world :=
  mkWorld (w_now w) (w_insts w) (w_order w) (w_cs w) (w_timers w) (w_next w)
          (w_calls w) (w_evals w) (w_errors w) L (w_path w).

Definition inst_with_memory (i : inst) (c : pos_cat) (a : affix_cat) : inst :=
  mkInst (i_opts i) (i_pane i) (i_sWindow i) c a (i_isDisable i).

Definition inst_with_disable (i : inst) (b : bool) : inst :=
  mkInst (i_opts i) (i_pane i) (i_sWindow i) (i_isCalled i) (i_isAffixTopCalled i) b.

(** The elements of the bindings, in binding order, and the number of
    [setupEvents] calls an element's instance has had. *)
Definition bound_els (w : world) : list elem := b_el <$> w_order w.

Definition bind_count (w : world) (e : elem) : nat :=
  length (List.filter (fun x => x =? e) (bound_els w)).

(** ** Timers (HTML [setTimeout] and [clearTimeout]) *)

Definition timeout_ms (v : jsval) : Z :=
  match ToNumber v with
  | Fin q => Z.max 0 (Z.quot (Qnum q) (Zpos (Qden q)))
  | _ => 0
  end.

(** [clearTimeout(id)]: [clearTimeout(null)] and the id of a timer that
    already fired do nothing. *)
Definition clearTimeout (id : option nat) (w : world) : world :=
  match id with
  | Some n => set_timers (List.filter (fun t => negb (tm_id t =? n)) (w_timers w)) w
  | None => w
  end.

Definition setTimeout (owner : elem) (k : timer_kind) (ms : Z) (w : world) : nat * world :=
  (w_next w,
   mkWorld (w_now w) (w_insts w) (w_order w) (w_cs w)
           (w_timers w ++ [mkTimer (w_next w) (w_now w + ms) owner k]) (S (w_next w))
           (w_calls w) (w_evals w) (w_errors w) (w_layout w) (w_path w)).

(** ** Running the [checkViewPoint] handler of one instance *)

Definition run_handler (e : elem) (i : inst) (w : world) : outcome unit * world :=
  let d := mkDState (i_isCalled i) (i_isAffixTopCalled i) (w_cs w) (w_calls w) in
  let '(r, d') := Handler.checkViewPoint (i_pane i) (i_opts i) e (w_layout w e) d in
  (r, mkWorld (w_now w)
              (<[e := inst_with_memory i (d_isCalled d') (d_isAffixTopCalled d')]> (w_insts w))
              (w_order w) (d_cs d') (w_timers w) (w_next w) (d_calls d')
              (w_evals w ++ [e]) (w_errors w) (w_layout w) (w_path w)).

(** The [checkViewPoint] handlers of [e], one per binding, in the order
    they were bound; each reads the instance as the previous one left
    it, and an exception stops the dispatch. *)
Fixpoint run_handlers (n : nat) (e : elem) (w : world) : outcome unit * world :=
  match n with
  | 0 => (Ok tt, w)
  | S n' =>
      match w_insts w !! e with
      | Some i =>
          match run_handler e i w with
          | (Ok _, w') => run_handlers n' e w'
          | (Exc x, w') => (Exc x, w')
          end
      | None => (Ok tt, w)
      end
  end.

(** [$(el).trigger(name)]: the [checkViewPoint] handlers bound under
    [name] by the tracked elements along the bubbling path, innermost
    first; an exception stops the propagation and leaves [trigger]. *)
Fixpoint trigger_path (name : jsval) (path : list elem) (w : world) : outcome unit * world :=
  match path with
  | [] => (Ok tt, w)
  | e :: rest =>
      match w_insts w !! e with
      | Some i =>
          if decide (eventCheckViewPoint (i_opts i) = name) then
            match run_handlers (bind_count w e) e w with
            | (Ok _, w') => trigger_path name rest w'
            | (Exc x, w') => (Exc x, w')
            end
          else trigger_path name rest w
      | None => trigger_path name rest w
      end
  end.

(** [triggerCheckViewpoint] (lines 183-188) of the instance of [el]:
    the event named by its [eventCheckViewPoint] option, on [el]. *)
Definition triggerCheckViewpoint (el : elem) (w : world) : outcome unit * world :=
  match w_insts w !! el with
  | Some i => trigger_path (eventCheckViewPoint (i_opts i)) (w_path w el) w
  | None => (Ok tt, w)
  end.

(** A task's uncaught exception is reported by the host; the task ends. *)
Definition report (r : outcome unit * world) : world :=
  match r with
  | (Ok _, w) => w
  | (Exc x, w) => add_error x w
  end.

(** ** The notification handlers of a binding *)

(** A handler of the [k]-th binding reads [self], the instance of the
    binding's element. *)
Definition with_binding (k : nat) (h : binding -> inst -> world) (w : world) : world :=
  match w_order w !! k with
  | Some b =>
      match w_insts w !! b_el b with
      | Some i => h b i
      | None => w
      end
  | None => w
  end.

(** The [document.ready] handler (lines 191-196). *)
Definition ready_handler (k : nat) (w : world) : world :=
  with_binding k (fun b i =>
    if i_isDisable i then w else report (triggerCheckViewpoint (b_el b) w)) w.

(** The [scroll] handler (lines 199-207). *)
Definition scroll_handler (k : nat) (w : world) : world :=
  with_binding k (fun b i =>
    if i_isDisable i then w
    else
      let w1 := clearTimeout (b_scrollTimer b) w in
      let '(id, w2) := setTimeout (b_el b) KScroll (timeout_ms (delay (i_opts i))) w1 in
      set_binding k (mkBinding (b_el b) (Some id) (b_resizeTimer b)) w2) w.

(** The [resize] handler (lines 210-218): it clears the {e scroll}
    timer and overwrites [debounceResizeTimer] without clearing it. *)
Definition resize_handler (k : nat) (w : world) : world :=
  with_binding k (fun b i =>
    if i_isDisable i then w
    else
      let w1 := clearTimeout (b_scrollTimer b) w in
      let '(id, w2) := setTimeout (b_el b) KResize (timeout_ms (delay (i_opts i))) w1 in
      set_binding k (mkBinding (b_el b) (b_scrollTimer b) (Some id)) w2) w.

(** [setupEvents] (lines 100-110, 219-220) on the instance of [el]: the
    four handlers above are bound once more, closing over a fresh pair
    of debounce variables, both [null]; the [checkViewPoint] handler on
    the element and the window handlers join the binding order. *)
Definition setupEvents (el : elem) (w : world) : world :=
  mkWorld (w_now w) (w_insts w) (w_order w ++ [mkBinding el None None]) (w_cs w) (w_timers w)
          (w_next w) (w_calls w) (w_evals w) (w_errors w) (w_layout w) (w_path w).

(** [reset], [disable] and [enable] (lines 306-320) on the instance of
    an element. *)
Definition reset_inst (e : elem) (opt : option (jsval * jsval)) (w : world) : world :=
  match w_insts w !! e with
  | Some i =>
      let d := reset opt (mkDState (i_isCalled i) (i_isAffixTopCalled i) (w_cs w) (w_calls w)) in
      set_inst e (inst_with_memory i (d_isCalled d) (d_isAffixTopCalled d)) w
  | None => w
  end.

Definition disable (e : elem) (w : world) : world :=
  match w_insts w !! e with
  | Some i => set_inst e (inst_with_disable i true) w
  | None => w
  end.

Definition enable (e : elem) (w : world) : world :=
  match w_insts w !! e with
  | Some i => set_inst e (inst_with_disable i false) w
  | None => w
  end.

(** ** Firing the timers that fall due *)

Fixpoint insert_due (t : timer) (ts : list timer) : list timer :=
  match ts with
  | [] => [t]
  | t' :: ts' => if (tm_due t' <? tm_due t)%Z then t' :: insert_due t ts' else t :: ts
  end.

(** Stable sort by due time: timers due together keep the order they
    were armed in. *)
Fixpoint sort_due (ts : list timer) : list timer :=
  match ts with
  | [] => []
  | t :: ts' => insert_due t (sort_due ts')
  end.

Definition fire_timer (t : timer) (w : world) : world :=
  report (triggerCheckViewpoint (tm_owner t) (set_now (tm_due t) w)).

Fixpoint fire_all (ts : list timer) (w : world) : world :=
  match ts with
  | [] => w
  | t :: ts' => fire_all ts' (fire_timer t w)
  end.

Definition is_due (now : Z) (t : timer) : bool := (tm_due t <=? now)%Z.

(** Time passes by [dt] milliseconds. *)
Definition advance (dt : Z) (w : world) : world :=
  let now := (w_now w + Z.max 0 dt)%Z in
  let due := List.filter (is_due now) (w_timers w) in
  let w1 := set_timers (List.filter (fun t => negb (is_due now t)) (w_timers w)) w in
  set_now now (fire_all (sort_due due) w1).

(** ** Events and runs *)

Inductive event :=
  | EvReady
  | EvScroll (target : elem)
  | EvResize (target : elem)
  | EvAdvance (dt : Z)
  | EvLayout (L : elem -> sample)
  | EvTrigger (el : elem) (name : jsval)
  | EvReset (el : elem) (opt : option (jsval * jsval))
  | EvDisable (el : elem)
  | EvEnable (el : elem).

(** The handlers of a window event run in the order they were bound. *)
Definition for_bound (f : nat -> world -> world) (w : world) : world :=
  fold_left (fun w k => f k w) (seq 0 (length (w_order w))) w.

(** A [scroll] or [resize] handler is bound on the binding's [sWindow]. *)
Definition on_target (tg : elem) (h : nat -> world -> world) (k : nat) (w : world) : world :=
  with_binding k (fun _ i => if decide (tg ∈ i_sWindow i) then h k w else w) w.

Definition step (w : world) (ev : event) : world :=
  match ev with
  | EvReady => for_bound ready_handler w
  | EvScroll tg => for_bound (on_target tg scroll_handler) w
  | EvResize tg => for_bound (on_target tg resize_handler) w
  | EvAdvance dt => advance dt w
  | EvLayout L => set_layout L w
  | EvTrigger el name => report (trigger_path name (w_path w el) w)
  | EvReset el opt => reset_inst el opt w
  | EvDisable el => disable el w
  | EvEnable el => enable el w
  end.

Definition run (evs : list event) (w : world) : world := fold_left step evs w.

(** ** The world invariant *)

(** A pending scroll timer is the one a binding of its element names in
    [debounceScrollTimer]. *)
Definition names_scroll (w : world) (t : timer) : Prop :=
  exists k b, w_order w !! k = Some b /\ b_el b = tm_owner t /\ b_scrollTimer b = Some (tm_id t).

(** Timer ids are fresh and distinct; every pending scroll timer is
    named by a binding of its element, so a binding has at most one; the
    shared snapshot is well formed. *)
Definition world_inv (w : world) : Prop :=
  Forall (fun t => tm_id t < w_next w) (w_timers w) /\
  NoDup (map tm_id (w_timers w)) /\
  Forall (fun t => tm_kind t = KScroll -> names_scroll w t) (w_timers w) /\
  snapshot_wf (w_cs w).

(** A step that touches neither the timers nor the bindings. *)
Definition tframe (w w' : world) : Prop :=
  w_timers w' = w_timers w /\ w_next w' = w_next w /\ w_order w' = w_order w /\
  (snapshot_wf (w_cs w) -> snapshot_wf (w_cs w')).

Ltac tframe_split := refine (conj _ (conj _ (conj _ _))).

Lemma tframe_refl w : tframe w w.
Proof. tframe_split; auto. Qed.

Lemma tframe_trans w1 w2 w3 : tframe w1 w2 -> tframe w2 w3 -> tframe w1 w3.
Proof.
  intros (T1 & N1 & S1 & C1) (T2 & N2 & S2 & C2). tframe_split; try congruence; auto.
Qed.

Lemma inv_tframe w w' : world_inv w -> tframe w w' -> world_inv w'.
Proof.
  intros (Hid & Hnd & Hsc & Hcs) (T & N & O & C). unfold world_inv, names_scroll. rewrite T, N, O.
  exact (conj Hid (conj Hnd (conj Hsc (C Hcs)))).
Qed.

Lemma tframe_set_inst e i w : tframe w (set_inst e i w).
Proof. tframe_split; auto. Qed.

Lemma run_handler_tframe e i w : tframe w (snd (run_handler e i w)).
Proof.
  unfold run_handler. destruct (Handler.checkViewPoint _ _ _ _ _) as [r d'] eqn:E. simpl.
  tframe_split; auto. intros Hwf.
  pose proof (checkViewPoint_snapshot_wf (i_pane i) (i_opts i) e (w_layout w e)
    (mkDState (i_isCalled i) (i_isAffixTopCalled i) (w_cs w) (w_calls w)) Hwf) as H.
  rewrite E in H. exact H.
Qed.

Lemma run_handlers_tframe n e w : tframe w (snd (run_handlers n e w)).
Proof.
  revert w. induction n as [|n IH]; intros w; cbn [run_handlers]; [apply tframe_refl|].
  destruct (w_insts w !! e) as [i|]; [|apply tframe_refl].
  pose proof (run_handler_tframe e i w) as H1.
  destruct (run_handler e i w) as [[]w']; cbn [snd] in *; [|exact H1].
  eapply tframe_trans; [exact H1|apply IH].
Qed.

Lemma trigger_path_tframe nm p w : tframe w (snd (trigger_path nm p w)).
Proof.
  revert w. induction p as [|e p IH]; intros w; cbn [trigger_path]; [apply tframe_refl|].
  destruct (w_insts w !! e) as [i|]; [|apply IH]. case_decide; [|apply IH].
  pose proof (run_handlers_tframe (bind_count w e) e w) as H1.
  destruct (run_handlers _ e w) as [[]w']; cbn [snd] in *; [|exact H1].
  eapply tframe_trans; [exact H1|apply IH].
Qed.

Lemma report_tframe r : tframe (snd r) (report r).
Proof. destruct r as [[]w]; simpl; [apply tframe_refl|]. tframe_split; auto. Qed.

Lemma report_trigger_path_tframe nm p w : tframe w (report (trigger_path nm p w)).
Proof. eapply tframe_trans; [apply trigger_path_tframe|apply report_tframe]. Qed.

Lemma report_trigger_tframe el w : tframe w (report (triggerCheckViewpoint el w)).
Proof.
  unfold triggerCheckViewpoint. case_match; [apply report_trigger_path_tframe|apply tframe_refl].
Qed.

Lemma set_now_tframe t w : tframe w (set_now t w).
Proof. tframe_split; auto. Qed.

Lemma fire_all_tframe ts w : tframe w (fire_all ts w).
Proof.
  revert w. induction ts as [|t ts IH]; intros w; simpl; [apply tframe_refl|].
  eapply tframe_trans; [|apply IH]. unfold fire_timer.
  eapply tframe_trans; [apply set_now_tframe|apply report_trigger_tframe].
Qed.

Lemma fold_tframe {A} (f : A -> world -> world) l w :
  (forall x w, tframe w (f x w)) -> tframe w (fold_left (fun w x => f x w) l w).
Proof.
  intros Hf. revert w. induction l as [|x l IH]; intros w; simpl; [apply tframe_refl|].
  eapply tframe_trans; [apply Hf|apply IH].
Qed.

Lemma fold_inv {A} (f : A -> world -> world) l w :
  (forall x w, world_inv w -> world_inv (f x w)) -> world_inv w ->
  world_inv (fold_left (fun w x => f x w) l w).
Proof.
  intros Hf. revert w. induction l as [|x l IH]; intros w Hw; simpl; [done|]. apply IH, Hf, Hw.
Qed.

Lemma ready_handler_tframe k w : tframe w (ready_handler k w).
Proof.
  unfold ready_handler, with_binding. repeat case_match; try apply tframe_refl.
  apply report_trigger_tframe.
Qed.

Lemma memory_ops_tframe ev w :
  match ev with EvLayout _ | EvTrigger _ _ | EvReset _ _ | EvDisable _ | EvEnable _ | EvReady => True
              | _ => False end ->
  tframe w (step w ev).
Proof.
  destruct ev; simpl; try tauto; intros _.
  - apply fold_tframe, ready_handler_tframe.
  - tframe_split; auto.
  - apply report_trigger_path_tframe.
  - unfold reset_inst. case_match; [apply tframe_set_inst|apply tframe_refl].
  - unfold disable. case_match; [apply tframe_set_inst|apply tframe_refl].
  - unfold enable. case_match; [apply tframe_set_inst|apply tframe_refl].
Qed.

Lemma NoDup_map_filter {A B} (g : A -> B) (f : A -> bool) (l : list A) :
  NoDup (map g l) -> NoDup (map g (List.filter f l)).
Proof.
  induction l as [|x l IH]; simpl; [done|]. intros Hnd. apply NoDup_cons in Hnd as [Hx Hnd].
  destruct (f x); simpl; [|auto]. constructor; [|auto].
  intros Hin. apply Hx. apply list_elem_of_In in Hin. apply list_elem_of_In.
  apply in_map_iff in Hin as (y & <- & Hy). apply in_map_iff. exists y. split; [done|].
  apply filter_In in Hy as [Hy _]. exact Hy.
Qed.

Lemma Forall_filter_bool {A} (P : A -> Prop) (f : A -> bool) (l : list A) :
  Forall P l -> Forall P (List.filter f l).
Proof.
  rewrite !Forall_forall. intros H x Hx. apply list_elem_of_In, filter_In in Hx as [Hx _].
  apply H, list_elem_of_In, Hx.
Qed.

Lemma inv_filter f w : world_inv w -> world_inv (set_timers (List.filter f (w_timers w)) w).
Proof.
  intros (Hid & Hnd & Hsc & Hcs).
  refine (conj _ (conj _ (conj _ Hcs))); simpl.
  - by apply Forall_filter_bool.
  - by apply NoDup_map_filter.
  - by apply Forall_filter_bool.
Qed.

Lemma clearTimeout_inv id w : world_inv w -> world_inv (clearTimeout id w).
Proof. destruct id; simpl; [apply inv_filter|done]. Qed.

Lemma clearTimeout_order id w : w_order (clearTimeout id w) = w_order w.
Proof. by destruct id. Qed.

(** After [clearTimeout(id)] no pending timer has the id [id]. *)
Lemma clearTimeout_cleared id w :
  Forall (fun t => id <> Some (tm_id t)) (w_timers (clearTimeout id w)).
Proof.
  destruct id as [n|]; [|apply Forall_forall; done]. apply Forall_forall. intros t Ht [= ->].
  cbn [clearTimeout set_timers w_timers] in Ht.
  apply list_elem_of_In, filter_In in Ht as [_ Ht]. rewrite Nat.eqb_refl in Ht. discriminate.
Qed.

(** Arming a timer from the [k]-th binding and storing its id in the
    binding: the scroll timers the binding named before must be gone,
    unless it keeps naming them. *)
Lemma arm_inv w k b b' kind ms :
  world_inv w -> w_order w !! k = Some b -> b_el b' = b_el b ->
  Forall (fun t => tm_kind t = KScroll -> b_scrollTimer b = Some (tm_id t) ->
                   b_scrollTimer b' = Some (tm_id t)) (w_timers w) ->
  (kind = KScroll -> b_scrollTimer b' = Some (w_next w)) ->
  world_inv (set_binding k b' (setTimeout (b_el b) kind ms w).2).
Proof.
  intros (Hid & Hnd & Hsc & Hcs) Hk Hel Hown Hks.
  assert (Hlt : k < length (w_order w)) by (eapply lookup_lt_Some; exact Hk).
  refine (conj _ (conj _ (conj _ Hcs))); simpl.
  - apply Forall_app. split; [|repeat constructor; lia].
    eapply Forall_impl; [exact Hid|]. intros t Ht. simpl in Ht. lia.
  - rewrite map_app. apply NoDup_app. split; [done|]. split; [|apply NoDup_singleton].
    intros x Hx Hy. apply list_elem_of_singleton in Hy as ->.
    apply list_elem_of_In, in_map_iff in Hx as (t & Ht & Hmem). rewrite Forall_forall in Hid.
    apply list_elem_of_In in Hmem. specialize (Hid t Hmem). simpl in Hid, Ht. lia.
  - apply Forall_app. split.
    + apply Forall_forall. intros t Hmem Hkd. rewrite Forall_forall in Hsc, Hown.
      destruct (Hsc t Hmem Hkd) as (k0 & b0 & L0 & E0 & S0).
      unfold names_scroll. cbn [set_binding w_order setTimeout snd].
      destruct (decide (k0 = k)) as [->|Hne].
      * rewrite Hk in L0. injection L0 as <-. exists k, b'.
        rewrite list_lookup_insert_eq by done. split; [done|]. split; [congruence|].
        exact (Hown t Hmem Hkd S0).
      * exists k0, b0. rewrite list_lookup_insert_ne by congruence. auto.
    + repeat constructor. simpl. intros Hkd. unfold names_scroll. exists k, b'.
      cbn [set_binding w_order]. rewrite list_lookup_insert_eq by done. auto.
Qed.

Lemma scroll_handler_inv k w : world_inv w -> world_inv (scroll_handler k w).
Proof.
  intros Hw. unfold scroll_handler, with_binding.
  destruct (w_order w !! k) as [b|] eqn:Hk; [|done]. destruct (w_insts w !! b_el b) as [i|]; [|done].
  destruct (i_isDisable i); [done|].
  apply arm_inv; [apply clearTimeout_inv, Hw|rewrite clearTimeout_order; exact Hk|done| |done].
  eapply Forall_impl; [apply clearTimeout_cleared|]. intros t Ht _ Hs. congruence.
Qed.

Lemma resize_handler_inv k w : world_inv w -> world_inv (resize_handler k w).
Proof.
  intros Hw. unfold resize_handler, with_binding.
  destruct (w_order w !! k) as [b|] eqn:Hk; [|done]. destruct (w_insts w !! b_el b) as [i|]; [|done].
  destruct (i_isDisable i); [done|].
  apply arm_inv; [apply clearTimeout_inv, Hw|rewrite clearTimeout_order; exact Hk|done| |discriminate].
  apply Forall_forall. intros t _ _ Hs. exact Hs.
Qed.

Lemma on_target_inv tg h k w :
  (forall k w, world_inv w -> world_inv (h k w)) -> world_inv w -> world_inv (on_target tg h k w).
Proof. intros Hh Hw. unfold on_target, with_binding. repeat case_match; auto. Qed.

Lemma advance_inv dt w : world_inv w -> world_inv (advance dt w).
Proof.
  intros Hw. unfold advance. eapply inv_tframe; [apply inv_filter, Hw|].
  eapply tframe_trans; [apply fire_all_tframe|apply set_now_tframe].
Qed.

Lemma step_inv w ev : world_inv w -> world_inv (step w ev).
Proof.
  intros Hw. destruct ev as [| tg | tg | dt | L | el nm | el opt | el | el] eqn:Eev.
  - eapply inv_tframe; [exact Hw|apply (memory_ops_tframe EvReady); done].
  - apply fold_inv; [|done]. intros k w'. apply on_target_inv, scroll_handler_inv.
  - apply fold_inv; [|done]. intros k w'. apply on_target_inv, resize_handler_inv.
  - apply advance_inv, Hw.
  - eapply inv_tframe; [exact Hw|apply (memory_ops_tframe (EvLayout L)); done].
  - eapply inv_tframe; [exact Hw|apply (memory_ops_tframe (EvTrigger el nm)); done].
  - eapply inv_tframe; [exact Hw|apply (memory_ops_tframe (EvReset el opt)); done].
  - eapply inv_tframe; [exact Hw|apply (memory_ops_tframe (EvDisable el)); done].
  - eapply inv_tframe; [exact Hw|apply (memory_ops_tframe (EvEnable el)); done].
Qed.

Lemma run_inv evs w : world_inv w -> world_inv (run evs w).
Proof.
  revert w. induction evs as [|ev evs IH]; intros w Hw; simpl; [done|]. apply IH, step_inv, Hw.
Qed.

(** A new binding names no timer. *)
Lemma setupEvents_inv el w : world_inv w -> world_inv (setupEvents el w).
Proof.
  intros (Hid & Hnd & Hsc & Hcs). refine (conj Hid (conj Hnd (conj _ Hcs))).
  eapply Forall_impl; [exact Hsc|]. intros t H Hk. destruct (H Hk) as (k & b & L & E & S).
  exists k, b. cbn [setupEvents w_order]. rewrite lookup_app_l by (eapply lookup_lt_Some; exact L).
  auto.
Qed.

(** ** The bindings *)

(** No event of the page adds or removes a binding or changes the
    element of one. *)
Lemma tframe_bound_els w w' : tframe w w' -> bound_els w' = bound_els w.
Proof. intros (_ & _ & O & _). unfold bound_els. by rewrite O. Qed.

Lemma set_binding_bound_els w k b b' :
  w_order w !! k = Some b -> b_el b' = b_el b -> bound_els (set_binding k b' w) = bound_els w.
Proof.
  intros Hk He. unfold bound_els. cbn [set_binding w_order]. rewrite list_fmap_insert, He.
  apply list_insert_id. rewrite list_lookup_fmap, Hk. done.
Qed.

Lemma arm_bound_els w k b b' kind ms :
  w_order w !! k = Some b -> b_el b' = b_el b ->
  bound_els (set_binding k b' (setTimeout (b_el b) kind ms (clearTimeout (b_scrollTimer b) w)).2) =
  bound_els w.
Proof.
  intros Hk He. rewrite (set_binding_bound_els _ k b); [|rewrite <- Hk|done].
  - unfold bound_els. cbn [setTimeout snd w_order]. rewrite clearTimeout_order. done.
  - cbn [setTimeout snd w_order]. rewrite clearTimeout_order. done.
Qed.

Lemma fold_bound_els {A} (f : A -> world -> world) l w :
  (forall x w, bound_els (f x w) = bound_els w) ->
  bound_els (fold_left (fun w x => f x w) l w) = bound_els w.
Proof.
  intros Hf. revert w. induction l as [|x l IH]; intros w; simpl; [done|]. rewrite IH. apply Hf.
Qed.

Lemma on_target_bound_els tg h k w :
  (forall k w, bound_els (h k w) = bound_els w) -> bound_els (on_target tg h k w) = bound_els w.
Proof. intros Hh. unfold on_target, with_binding. repeat case_match; auto. Qed.

Lemma handlers_bound_els k w :
  bound_els (scroll_handler k w) = bound_els w /\ bound_els (resize_handler k w) = bound_els w.
Proof.
  unfold scroll_handler, resize_handler, with_binding.
  destruct (w_order w !! k) as [b|] eqn:Hk; [|done]. destruct (w_insts w !! b_el b) as [i|]; [|done].
  destruct (i_isDisable i); [done|]. split; apply (arm_bound_els _ _ b); done.
Qed.

Lemma step_bound_els w ev : bound_els (step w ev) = bound_els w.
Proof.
  destruct ev as [| tg | tg | dt | L | el nm | el opt | el | el] eqn:Eev;
    try (apply tframe_bound_els, memory_ops_tframe; done).
  - apply fold_bound_els. intros k w'. apply on_target_bound_els. apply handlers_bound_els.
  - apply fold_bound_els. intros k w'. apply on_target_bound_els. apply handlers_bound_els.
  - unfold step, advance. apply (tframe_bound_els (set_timers (List.filter (fun t => negb (is_due (w_now w + Z.max 0 dt) t)) (w_timers w)) w)).
    eapply tframe_trans; [apply fire_all_tframe|apply set_now_tframe].
Qed.

Lemma run_bound_els evs w : bound_els (run evs w) = bound_els w.
Proof.
  revert w. induction evs as [|ev evs IH]; intros w; simpl; [done|]. rewrite IH. apply step_bound_els.
Qed.

Lemma bind_count_setupEvents el w e :
  bind_count (setupEvents el w) e = (if el =? e then 1 else 0) + bind_count w e.
Proof.
  unfold bind_count, bound_els. cbn [setupEvents w_order].
  rewrite fmap_app, List.filter_app, length_app. cbn. destruct (el =? e); apply Nat.add_comm.
Qed.

Lemma run_bind_count evs w e : bind_count (run evs w) e = bind_count w e.
Proof. unfold bind_count. rewrite run_bound_els. done. Qed.

(** ** At most one pending scroll timer per binding *)

Lemma NoDup_map_inj_in {A B} (f : A -> B) (l : list A) x y :
  NoDup (map f l) -> x ∈ l -> y ∈ l -> f x = f y -> x = y.
Proof.
  induction l as [|z l IH]; intros Hnd Hx Hy Hf; [by apply elem_of_nil in Hx|].
  simpl in Hnd. apply NoDup_cons in Hnd as [Hz Hnd].
  apply elem_of_cons in Hx as [->|Hx], Hy as [->|Hy]; auto.
  - exfalso. apply Hz. apply list_elem_of_In, in_map_iff. exists y.
    split; [done|]. by apply list_elem_of_In.
  - exfalso. apply Hz. apply list_elem_of_In, in_map_iff. exists x.
    split; [done|]. by apply list_elem_of_In.
Qed.

Lemma filter_eqb_nonempty (l : list nat) k e :
  l !! k = Some e -> length (List.filter (fun x => x =? e) l) <> 0.
Proof.
  intros Hk Hl. apply length_zero_iff_nil in Hl.
  assert (Hin : In e (List.filter (fun x => x =? e) l)).
  { apply filter_In. split; [apply list_elem_of_In; eapply list_elem_of_lookup_2; exact Hk|].
    apply Nat.eqb_refl. }
  rewrite Hl in Hin. exact Hin.
Qed.

(** An element listed at most once is listed at one index. *)
Lemma count_le1_index (l : list nat) e k1 k2 :
  length (List.filter (fun x => x =? e) l) <= 1 -> l !! k1 = Some e -> l !! k2 = Some e -> k1 = k2.
Proof.
  revert k1 k2. induction l as [|x l IH]; intros k1 k2 Hc H1 H2; [done|].
  cbn [List.filter] in Hc.
  destruct k1 as [|k1], k2 as [|k2]; cbn [lookup list_lookup] in H1, H2; [done| | |].
  - injection H1 as ->. rewrite Nat.eqb_refl in Hc. cbn [length] in Hc.
    pose proof (filter_eqb_nonempty l k2 e H2). lia.
  - injection H2 as ->. rewrite Nat.eqb_refl in Hc. cbn [length] in Hc.
    pose proof (filter_eqb_nonempty l k1 e H1). lia.
  - f_equal. apply IH; [|done|done]. destruct (x =? e); cbn [length] in Hc; lia.
Qed.

(** Two pending scroll timers of an element bound once are the same. *)
Lemma scroll_timer_once w t1 t2 :
  world_inv w -> t1 ∈ w_timers w -> t2 ∈ w_timers w ->
  tm_kind t1 = KScroll -> tm_kind t2 = KScroll -> tm_owner t1 = tm_owner t2 ->
  bind_count w (tm_owner t1) <= 1 -> t1 = t2.
Proof.
  intros (_ & Hnd & Hsc & _) H1 H2 K1 K2 Ho Hc. rewrite Forall_forall in Hsc.
  destruct (Hsc t1 H1 K1) as (k1 & b1 & L1 & E1 & S1), (Hsc t2 H2 K2) as (k2 & b2 & L2 & E2 & S2).
  assert (k1 = k2) as <-.
  { apply (count_le1_index (bound_els w) (tm_owner t1)); [exact Hc| |];
      unfold bound_els; rewrite list_lookup_fmap; [rewrite L1|rewrite L2]; cbn; congruence. }
  rewrite L1 in L2. injection L2 as <-.
  eapply NoDup_map_inj_in; [exact Hnd|exact H1|exact H2|]. congruence.
Qed.

(** ** At most one pending scroll timer per binding *)

(** The pending scroll timers of [e]. *)
Definition scroll_timers_of (w : world) (e : elem) : list timer :=
  List.filter (fun t => (tm_owner t =? e) && bool_decide (tm_kind t = KScroll)) (w_timers w).

(** The ids the bindings of [e] hold in [debounceScrollTimer]. *)
Definition named_ids (e : elem) (bs : list binding) : list nat :=
  omap (fun b => if b_el b =? e then b_scrollTimer b else None) bs.

Lemma named_ids_length e bs :
  length (named_ids e bs) <= length (List.filter (fun x => x =? e) (b_el <$> bs)).
Proof.
  induction bs as [|b bs IH]; [done|]. unfold named_ids in *. simpl.
  destruct (b_el b =? e); [destruct (b_scrollTimer b)|]; simpl;
    [apply le_n_S, IH | apply le_S, IH | exact IH].
Qed.

Lemma named_ids_spec e bs k b id :
  bs !! k = Some b -> b_el b = e -> b_scrollTimer b = Some id -> In id (named_ids e bs).
Proof.
  intros Hk He Hs. apply list_elem_of_In. unfold named_ids. apply list_elem_of_omap.
  exists b. split; [eapply list_elem_of_lookup_2; exact Hk|]. rewrite He, Nat.eqb_refl. exact Hs.
Qed.

Lemma scroll_timers_of_bound w e : world_inv w -> length (scroll_timers_of w e) <= bind_count w e.
Proof.
  intros (_ & Hnd & Hsc & _). rewrite <- length_map with (f := tm_id).
  etransitivity; [|apply named_ids_length].
  apply NoDup_incl_length; [unfold scroll_timers_of; apply NoDup_ListNoDup, NoDup_map_filter, Hnd|].
  intros id Hid. apply in_map_iff in Hid as (t & <- & Ht). apply filter_In in Ht as [Ht Hp].
  apply andb_prop in Hp as [Ho Hk]. apply Nat.eqb_eq in Ho. apply bool_decide_eq_true in Hk.
  rewrite Forall_forall in Hsc. apply list_elem_of_In in Ht.
  destruct (Hsc t Ht Hk) as (k & b & L & E & S). eapply named_ids_spec; [exact L|congruence|exact S].
Qed.

(** C28: from a world satisfying the invariant, whatever the host's
    events, an element has at most as many pending scroll timers as its
    instance has bindings: each binding's scroll handler keeps at most
    one. *)
Theorem scroll_timers_bounded (w : world) (evs : list event) (e : elem) :
  world_inv w -> length (scroll_timers_of (run evs w) e) <= bind_count w e.
Proof.
  intros Hw. rewrite <- (run_bind_count evs w e). apply scroll_timers_of_bound, run_inv, Hw.
Qed.

(** ** One tracker on the page *)

Lemma run_handler_evals e i w : w_evals (snd (run_handler e i w)) = w_evals w ++ [e].
Proof. unfold run_handler. destruct (Handler.checkViewPoint _ _ _ _ _). done. Qed.

Lemma run_handler_keeps e i w :
  let w' := snd (run_handler e i w) in
  w_now w' = w_now w /\ w_order w' = w_order w /\ w_timers w' = w_timers w /\
  w_next w' = w_next w /\ w_path w' = w_path w /\ w_layout w' = w_layout w /\
  w_insts w' !! e = Some (inst_with_memory i (i_isCalled (default i (w_insts w' !! e)))
                                           (i_isAffixTopCalled (default i (w_insts w' !! e)))).
Proof.
  unfold run_handler. destruct (Handler.checkViewPoint _ _ _ _ _). simpl.
  rewrite lookup_insert_eq. repeat split.
Qed.

Lemma run_handler_insts_ne e e' i w :
  e' <> e -> w_insts (snd (run_handler e i w)) !! e' = w_insts w !! e'.
Proof.
  intros Hne. unfold run_handler. destruct (Handler.checkViewPoint _ _ _ _ _).
  cbn [snd w_insts]. apply lookup_insert_ne. done.
Qed.

Lemma insert_due_perm t ts : insert_due t ts ≡ₚ t :: ts.
Proof.
  induction ts as [|t' ts IH]; simpl; [done|]. case_match; [|done].
  rewrite IH. apply Permutation_swap.
Qed.

Lemma sort_due_perm ts : sort_due ts ≡ₚ ts.
Proof. induction ts as [|t ts IH]; simpl; [done|]. rewrite insert_due_perm, IH. done. Qed.

Definition due_le (t t' : timer) : Prop := (tm_due t <= tm_due t')%Z.

Lemma insert_due_hd t t0 ts :
  HdRel due_le t0 ts -> due_le t0 t -> HdRel due_le t0 (insert_due t ts).
Proof.
  intros Hh Ht. destruct ts as [|t' ts]; cbn [insert_due]; [by constructor|].
  case_match; constructor; [by inversion Hh|exact Ht].
Qed.

Lemma insert_due_sorted t ts : Sorted due_le ts -> Sorted due_le (insert_due t ts).
Proof.
  induction ts as [|t' ts IH]; intros Hs; cbn [insert_due]; [by repeat constructor|].
  destruct (tm_due t' <? tm_due t)%Z eqn:E.
  - apply Sorted_inv in Hs as [Hs Hh]. constructor; [apply IH, Hs|].
    apply insert_due_hd; [exact Hh|]. unfold due_le. apply Z.ltb_lt in E. lia.
  - constructor; [exact Hs|]. constructor. unfold due_le. apply Z.ltb_ge in E. lia.
Qed.

(** Inserting [t] keeps, for each due time, the order of the timers due
    then, with [t] first. *)
Lemma insert_due_filter t ts d :
  List.filter (fun t => (tm_due t =? d)%Z) (insert_due t ts) =
  List.filter (fun t => (tm_due t =? d)%Z) (t :: ts).
Proof.
  induction ts as [|t' ts IH]; cbn [insert_due]; [done|].
  destruct (tm_due t' <? tm_due t)%Z eqn:E; [|done]. apply Z.ltb_lt in E.
  change (insert_due t ts) with (insert_due t ts). cbn [List.filter] in IH |- *. rewrite IH.
  destruct (tm_due t' =? d)%Z eqn:E1, (tm_due t =? d)%Z eqn:E2; try done.
  apply Z.eqb_eq in E1, E2. lia.
Qed.

(** The host's timer queue: [sort_due] is a stable sort by due time, so
    timers due together run in the order they were armed, as HTML
    orders [setTimeout] callbacks. *)
Lemma sort_due_stable (ts : list timer) :
  Sorted due_le (sort_due ts) /\
  forall d, List.filter (fun t => (tm_due t =? d)%Z) (sort_due ts) =
            List.filter (fun t => (tm_due t =? d)%Z) ts.
Proof.
  induction ts as [|t ts [IHs IHf]]; cbn [sort_due]; [split; [constructor|done]|].
  split; [apply insert_due_sorted, IHs|]. intros d.
  rewrite insert_due_filter. cbn [List.filter]. rewrite IHf. done.
Qed.

Lemma timeout_ms_nonneg v : (0 <= timeout_ms v)%Z.
Proof. unfold timeout_ms. case_match; lia. Qed.

Lemma run_app evs1 evs2 w : run (evs1 ++ evs2) w = run evs2 (run evs1 w).
Proof. apply fold_left_app. Qed.

(** A handler whose callback slots are all callable returns normally. *)
Lemma run_handler_ok e i w : callable (i_opts i) = true -> fst (run_handler e i w) = Ok tt.
Proof. intros Hc. unfold run_handler. rewrite checkViewPoint_spec by done. done. Qed.

(** [n] handlers of one element evaluate it [n] times, when they cannot
    throw or when there is at most one. *)
Lemma run_handlers_self n e i w :
  w_insts w !! e = Some i -> n <= 1 \/ callable (i_opts i) = true ->
  let w' := snd (run_handlers n e w) in
  w_evals w' = w_evals w ++ repeat e n /\ w_path w' = w_path w /\ w_order w' = w_order w /\
  w_now w' = w_now w /\ exists i', w_insts w' !! e = Some i' /\ i_opts i' = i_opts i.
Proof.
  revert w i. induction n as [|n IH]; intros w i Hi Hn; cbn [run_handlers snd].
  { rewrite app_nil_r. eauto 10. }
  rewrite Hi. pose proof (run_handler_evals e i w) as E.
  pose proof (run_handler_keeps e i w) as (N & O & _ & _ & P & _ & I).
  destruct (run_handler e i w) as [[u|x] w1] eqn:R; cbn [snd] in E, N, O, P, I |- *.
  - destruct (IH w1 _ I) as (E' & P' & O' & N' & i' & I' & Op); [destruct Hn as [Hn|Hn]; [left; lia|right; exact Hn]|].
    rewrite E', E, <- app_assoc. split; [done|]. split; [congruence|]. split; [congruence|].
    split; [congruence|]. exists i'. split; [done|]. rewrite Op. done.
  - destruct Hn as [Hn|Hc]; [|pose proof (run_handler_ok e i w Hc) as Ok; rewrite R in Ok; discriminate].
    assert (n = 0) as -> by lia. rewrite E. repeat split; try done. eexists; split; [exact I|done].
Qed.

Lemma bind_count_solo w b : w_order w = [b] -> bind_count w (b_el b) = 1.
Proof. intros Ho. unfold bind_count, bound_els. rewrite Ho. cbn. rewrite Nat.eqb_refl. done. Qed.

Lemma bind_count_bound_els w w' e : bound_els w' = bound_els w -> bind_count w' e = bind_count w e.
Proof. unfold bind_count. intros ->. done. Qed.

(** Triggering an element whose bubbling path holds no other element
    runs its handlers and nothing else. *)
Lemma trigger_self e i w :
  w_path w e = [e] -> w_insts w !! e = Some i ->
  bind_count w e <= 1 \/ callable (i_opts i) = true ->
  let w' := report (triggerCheckViewpoint e w) in
  w_evals w' = w_evals w ++ repeat e (bind_count w e) /\ w_path w' = w_path w /\
  bound_els w' = bound_els w /\ exists i', w_insts w' !! e = Some i' /\ i_opts i' = i_opts i.
Proof.
  intros Hp Hi Hn. unfold triggerCheckViewpoint. rewrite Hi, Hp. cbn [trigger_path].
  rewrite Hi, decide_True by done.
  destruct (run_handlers_self (bind_count w e) e i w Hi Hn) as (E & P & O & _ & I).
  unfold bound_els. rewrite <- O.
  destruct (run_handlers _ e w) as [[]w']; cbn [snd trigger_path report add_error] in *; auto.
Qed.

Lemma fire_timer_self t w e i :
  tm_owner t = e -> w_path w e = [e] -> w_insts w !! e = Some i ->
  bind_count w e <= 1 \/ callable (i_opts i) = true ->
  let w' := fire_timer t w in
  w_evals w' = w_evals w ++ repeat e (bind_count w e) /\ w_path w' = w_path w /\
  bound_els w' = bound_els w /\ exists i', w_insts w' !! e = Some i' /\ i_opts i' = i_opts i.
Proof. intros <- Hp Hi Hn. apply (trigger_self (tm_owner t) i (set_now (tm_due t) w)); done. Qed.

Lemma fire_all_self ts w e i :
  Forall (fun t => tm_owner t = e) ts -> w_path w e = [e] -> w_insts w !! e = Some i ->
  bind_count w e <= 1 \/ callable (i_opts i) = true ->
  w_evals (fire_all ts w) = w_evals w ++ repeat e (length ts * bind_count w e).
Proof.
  revert w i. induction ts as [|t ts IH]; intros w i Hall Hp Hi Hn; cbn [fire_all length];
    [by rewrite app_nil_r|].
  apply Forall_cons in Hall as [Ht Hall].
  destruct (fire_timer_self t w e i Ht Hp Hi Hn) as (E & P & B & i' & I & Op).
  rewrite (IH _ i' Hall); [|rewrite P; done|done|rewrite (bind_count_bound_els _ _ e B), Op; done].
  rewrite (bind_count_bound_els _ _ e B), E, <- app_assoc, <- repeat_app. do 2 f_equal; lia.
Qed.

(** Time passes over a page whose pending timers all belong to the
    tracked element [e] and all fall due: each one evaluates [e] once
    per binding of its instance. *)
Lemma advance_self dt w e i :
  w_path w e = [e] -> w_insts w !! e = Some i ->
  bind_count w e <= 1 \/ callable (i_opts i) = true ->
  Forall (fun t => tm_owner t = e /\ is_due (w_now w + Z.max 0 dt) t = true) (w_timers w) ->
  w_evals (advance dt w) = w_evals w ++ repeat e (length (w_timers w) * bind_count w e).
Proof.
  intros Hp Hi Hn Hall. unfold advance.
  rewrite (filter_all_true _ _ (Forall_impl _ _ _ Hall (fun t H => proj2 H))).
  change (w_evals (set_now ?a ?b)) with (w_evals b).
  rewrite (fire_all_self _ _ e i); [|apply Forall_forall; intros t Ht; rewrite sort_due_perm in Ht;
                                   rewrite Forall_forall in Hall; apply Hall, Ht|done|done|done].
  rewrite sort_due_perm. done.
Qed.


Lemma step_scroll_solo w b i tg :
  w_order w = [b] -> w_insts w !! b_el b = Some i -> i_isDisable i = false -> tg ∈ i_sWindow i ->
  step w (EvScroll tg) =
  set_binding 0 (mkBinding (b_el b) (Some (w_next w)) (b_resizeTimer b))
    (setTimeout (b_el b) KScroll (timeout_ms (delay (i_opts i))) (clearTimeout (b_scrollTimer b) w)).2.
Proof.
  intros Ho Hi Hd Ht. unfold step, for_bound. rewrite Ho. cbn [length seq fold_left].
  unfold on_target, scroll_handler, with_binding. rewrite Ho. cbn [lookup list_lookup].
  rewrite Hi. cbv beta iota. rewrite decide_True, Hd by done. destruct (b_scrollTimer b); done.
Qed.

Lemma step_resize_solo w b i tg :
  w_order w = [b] -> w_insts w !! b_el b = Some i -> i_isDisable i = false -> tg ∈ i_sWindow i ->
  step w (EvResize tg) =
  set_binding 0 (mkBinding (b_el b) (b_scrollTimer b) (Some (w_next w)))
    (setTimeout (b_el b) KResize (timeout_ms (delay (i_opts i))) (clearTimeout (b_scrollTimer b) w)).2.
Proof.
  intros Ho Hi Hd Ht. unfold step, for_bound. rewrite Ho. cbn [length seq fold_left].
  unfold on_target, resize_handler, with_binding. rewrite Ho. cbn [lookup list_lookup].
  rewrite Hi. cbv beta iota. rewrite decide_True, Hd by done. destruct (b_scrollTimer b); done.
Qed.

(** A scroll notification on a page with one binding, nothing pending or
    only the binding's own scroll timer pending. *)
Lemma scroll_solo_once w b i tg :
  w_order w = [b] -> w_insts w !! b_el b = Some i -> i_isDisable i = false -> tg ∈ i_sWindow i ->
  w_timers w = [] \/
  (b_scrollTimer b = Some (w_next w - 1) /\
   w_timers w = [mkTimer (w_next w - 1) (w_now w + timeout_ms (delay (i_opts i))) (b_el b) KScroll]) ->
  let w1 := step w (EvScroll tg) in
  w_order w1 = [mkBinding (b_el b) (Some (w_next w)) (b_resizeTimer b)] /\
  w_timers w1 = [mkTimer (w_next w) (w_now w + timeout_ms (delay (i_opts i))) (b_el b) KScroll] /\
  w_next w1 = S (w_next w) /\ w_insts w1 = w_insts w /\ w_now w1 = w_now w /\
  w_path w1 = w_path w /\ w_evals w1 = w_evals w.
Proof.
  intros Ho Hi Hd Ht Hts. cbv zeta. rewrite (step_scroll_solo w b i tg Ho Hi Hd Ht).
  destruct Hts as [Hts | [Hs Hts]].
  - destruct (b_scrollTimer b); simpl; rewrite ?Hts, Ho; simpl; repeat split.
  - rewrite Hs. simpl. rewrite Hts, Ho. simpl. rewrite Nat.eqb_refl. simpl. repeat split.
Qed.

Lemma scrolls_leave_one n w b i tg :
  w_order w = [b] -> w_insts w !! b_el b = Some i -> i_isDisable i = false -> tg ∈ i_sWindow i ->
  w_timers w = [] \/
  (b_scrollTimer b = Some (w_next w - 1) /\
   w_timers w = [mkTimer (w_next w - 1) (w_now w + timeout_ms (delay (i_opts i))) (b_el b) KScroll]) ->
  exists b', let w' := run (repeat (EvScroll tg) (S n)) w in
    w_order w' = [b'] /\ b_el b' = b_el b /\
    w_timers w' = [mkTimer (w_next w' - 1) (w_now w + timeout_ms (delay (i_opts i))) (b_el b) KScroll] /\
    w_insts w' = w_insts w /\ w_now w' = w_now w /\ w_path w' = w_path w /\ w_evals w' = w_evals w.
Proof.
  revert w b. induction n as [|n IH]; intros w b Ho Hi Hd Ht Hts;
    destruct (scroll_solo_once w b i tg Ho Hi Hd Ht Hts) as (O & T & N & I & Nw & P & E).
  - exists (mkBinding (b_el b) (Some (w_next w)) (b_resizeTimer b)). cbv zeta.
    change (run (repeat (EvScroll tg) 1) w) with (step w (EvScroll tg)).
    rewrite O, T, N, I, Nw, P, E. cbn [Nat.sub]. rewrite Nat.sub_0_r. repeat split.
  - change (run (repeat (EvScroll tg) (S (S n))) w)
      with (run (repeat (EvScroll tg) (S n)) (step w (EvScroll tg))).
    destruct (IH (step w (EvScroll tg)) _ O) as (b' & H); [rewrite I; exact Hi|exact Hd|exact Ht| |].
    { right. rewrite N, Nw. cbn [Nat.sub]. rewrite Nat.sub_0_r. split; [done|exact T]. }
    exists b'. cbv zeta in H |- *. rewrite Nw, I, P, E in H. exact H.
Qed.

(** While the binding names no scroll timer, each resize notification
    arms one more resize timer and cancels none. *)
Lemma resizes_accumulate n w b i tg :
  w_order w = [b] -> w_insts w !! b_el b = Some i -> i_isDisable i = false -> tg ∈ i_sWindow i ->
  b_scrollTimer b = None ->
  exists b' L, let w' := run (repeat (EvResize tg) n) w in
    w_order w' = [b'] /\ b_el b' = b_el b /\ b_scrollTimer b' = None /\
    w_timers w' = w_timers w ++ L /\ length L = n /\
    Forall (fun t => tm_owner t = b_el b /\ tm_due t = (w_now w + timeout_ms (delay (i_opts i)))%Z) L /\
    w_insts w' = w_insts w /\ w_now w' = w_now w /\ w_path w' = w_path w /\ w_evals w' = w_evals w.
Proof.
  revert w b. induction n as [|n IH]; intros w b Ho Hi Hd Ht Hs.
  - exists b, []. cbv zeta. cbn [run repeat fold_left]. rewrite app_nil_r. repeat split; auto.
  - change (run (repeat (EvResize tg) (S n)) w)
      with (run (repeat (EvResize tg) n) (step w (EvResize tg))).
    rewrite (step_resize_solo w b i tg Ho Hi Hd Ht), Hs.
    match goal with |- context [run _ ?x] => set (w1 := x) end.
    destruct (IH w1 (mkBinding (b_el b) None (Some (w_next w)))) as (b' & L & H);
      [subst w1; cbn [set_binding w_order setTimeout snd clearTimeout]; rewrite Ho; done
      |exact Hi|exact Hd|exact Ht|done|].
    cbv zeta in H |- *. destruct H as (O & El & S & T & Len & F & H).
    exists b', (mkTimer (w_next w) (w_now w + timeout_ms (delay (i_opts i))) (b_el b) KResize :: L).
    rewrite T. subst w1. cbn [set_binding setTimeout snd clearTimeout w_timers length].
    rewrite Len, <- app_assoc. split; [done|]. split; [exact El|]. split; [done|].
    split; [done|]. split; [done|]. split; [constructor; [done|exact F]|exact H].
Qed.

(** C6: on a page with one tracker, bound once, enabled and with nothing
    pending, any number of scroll notifications that arrive before the
    delay runs out lead to exactly one evaluation once the delay has
    passed. *)
Theorem scroll_debounced (w : world) (b : binding) (e tg : elem) (i : inst) (n : nat) (dt : Z) :
  w_order w = [b] -> b_el b = e -> w_path w e = [e] -> w_insts w !! e = Some i ->
  i_isDisable i = false -> tg ∈ i_sWindow i -> w_timers w = [] ->
  (timeout_ms (delay (i_opts i)) <= dt)%Z ->
  w_evals (run (repeat (EvScroll tg) (S n) ++ [EvAdvance dt]) w) = w_evals w ++ [e].
Proof.
  intros Ho <- Hp Hi Hd Ht Hts Hdt. rewrite run_app.
  destruct (scrolls_leave_one n w b i tg Ho Hi Hd Ht (or_introl Hts)) as (b' & H). cbv zeta in H.
  set (w' := run (repeat (EvScroll tg) (S n)) w) in *.
  destruct H as (O & El & T & I & N & P & E).
  assert (Hc : bind_count w' (b_el b) = 1) by (rewrite <- El; apply bind_count_solo, O).
  change (run [EvAdvance dt] w') with (advance dt w').
  rewrite (advance_self dt w' (b_el b) i); [rewrite T, E, Hc; reflexivity|rewrite P; exact Hp
                                           |rewrite I; exact Hi|left; lia|].
  rewrite T. apply Forall_singleton. split; [done|]. unfold is_due. cbn [tm_due]. rewrite N.
  pose proof (timeout_ms_nonneg (delay (i_opts i))). lia.
Qed.

(** C7: the resize handler clears the scroll timer instead of its own,
    so resizes are not debounced: [n + 1] resize notifications before
    the delay runs out lead to [n + 1] evaluations once it has passed. *)
Theorem resize_not_debounced (w : world) (b : binding) (e tg : elem) (i : inst) (n : nat) (dt : Z) :
  w_order w = [b] -> b_el b = e -> w_path w e = [e] -> w_insts w !! e = Some i ->
  i_isDisable i = false -> tg ∈ i_sWindow i -> b_scrollTimer b = None -> w_timers w = [] ->
  (timeout_ms (delay (i_opts i)) <= dt)%Z ->
  w_evals (run (repeat (EvResize tg) (S n) ++ [EvAdvance dt]) w) = w_evals w ++ repeat e (S n).
Proof.
  intros Ho <- Hp Hi Hd Ht Hs Hts Hdt. rewrite run_app.
  destruct (resizes_accumulate (S n) w b i tg Ho Hi Hd Ht Hs) as (b' & L & H). cbv zeta in H.
  set (w' := run (repeat (EvResize tg) (S n)) w) in *.
  destruct H as (O & El & _ & T & Len & F & I & N & P & E).
  assert (Hc : bind_count w' (b_el b) = 1) by (rewrite <- El; apply bind_count_solo, O).
  change (run [EvAdvance dt] w') with (advance dt w').
  rewrite (advance_self dt w' (b_el b) i); [|rewrite P; exact Hp|rewrite I; exact Hi|left; lia|].
  - rewrite T, Hts, app_nil_l, E, Hc, Len, Nat.mul_1_r. done.
  - rewrite T, Hts, N. eapply Forall_impl; [exact F|]. intros t [Ho' Hdue]. split; [done|].
    unfold is_due. rewrite Hdue. pose proof (timeout_ms_nonneg (delay (i_opts i))). lia.
Qed.

(** ** Disabled trackers *)

(** The events a tracker receives from the page: [document.ready],
    [scroll] and [resize] of a scroll element. *)
Definition notification (ev : event) : bool :=
  match ev with EvReady | EvScroll _ | EvResize _ => true | _ => false end.

Lemma fold_fixed {A} (f : A -> world -> world) l w :
  (forall x, x ∈ l -> f x w = w) -> fold_left (fun w x => f x w) l w = w.
Proof.
  induction l as [|x l IH]; intros Hf; [done|]. cbn [fold_left].
  rewrite Hf by (apply elem_of_cons; auto). apply IH. intros x' Hx. apply Hf, elem_of_cons; auto.
Qed.

(** C11: while every bound tracker is disabled, the page's
    notifications change nothing: no timer is armed, no evaluation runs. *)
Theorem disabled_notifications_ignored (w : world) (ev : event) :
  (forall b i, b ∈ w_order w -> w_insts w !! b_el b = Some i -> i_isDisable i = true) ->
  notification ev = true -> step w ev = w.
Proof.
  intros Hd Hn. destruct ev; try discriminate; unfold step, for_bound; apply fold_fixed;
    intros k _; unfold on_target, ready_handler, scroll_handler, resize_handler, with_binding;
    destruct (w_order w !! k) as [b|] eqn:Hk; try done;
    destruct (w_insts w !! b_el b) as [i|] eqn:Hi; try done;
    rewrite (Hd b i) by (eauto using list_elem_of_lookup_2); repeat case_decide; done.
Qed.

(** C12: the timer callbacks do not test [isDisable]: an evaluation
    scheduled by a scroll notification still runs when the tracker is
    disabled before the delay runs out. *)
Theorem timer_fires_after_disable (w : world) (b : binding) (e tg : elem) (i : inst) (dt : Z) :
  w_order w = [b] -> b_el b = e -> w_path w e = [e] -> w_insts w !! e = Some i ->
  i_isDisable i = false -> tg ∈ i_sWindow i -> w_timers w = [] ->
  (timeout_ms (delay (i_opts i)) <= dt)%Z ->
  let w1 := run [EvScroll tg; EvDisable e] w in
  (exists i', w_insts w1 !! e = Some i' /\ i_isDisable i' = true) /\
  w_evals (run [EvAdvance dt] w1) = w_evals w ++ [e].
Proof.
  intros Ho <- Hp Hi Hd Ht Hts Hdt. cbv zeta.
  destruct (scrolls_leave_one 0 w b i tg Ho Hi Hd Ht (or_introl Hts)) as (b' & H). cbv zeta in H.
  change (run [EvScroll tg; EvDisable (b_el b)] w)
    with (disable (b_el b) (run (repeat (EvScroll tg) 1) w)).
  set (w' := run (repeat (EvScroll tg) 1) w) in *.
  destruct H as (O & El & T & I & N & P & E).
  assert (Hc : bind_count w' (b_el b) = 1) by (rewrite <- El; apply bind_count_solo, O).
  unfold disable. rewrite I, Hi. split.
  { eexists. split; [apply lookup_insert_eq|done]. }
  change (run [EvAdvance dt] ?x) with (advance dt x).
  change (bind_count w' (b_el b)) with (bind_count (set_inst (b_el b) (inst_with_disable i true) w') (b_el b)) in Hc.
  rewrite (advance_self _ _ (b_el b) (inst_with_disable i true)); cbn [set_inst w_evals w_timers w_path w_insts w_now];
    [rewrite T, E, Hc; reflexivity | rewrite P; done | apply lookup_insert_eq | left; lia |].
  rewrite T. apply Forall_singleton. split; [done|]. unfold is_due. cbn [tm_due]. rewrite N.
  pose proof (timeout_ms_nonneg (delay (i_opts i))). lia.
Qed.

(** ** Bubbling *)

(** C19: [trigger] bubbles: triggering the event [name] on a tracked
    element also evaluates its tracked parent, when the parent bound its
    handler under the same name, even if the parent is disabled, once the
    element's own handler has returned. *)
Theorem trigger_bubbles (w : world) (el a : elem) (i j : inst) (name : jsval) :
  w_path w el = [el; a] -> el <> a -> w_insts w !! el = Some i -> w_insts w !! a = Some j ->
  bind_count w el = 1 -> bind_count w a = 1 ->
  eventCheckViewPoint (i_opts i) = name -> eventCheckViewPoint (i_opts j) = name ->
  i_isDisable j = true -> fst (run_handler el i w) = Ok tt ->
  w_evals (step w (EvTrigger el name)) = w_evals w ++ [el; a].
Proof.
  intros Hp Hne Hi Hj Ce Ca Ni Nj _ Hok. unfold step. rewrite Hp. cbn [trigger_path].
  rewrite Hi, decide_True, Ce by done. cbn [run_handlers]. rewrite Hi.
  pose proof (run_handler_evals el i w) as E1.
  pose proof (run_handler_insts_ne el a i w (not_eq_sym Hne)) as J.
  pose proof (run_handler_keeps el i w) as (_ & O1 & _).
  destruct (run_handler el i w) as [r w1]. cbn [fst snd] in Hok, E1, J, O1 |- *. subst r.
  cbn [run_handlers trigger_path]. rewrite J, Hj, decide_True by done.
  rewrite (bind_count_bound_els w w1 a) by (unfold bound_els; rewrite O1; done). rewrite Ca.
  cbn [run_handlers]. rewrite J, Hj. pose proof (run_handler_evals a j w1) as E2.
  destruct (run_handler a j w1) as [[] w2]; cbn [snd] in E2 |- *;
    cbn [trigger_path run_handlers report add_error w_evals]; rewrite E2, E1, <- app_assoc; done.
Qed.

(** ** Several [setupEvents] calls on one instance *)

Lemma scroll_arm_one w k b i tg :
  w_order w !! k = Some b -> w_insts w !! b_el b = Some i -> i_isDisable i = false ->
  tg ∈ i_sWindow i -> b_scrollTimer b = None ->
  on_target tg scroll_handler k w =
  set_binding k (mkBinding (b_el b) (Some (w_next w)) (b_resizeTimer b))
    (setTimeout (b_el b) KScroll (timeout_ms (delay (i_opts i))) w).2.
Proof.
  intros Hk Hi Hd Ht Hs. unfold on_target, scroll_handler, with_binding.
  rewrite Hk, Hi. cbv beta iota. rewrite decide_True, Hd, Hs by done. reflexivity.
Qed.

(** The scroll handlers of the bindings [j .. j + m - 1] of one enabled
    instance, none of which names a scroll timer, arm one timer each. *)
Lemma scroll_arms_each m j w e i tg :
  (forall k, j <= k < j + m ->
     exists b, w_order w !! k = Some b /\ b_el b = e /\ b_scrollTimer b = None) ->
  w_insts w !! e = Some i -> i_isDisable i = false -> tg ∈ i_sWindow i ->
  let w' := fold_left (fun w k => on_target tg scroll_handler k w) (seq j m) w in
  exists L, w_timers w' = w_timers w ++ L /\ length L = m /\
    Forall (fun t => tm_owner t = e /\ tm_due t = (w_now w + timeout_ms (delay (i_opts i)))%Z) L /\
    w_insts w' = w_insts w /\ w_now w' = w_now w /\ w_path w' = w_path w /\
    w_evals w' = w_evals w /\ bound_els w' = bound_els w.
Proof.
  revert j w. induction m as [|m IH]; intros j w Hb Hi Hd Ht; cbn [seq fold_left].
  { exists []. rewrite app_nil_r. repeat split; done. }
  destruct (Hb j) as (b & Hk & He & Hs); [lia|]. subst e.
  rewrite (scroll_arm_one w j b i tg Hk Hi Hd Ht Hs).
  match goal with |- context [fold_left _ _ ?x] => set (w1 := x) end.
  destruct (IH (S j) w1) as (L & T & Len & F & I & N & P & E & B); [|exact Hi|exact Hd|exact Ht|].
  { intros k Hk'. destruct (Hb k) as (b' & Hb' & ?); [lia|]. exists b'.
    subst w1. cbn [set_binding w_order setTimeout snd]. rewrite list_lookup_insert_ne by lia. auto. }
  exists (mkTimer (w_next w) (w_now w + timeout_ms (delay (i_opts i))) (b_el b) KScroll :: L).
  cbv zeta. rewrite T, I, N, P, E, B. subst w1.
  rewrite (set_binding_bound_els _ j b) by done.
  cbn [set_binding setTimeout snd w_timers w_insts w_now w_path w_evals length].
  rewrite Len, <- app_assoc. repeat split; try done. constructor; [done|exact F].
Qed.

Lemma bind_count_all w e :
  Forall (fun b => b_el b = e) (w_order w) -> bind_count w e = length (w_order w).
Proof.
  intros H. unfold bind_count, bound_els. rewrite filter_all_true, length_fmap; [done|].
  apply Forall_fmap. eapply Forall_impl; [exact H|]. intros b Hb. apply Nat.eqb_eq, Hb.
Qed.

(** Each binding has its own scroll handler and each gives the element
    one more [checkViewPoint] handler.  On a page whose only bindings are
    [n] bindings of one element with no scroll timer, one scroll
    notification arms [n] timers, and each of them, once due, triggers
    the element's [n] handlers: [n * n] evaluations. *)
Lemma rebound_scroll_evals (w : world) (e tg : elem) (i : inst) (dt : Z) :
  Forall (fun b => b_el b = e /\ b_scrollTimer b = None) (w_order w) ->
  w_path w e = [e] -> w_insts w !! e = Some i -> callable (i_opts i) = true ->
  i_isDisable i = false -> tg ∈ i_sWindow i -> w_timers w = [] ->
  (timeout_ms (delay (i_opts i)) <= dt)%Z ->
  w_evals (run [EvScroll tg; EvAdvance dt] w) =
  w_evals w ++ repeat e (length (w_order w) * length (w_order w)).
Proof.
  intros Hb Hp Hi Hc Hd Ht Hts Hdt.
  change (run [EvScroll tg; EvAdvance dt] w)
    with (advance dt (fold_left (fun w k => on_target tg scroll_handler k w)
                                (seq 0 (length (w_order w))) w)).
  destruct (scroll_arms_each (length (w_order w)) 0 w e i tg) as (L & T & Len & F & I & N & P & E & B);
    [|exact Hi|exact Hd|exact Ht|].
  { intros k Hk. destruct (lookup_lt_is_Some_2 (w_order w) k) as [b Hk']; [lia|]. exists b.
    split; [done|]. rewrite Forall_forall in Hb. apply Hb. eapply list_elem_of_lookup_2; exact Hk'. }
  set (w' := fold_left _ _ w) in *.
  assert (Hcount : bind_count w' e = length (w_order w)).
  { rewrite (bind_count_bound_els _ _ e B). apply bind_count_all.
    eapply Forall_impl; [exact Hb|]. intros b [He _]. exact He. }
  rewrite (advance_self dt w' e i); [|rewrite P; exact Hp|rewrite I; exact Hi|right; exact Hc|].
  - rewrite T, Hts, app_nil_l, E, Hcount, Len. done.
  - rewrite T, Hts, N. eapply Forall_impl; [exact F|]. intros t [Ho' Hdue]. split; [done|].
    unfold is_due. rewrite Hdue. pose proof (timeout_ms_nonneg (delay (i_opts i))). lia.
Qed.

(** ** The shared snapshot *)

Lemma run_handler_spec e i w :
  callable (i_opts i) = true ->
  let d := mkDState (i_isCalled i) (i_isAffixTopCalled i) (w_cs w) (w_calls w) in
  w_cs (snd (run_handler e i w)) = d_cs (spec_step (i_pane i) (i_opts i) e (w_layout w e) d) /\
  w_calls (snd (run_handler e i w)) = d_calls (spec_step (i_pane i) (i_opts i) e (w_layout w e) d).
Proof. intros Hc. unfold run_handler. rewrite checkViewPoint_spec by done. done. Qed.

(** C10: [currentState] is shared by all instances: when the handler of
    a tracker [a] runs right after that of another tracker [b], the
    affix callbacks of [a] receive the edge flags and the in-view flag
    computed from [b]'s geometry and options. *)
Theorem affix_sees_other_tracker (w : world) (b a : elem) (jb ja : inst) :
  callable (i_opts jb) = true -> callable (i_opts ja) = true ->
  let w1 := snd (run_handler b jb w) in
  let g := sample_geometry (i_pane jb) (w_layout w b) in
  Forall (fun c => is_affix_slot (c_slot c) = true ->
            cs_isOffTop (c_state c) = Some (checkOffTop (i_opts jb) g) /\
            cs_isInViewPoint (c_state c) = Some (in_view_of (i_opts jb) g))
         (drop (length (w_calls w1)) (w_calls (snd (run_handler a ja w1)))).
Proof.
  intros Hb Ha. cbv zeta. set (w1 := snd (run_handler b jb w)).
  destruct (run_handler_spec b jb w Hb) as (C1 & _). fold w1 in C1.
  destruct (run_handler_spec a ja w1 Ha) as (_ & K2). cbv zeta in C1, K2. rewrite K2.
  set (d := mkDState (i_isCalled ja) (i_isAffixTopCalled ja) (w_cs w1) (w_calls w1)).
  change (length (w_calls w1)) with (length (d_calls d)).
  pose proof (affix_calls_state _ _ a (w_layout w1 a) d _ Ha
                (checkViewPoint_spec (i_pane ja) _ a (w_layout w1 a) d Ha)) as H.
  eapply Forall_impl; [exact H|]. intros c Hc Haff. destruct (Hc Haff) as (_ & T & _ & _ & _ & V).
  rewrite T, V. cbn [d d_cs]. rewrite C1. apply spec_step_flags.
Qed.

(** ** A page with one tracker

    The element [7] is tracked with only [inView] configured, its scroll
    element is [window] ([0]), nothing is pending, no ancestor of it is
    tracked and the viewport is at the top of the document. *)
Definition solo_inst : inst := mkInst opts_in_view false [0] PNone ANone false.

Definition fresh_binding (e : elem) : binding := mkBinding e None None.

Definition solo_world : world :=
  mkWorld 0 {[7 := solo_inst]} [fresh_binding 7] empty_snapshot [] 0 [] [] []
          (fun _ => sample_in_view) (fun e => [e]).

Lemma solo_world_inv : world_inv solo_world.
Proof. split; [constructor|]. split; [constructor|]. split; [constructor|]. apply empty_snapshot_wf. Qed.

Lemma scroll_debounced_witness :
  w_evals (run (repeat (EvScroll 0) 3 ++ [EvAdvance 70]) solo_world) = [7].
Proof.
  apply (scroll_debounced solo_world (fresh_binding 7) 7 0 solo_inst 2 70); try reflexivity; constructor.
Defined.

Lemma resize_not_debounced_witness :
  w_evals (run (repeat (EvResize 0) 3 ++ [EvAdvance 70]) solo_world) = [7; 7; 7].
Proof. apply (resize_not_debounced solo_world (fresh_binding 7) 7 0 solo_inst 2 70); try reflexivity; constructor. Defined.

Lemma timer_fires_after_disable_witness :
  let w1 := run [EvScroll 0; EvDisable 7] solo_world in
  ((exists i', w_insts w1 !! 7 = Some i' /\ i_isDisable i' = true) /\
   w_evals (run [EvAdvance 70] w1) = [7]).
Proof. apply (timer_fires_after_disable solo_world (fresh_binding 7) 7 0 solo_inst 70); try reflexivity; constructor. Defined.

(** The same page with the tracker disabled. *)
Definition disabled_world : world :=
  mkWorld 0 {[7 := inst_with_disable solo_inst true]} [fresh_binding 7] empty_snapshot [] 0 [] [] []
          (fun _ => sample_in_view) (fun e => [e]).

Lemma disabled_notifications_ignored_witness :
  step disabled_world (EvScroll 0) = disabled_world.
Proof.
  apply disabled_notifications_ignored; [|reflexivity].
  intros b i Hb Hi. apply list_elem_of_singleton in Hb. subst b.
  vm_compute in Hi. injection Hi as <-. reflexivity.
Defined.

(** The element [7] inside the element [8], both tracked, [8] disabled. *)
Definition nested_world : world :=
  mkWorld 0 {[7 := solo_inst; 8 := inst_with_disable solo_inst true]} [fresh_binding 7; fresh_binding 8]
          empty_snapshot
          [] 0 [] [] [] (fun _ => sample_in_view)
          (fun e => if decide (e = 7) then [7; 8] else [e]).

Lemma trigger_bubbles_witness :
  w_evals (step nested_world (EvTrigger 7 (JStr "checkViewPoint"))) = [7; 8].
Proof.
  apply (trigger_bubbles nested_world 7 8 solo_inst (inst_with_disable solo_inst true));
    try reflexivity; lia.
Defined.

(** Two trackers on [window]: [8] is bound first and lies above the
    viewport; [7] is in view, affixed, with only [affixTop] configured. *)
Definition sample_affixed : sample := mkSample 1000 800 0 0 100 400 (0, 0)%Q (0, 0)%Q.

Definition affix_inst : inst := mkInst opts_affix false [0] PNone ANone false.

Definition shared_world : world :=
  mkWorld 0 {[7 := affix_inst; 8 := solo_inst]} [fresh_binding 8; fresh_binding 7] empty_snapshot [] 0 [] [] []
          (fun e => if decide (e = 7) then sample_affixed else sample_off_top) (fun e => [e]).

Lemma affix_sees_other_tracker_witness :
  let w1 := snd (run_handler 8 solo_inst shared_world) in
  let g := sample_geometry false sample_off_top in
  Forall (fun c => is_affix_slot (c_slot c) = true ->
            cs_isOffTop (c_state c) = Some (checkOffTop opts_in_view g) /\
            cs_isInViewPoint (c_state c) = Some (in_view_of opts_in_view g))
         (drop (length (w_calls w1)) (w_calls (snd (run_handler 7 affix_inst w1)))).
Proof. apply (affix_sees_other_tracker shared_world 8 7 solo_inst affix_inst); reflexivity. Defined.

(** On that page, [document.ready] evaluates [8] then [7]; the one call,
    [7]'s [affixTop], is told that its element is off the top and not in
    view, which holds of [8] and not of [7]. *)
Example shared_snapshot_ready :
  map (fun c => (c_slot c, c_elem c, cs_isOffTop (c_state c), cs_isInViewPoint (c_state c)))
      (w_calls (step shared_world EvReady)) = [(SAffixTop, 7, Some true, Some false)] /\
  in_view_of opts_affix (sample_geometry false sample_affixed) = true.
Proof. split; vm_compute; reflexivity. Qed.

(** The element [7] bound twice: its instance had [setupEvents] called
    once more after construction. *)
Definition rebound_world : world :=
  mkWorld 0 {[7 := solo_inst]} [fresh_binding 7; fresh_binding 7] empty_snapshot [] 0 [] [] []
          (fun _ => sample_in_view) (fun e => [e]).

Example rebound_world_scroll :
  w_evals (run [EvScroll 0; EvAdvance 70] rebound_world) = [7; 7; 7; 7].
Proof.
  apply (rebound_scroll_evals rebound_world 7 0 solo_inst 70); try reflexivity;
    [repeat constructor | constructor].
Qed.

Lemma rebound_world_inv : world_inv rebound_world.
Proof. split; [constructor|]. split; [constructor|]. split; [constructor|]. apply empty_snapshot_wf. Qed.

Lemma scroll_timers_bounded_witness :
  length (scroll_timers_of (run [EvScroll 0; EvScroll 0] rebound_world) 7) = 2 /\
  length (scroll_timers_of (run [EvScroll 0; EvScroll 0] rebound_world) 7) <= bind_count rebound_world 7.
Proof.
  split; [vm_compute; reflexivity|]. apply scroll_timers_bounded, rebound_world_inv.
Defined.
