(* ===== verification/Timers.v ===== *)
(** * Liveness of the debounce timers

    The timers of [Tracker] ([setTimeout] in the scroll and resize
    handlers, lines 204 and 215 of [src/js/viewpoint.js]) fire when time
    passes ([Tracker.advance]).  A timer callback only triggers the
    [checkViewPoint] event: it never arms a timer, never removes a
    tracker or a binding and never changes the bubbling paths.  Hence, once time has
    passed every due time, no timer is pending and the element of every
    timer has been evaluated, whatever the handlers did (callbacks that
    throw included).

    [grows w w'] is what a timer callback may do to the world: keep the
    trackers, the bindings and the paths, and extend the log of
    evaluations. *)

From S2P Require Import Prelude JsNumber JsValue Options Offsets Edges Sampler Dispatch Tracker.
From stdpp Require Import base list strings gmap sets.
From Stdlib Require Import QArith.
Local Close Scope Q_scope.

Definition grows (w w' : world) : Prop :=
  (forall x, is_Some (w_insts w !! x) -> is_Some (w_insts w' !! x)) /\
  w_path w' = w_path w /\ w_order w' = w_order w /\
  exists l, w_evals w' = w_evals w ++ l.

(** The element of a timer is tracked, bound, and its bubbling path
    starts at it. *)
Definition tracked_head (w : world) (t : timer) : Prop :=
  is_Some (w_insts w !! tm_owner t) /\ head (w_path w (tm_owner t)) = Some (tm_owner t) /\
  bind_count w (tm_owner t) <> 0.

(** ** [grows] *)

Lemma grows_refl w : grows w w.
Proof. split; [auto|]. split; [done|]. split; [done|]. exists []. by rewrite app_nil_r. Qed.

Lemma grows_trans w1 w2 w3 : grows w1 w2 -> grows w2 w3 -> grows w1 w3.
Proof.
  intros (I1 & P1 & O1 & l1 & E1) (I2 & P2 & O2 & l2 & E2). split; [auto|].
  split; [congruence|]. split; [congruence|]. exists (l1 ++ l2). rewrite E2, E1, app_assoc. done.
Qed.

Lemma run_handler_grows e i w : grows w (snd (run_handler e i w)).
Proof.
  pose proof (run_handler_keeps e i w) as (_ & O & _ & _ & P & _ & He).
  split; [|split; [exact P|split; [exact O|]]].
  - intros x Hx. destruct (decide (x = e)) as [->|Hne]; [rewrite He; eauto|].
    rewrite run_handler_insts_ne by done. exact Hx.
  - eexists. apply run_handler_evals.
Qed.

Lemma run_handlers_grows n e w : grows w (snd (run_handlers n e w)).
Proof.
  revert w. induction n as [|n IH]; intros w; cbn [run_handlers]; [apply grows_refl|].
  destruct (w_insts w !! e) as [i|]; [|apply grows_refl].
  pose proof (run_handler_grows e i w) as G.
  destruct (run_handler e i w) as [[]w']; cbn [snd] in *; [|exact G].
  eapply grows_trans; [exact G|apply IH].
Qed.

Lemma trigger_path_grows nm p w : grows w (snd (trigger_path nm p w)).
Proof.
  revert w. induction p as [|e p IH]; intros w; cbn [trigger_path]; [apply grows_refl|].
  destruct (w_insts w !! e) as [i|]; [|apply IH]. case_decide; [|apply IH].
  pose proof (run_handlers_grows (bind_count w e) e w) as G.
  destruct (run_handlers _ e w) as [[]w']; cbn [snd] in *; [|exact G].
  eapply grows_trans; [exact G|apply IH].
Qed.

Lemma report_grows r : grows (snd r) (report r).
Proof.
  destruct r as [[]w]; [apply grows_refl|]. split; [auto|]. split; [done|]. split; [done|].
  exists []. by rewrite app_nil_r.
Qed.

Lemma set_now_grows d w : grows w (set_now d w).
Proof. split; [auto|]. split; [done|]. split; [done|]. exists []. by rewrite app_nil_r. Qed.

Lemma fire_timer_grows t w : grows w (fire_timer t w).
Proof.
  eapply grows_trans; [apply (set_now_grows (tm_due t))|]. unfold fire_timer, triggerCheckViewpoint.
  destruct (w_insts (set_now (tm_due t) w) !! tm_owner t); [|apply grows_refl].
  eapply grows_trans; [apply trigger_path_grows|apply report_grows].
Qed.

Lemma fire_all_grows ts w : grows w (fire_all ts w).
Proof.
  revert w. induction ts as [|t ts IH]; intros w; [apply grows_refl|].
  eapply grows_trans; [apply fire_timer_grows|apply IH].
Qed.

Lemma tracked_head_grows w w' t : grows w w' -> tracked_head w t -> tracked_head w' t.
Proof.
  intros (I & P & O & _) (Hi & Hh & Hc). split; [auto|]. rewrite P. split; [exact Hh|].
  unfold bind_count, bound_els. rewrite O. exact Hc.
Qed.

(** ** Firing evaluates the timer's element *)

Lemma fire_timer_evaluates t w :
  tracked_head w t -> exists l, w_evals (fire_timer t w) = w_evals w ++ tm_owner t :: l.
Proof.
  intros ([i Hi] & Hh & Hc). unfold fire_timer, triggerCheckViewpoint. cbn [set_now w_insts w_path].
  rewrite Hi. destruct (w_path w (tm_owner t)) as [|e rest] eqn:Hp; [discriminate|].
  injection Hh as He. subst e. cbn [trigger_path].
  change (w_insts (set_now (tm_due t) w)) with (w_insts w). rewrite Hi, decide_True by done.
  change (bind_count (set_now (tm_due t) w) (tm_owner t)) with (bind_count w (tm_owner t)).
  destruct (bind_count w (tm_owner t)) as [|n]; [done|]. cbn [run_handlers].
  change (w_insts (set_now (tm_due t) w)) with (w_insts w). rewrite Hi.
  pose proof (run_handler_evals (tm_owner t) i (set_now (tm_due t) w)) as E.
  destruct (run_handler _ _ _) as [[]w1]; cbn [snd w_evals set_now] in E |- *.
  - destruct (run_handlers_grows n (tm_owner t) w1) as (_ & _ & _ & l1 & E1).
    destruct (run_handlers n _ w1) as [[]w2]; cbn [snd] in E1 |- *.
    + destruct (trigger_path_grows (eventCheckViewPoint (i_opts i)) rest w2) as (_ & _ & _ & l & El).
      destruct (trigger_path _ rest w2) as [[]w3]; cbn [snd report add_error w_evals] in El |- *;
        exists (l1 ++ l); rewrite El, E1, E, <- !app_assoc; done.
    + cbn [report add_error w_evals]. exists l1. rewrite E1, E, <- app_assoc. done.
  - cbn [report add_error w_evals]. exists []. rewrite E. done.
Qed.

Lemma elem_of_drop_app {A} (x : A) l1 l2 : x ∈ l2 -> x ∈ drop (length l1) (l1 ++ l2).
Proof. rewrite drop_app_length. done. Qed.

Lemma drop_app_grows {A} (x : A) l1 l2 l3 :
  x ∈ drop (length (l1 ++ l2)) (l1 ++ l2 ++ l3) -> x ∈ drop (length l1) (l1 ++ l2 ++ l3).
Proof.
  intros H. rewrite app_assoc, drop_app_length in H. rewrite drop_app_length.
  apply elem_of_app. auto.
Qed.

Lemma fire_all_evaluates ts w :
  Forall (tracked_head w) ts ->
  Forall (fun t => tm_owner t ∈ drop (length (w_evals w)) (w_evals (fire_all ts w))) ts.
Proof.
  revert w. induction ts as [|t ts IH]; intros w Hts; [constructor|].
  apply Forall_cons in Hts as [Ht Hts]. cbn [fire_all].
  destruct (fire_timer_evaluates t w Ht) as [l El].
  destruct (fire_all_grows ts (fire_timer t w)) as (_ & _ & _ & l' & El').
  constructor.
  - rewrite El', El, <- app_assoc. apply elem_of_drop_app. constructor.
  - specialize (IH (fire_timer t w)).
    eapply Forall_impl; [apply IH; eapply Forall_impl; [exact Hts|];
                         intros; eapply tracked_head_grows; [apply fire_timer_grows|done]|].
    intros t' H. rewrite El' in H |- *. rewrite El in H |- *.
    rewrite <- app_assoc in H |- *. apply drop_app_grows. exact H.
Qed.

(** ** The theorem *)

(** C26: when time passes beyond the due time of every pending timer,
    every timer fires: none is left pending, and the element of each one
    has been evaluated, provided the timer's element is tracked and
    heads its own bubbling path. *)
Theorem advance_fires_all (w : world) (dt : Z) :
  Forall (fun t => (tm_due t <= w_now w + dt)%Z /\ tracked_head w t) (w_timers w) ->
  w_timers (advance dt w) = [] /\
  Forall (fun t => tm_owner t ∈ drop (length (w_evals w)) (w_evals (advance dt w))) (w_timers w).
Proof.
  intros Hall.
  assert (Hdue : Forall (fun t => is_due (w_now w + Z.max 0 dt) t = true) (w_timers w)).
  { eapply Forall_impl; [exact Hall|]. intros t [Hd _]. apply Z.leb_le. lia. }
  unfold advance. rewrite (filter_all_true _ _ Hdue).
  rewrite (filter_all_false (fun t => negb (is_due _ t))); cycle 1.
  { eapply Forall_impl; [exact Hdue|]. intros t ->. done. }
  split.
  - destruct (fire_all_tframe (sort_due (w_timers w)) (set_timers [] w)) as [T _]. exact T.
  - change (w_evals (set_now ?a ?b)) with (w_evals b).
    assert (Hs : Forall (tracked_head (set_timers [] w)) (sort_due (w_timers w))).
    { apply Forall_forall. intros t Ht. rewrite sort_due_perm in Ht.
      rewrite Forall_forall in Hall. apply Hall, Ht. }
    pose proof (fire_all_evaluates _ _ Hs) as H. rewrite Forall_forall in H |- *.
    intros t Ht. apply H. rewrite sort_due_perm. exact Ht.
Qed.

(** Two scroll notifications of two trackers, then [100] ms. *)
Definition two_trackers : world :=
  mkWorld 0 {[7 := solo_inst; 8 := solo_inst]} [fresh_binding 7; fresh_binding 8] empty_snapshot
          [] 0 [] [] []
          (fun _ => sample_in_view) (fun e => [e]).

Lemma advance_fires_all_witness :
  let w := run [EvScroll 0] two_trackers in
  w_timers w = [mkTimer 0 70 7 KScroll; mkTimer 1 70 8 KScroll] /\
  w_timers (advance 100 w) = [] /\
  Forall (fun t => tm_owner t ∈ drop (length (w_evals w)) (w_evals (advance 100 w))) (w_timers w).
Proof.
  cbv zeta. split; [vm_compute; reflexivity|]. apply advance_fires_all.
  vm_compute. repeat constructor; try discriminate; eauto.
Defined.

(** The two timers are due together: [7]'s, armed first, fires first. *)
Example two_trackers_fire_in_arm_order :
  w_evals (run [EvScroll 0; EvAdvance 100] two_trackers) = [7; 8].
Proof. vm_compute. reflexivity. Qed.

(** ** The order of the evaluations *)

(** The element of a timer is tracked, bound once, and alone on its
    bubbling path. *)
Definition solo_head (w : world) (t : timer) : Prop :=
  is_Some (w_insts w !! tm_owner t) /\ w_path w (tm_owner t) = [tm_owner t] /\
  bind_count w (tm_owner t) = 1.

Lemma solo_head_grows w w' t : grows w w' -> solo_head w t -> solo_head w' t.
Proof.
  intros (I & P & O & _) (Hi & Hp & Hc). split; [auto|]. rewrite P. split; [exact Hp|].
  unfold bind_count, bound_els. rewrite O. exact Hc.
Qed.

(** Firing such a timer evaluates its element once, whatever the
    handler does. *)
Lemma fire_timer_solo t w : solo_head w t -> w_evals (fire_timer t w) = w_evals w ++ [tm_owner t].
Proof.
  intros ([i Hi] & Hp & Hc). unfold fire_timer, triggerCheckViewpoint. cbn [set_now w_insts w_path].
  rewrite Hi, Hp. cbn [trigger_path].
  change (w_insts (set_now (tm_due t) w)) with (w_insts w). rewrite Hi, decide_True by done.
  change (bind_count (set_now (tm_due t) w) (tm_owner t)) with (bind_count w (tm_owner t)).
  rewrite Hc. cbn [run_handlers]. change (w_insts (set_now (tm_due t) w)) with (w_insts w). rewrite Hi.
  pose proof (run_handler_evals (tm_owner t) i (set_now (tm_due t) w)) as E.
  destruct (run_handler _ _ _) as [[]w1]; cbn [snd report add_error w_evals trigger_path] in E |- *;
    exact E.
Qed.

Lemma fire_all_solo ts w :
  Forall (solo_head w) ts -> w_evals (fire_all ts w) = w_evals w ++ map tm_owner ts.
Proof.
  revert w. induction ts as [|t ts IH]; intros w Hts; cbn [fire_all map]; [by rewrite app_nil_r|].
  apply Forall_cons in Hts as [Ht Hts]. rewrite IH, (fire_timer_solo t w Ht), <- app_assoc; [done|].
  eapply Forall_impl; [exact Hts|]. intros t' H. eapply solo_head_grows; [apply fire_timer_grows|exact H].
Qed.

(** C31: when time passes by [dt], the elements of the timers that fall
    due are evaluated once each, in the order [sort_due] gives them (by
    due time, timers due together in the order they were armed), and
    nothing else is evaluated, provided each due timer's element is
    tracked, bound once and alone on its bubbling path. *)
Theorem advance_evaluates_in_due_order (w : world) (dt : Z) :
  Forall (fun t => is_due (w_now w + Z.max 0 dt) t = true -> solo_head w t) (w_timers w) ->
  w_evals (advance dt w) =
  w_evals w ++ map tm_owner (sort_due (List.filter (is_due (w_now w + Z.max 0 dt)) (w_timers w))).
Proof.
  intros Hall. unfold advance. change (w_evals (set_now ?a ?b)) with (w_evals b).
  rewrite fire_all_solo; [done|]. apply Forall_forall. intros t Ht.
  rewrite sort_due_perm in Ht. apply list_elem_of_In, filter_In in Ht as [Ht Hd].
  rewrite Forall_forall in Hall. apply (Hall t); [by apply list_elem_of_In|exact Hd].
Qed.

(** Two pending timers: [8]'s, armed later but due earlier, fires
    first. *)
Definition two_pending : world :=
  mkWorld 0 {[7 := solo_inst; 8 := solo_inst]} [mkBinding 7 (Some 0) None; mkBinding 8 (Some 1) None]
          empty_snapshot [mkTimer 0 70 7 KScroll; mkTimer 1 40 8 KScroll] 2 [] [] []
          (fun _ => sample_in_view) (fun e => [e]).

Lemma advance_evaluates_in_due_order_witness :
  w_evals (advance 100 two_pending) = [8; 7].
Proof.
  rewrite (advance_evaluates_in_due_order two_pending 100); [vm_compute; reflexivity|].
  change (w_timers two_pending) with [mkTimer 0 70 7 KScroll; mkTimer 1 40 8 KScroll].
  repeat apply Forall_cons_2; try apply Forall_nil_2;
    intros _; (split; [vm_compute; eexists; reflexivity|split; vm_compute; reflexivity]).
Defined.
