(* ===== verification/Schedule.v ===== *)
(** * The schedule trigger against the specification's debounce

    The specification (section 4.5) describes the schedule trigger by
    one pending re-evaluation per tracker: a scroll or resize
    notification cancels it and schedules a new one [delay] ms later,
    unless the tracker is disabled, and time passing runs the ones that
    fall due.  [pending] is that abstract state, [spec_sched] its step,
    both read the page's configuration (the instances, the bindings and
    the clock) from the concrete world.

    [sched_rel] relates a world to an abstract state: the due times of
    the pending scroll timers of each element are exactly its pending
    re-evaluation.  The refinement theorem shows that every host event
    other than [resize] preserves the relation on a page where every
    element is bound once: the scroll handlers, [clearTimeout],
    [setTimeout] and the firing of due timers implement the
    specification's debounce.  The [resize] handler does not (it clears
    the scroll timer and arms a timer it never clears, see
    [Tracker.resize_not_debounced]).

    The refinement needs one more invariant than [world_inv]: the ids
    the bindings hold were handed out by the page, and a pending timer
    with such an id is that binding's scroll timer ([ids_inv]). *)

From S2P Require Import Prelude JsNumber JsValue Options Offsets Edges Sampler Dispatch Tracker.
From stdpp Require Import base list strings gmap sets.
From Stdlib Require Import QArith.
Local Close Scope Q_scope.

(** ** The specification *)

(** The due time of each tracker's pending re-evaluation. *)
Definition pending := elem -> option Z.

(** The new due time of [e]'s re-evaluation when a notification reaches
    the scroll element [tg]: [e] is tracked, bound, enabled and [tg] is
    one of its scroll elements. *)
Definition resched (tg : elem) (w : world) (e : elem) : option Z :=
  match w_insts w !! e with
  | Some i =>
      if negb (i_isDisable i) && bool_decide (tg ∈ i_sWindow i) && bool_decide (e ∈ bound_els w)
      then Some (w_now w + timeout_ms (delay (i_opts i)))%Z else None
  | None => None
  end.

Definition spec_sched (w : world) (ev : event) (a : pending) : pending :=
  match ev with
  | EvScroll tg | EvResize tg => fun e => match resched tg w e with Some d => Some d | None => a e end
  | EvAdvance dt =>
      fun e => match a e with
               | Some d => if (d <=? w_now w + Z.max 0 dt)%Z then None else Some d
               | None => None
               end
  | _ => a
  end.

Fixpoint spec_run (evs : list event) (w : world) (a : pending) : pending :=
  match evs with
  | [] => a
  | ev :: evs' => spec_run evs' (step w ev) (spec_sched w ev a)
  end.

Definition is_resize (ev : event) : bool := match ev with EvResize _ => true | _ => false end.

(** The due times of the pending scroll timers of each element are its
    pending re-evaluation. *)
Definition sched_rel (w : world) (a : pending) : Prop :=
  forall e, map tm_due (scroll_timers_of w e) = match a e with Some d => [d] | None => [] end.

(** A binding's id was handed out by the page, and a pending timer with
    that id is the binding's scroll timer. *)
Definition ids_inv (w : world) : Prop :=
  forall k b id, w_order w !! k = Some b -> b_scrollTimer b = Some id ->
    id < w_next w /\
    forall t, t ∈ w_timers w -> tm_id t = id -> tm_kind t = KScroll /\ tm_owner t = b_el b.

Definition sched_inv (w : world) : Prop := world_inv w /\ ids_inv w.

(** ** [ids_inv] *)

Lemma ids_inv_tframe w w' : ids_inv w -> tframe w w' -> ids_inv w'.
Proof. intros H (T & N & O & _) k b id. rewrite O, N, T. apply H. Qed.

Lemma ids_inv_filter f w : ids_inv w -> ids_inv (set_timers (List.filter f (w_timers w)) w).
Proof.
  intros H k b id Hk Hs. destruct (H k b id Hk Hs) as [Hlt Ht]. split; [exact Hlt|].
  intros t Hmem. apply Ht. cbn [set_timers w_timers] in Hmem.
  apply list_elem_of_In, filter_In in Hmem as [Hmem _]. by apply list_elem_of_In.
Qed.

Lemma ids_inv_clear id w : ids_inv w -> ids_inv (clearTimeout id w).
Proof. destruct id; [apply ids_inv_filter|done]. Qed.

(** Arming a timer from the [k]-th binding: the binding either names the
    new timer, which is a scroll timer, or keeps an id no pending timer
    has. *)
Lemma ids_inv_arm w k b b' kind ms :
  ids_inv w -> Forall (fun t => tm_id t < w_next w) (w_timers w) ->
  w_order w !! k = Some b -> b_el b' = b_el b ->
  (kind = KScroll /\ b_scrollTimer b' = Some (w_next w)) \/
  (b_scrollTimer b' = b_scrollTimer b /\ Forall (fun t => b_scrollTimer b <> Some (tm_id t)) (w_timers w)) ->
  ids_inv (set_binding k b' (setTimeout (b_el b) kind ms w).2).
Proof.
  intros H Hid Hk He Hb j b0 id Hj Hs. cbn [set_binding setTimeout snd w_order w_next w_timers] in *.
  rewrite Forall_forall in Hid.
  assert (Hnew : forall t, t ∈ w_timers w ++ [mkTimer (w_next w) (w_now w + ms) (b_el b) kind] ->
                 tm_id t = id -> id < w_next w -> t ∈ w_timers w).
  { intros t Ht Hti Hlt. apply elem_of_app in Ht as [Ht|Ht]; [exact Ht|].
    apply list_elem_of_singleton in Ht. subst t. cbn in Hti. lia. }
  destruct (decide (j = k)) as [->|Hne].
  - rewrite list_lookup_insert_eq in Hj by (eapply lookup_lt_Some; exact Hk). injection Hj as <-.
    destruct Hb as [[-> Hs'] | [Hs' Hnone]].
    + rewrite Hs' in Hs. injection Hs as <-. split; [lia|]. intros t Ht Hti.
      apply elem_of_app in Ht as [Ht|Ht].
      * specialize (Hid t Ht). lia.
      * apply list_elem_of_singleton in Ht. subst t. cbn. auto.
    + rewrite Hs' in Hs. destruct (H k b id Hk Hs) as [Hlt _]. split; [lia|].
      intros t Ht Hti. exfalso. rewrite Forall_forall in Hnone.
      apply (Hnone t (Hnew t Ht Hti Hlt)). congruence.
  - rewrite list_lookup_insert_ne in Hj by congruence.
    destruct (H j b0 id Hj Hs) as [Hlt Ht]. split; [lia|]. intros t Hmem Hti.
    apply Ht; [exact (Hnew t Hmem Hti Hlt)|exact Hti].
Qed.

Lemma fold_pres {A} (P : world -> Prop) (f : A -> world -> world) l w :
  (forall x w, P w -> P (f x w)) -> P w -> P (fold_left (fun w x => f x w) l w).
Proof.
  intros Hf. revert w. induction l as [|x l IH]; intros w Hw; simpl; [done|]. apply IH, Hf, Hw.
Qed.

Lemma sched_inv_tframe w w' : sched_inv w -> tframe w w' -> sched_inv w'.
Proof. intros [Hw Hi] Ht. split; [eapply inv_tframe|eapply ids_inv_tframe]; eauto. Qed.

Lemma sched_inv_handlers k w :
  sched_inv w -> sched_inv (scroll_handler k w) /\ sched_inv (resize_handler k w).
Proof.
  intros [Hw H]. split; (split; [apply scroll_handler_inv || apply resize_handler_inv; exact Hw|]);
    unfold scroll_handler, resize_handler, with_binding;
    destruct (w_order w !! k) as [b|] eqn:Hk; try done;
    destruct (w_insts w !! b_el b); try done; destruct (i_isDisable _); try done;
    destruct (clearTimeout_inv (b_scrollTimer b) w Hw) as (Hid & _);
    (apply ids_inv_arm; [apply ids_inv_clear, H|exact Hid|rewrite clearTimeout_order; exact Hk|done|]).
  - left. done.
  - right. split; [done|]. apply clearTimeout_cleared.
Qed.

Lemma sched_inv_on_target tg h k w :
  (forall k w, sched_inv w -> sched_inv (h k w)) -> sched_inv w -> sched_inv (on_target tg h k w).
Proof. intros Hh Hw. unfold on_target, with_binding. repeat case_match; auto. Qed.

Lemma advance_tframe_filter dt w :
  tframe (set_timers (List.filter (fun t => negb (is_due (w_now w + Z.max 0 dt) t)) (w_timers w)) w)
         (advance dt w).
Proof. unfold advance. eapply tframe_trans; [apply fire_all_tframe|apply set_now_tframe]. Qed.

Lemma sched_inv_step w ev : sched_inv w -> sched_inv (step w ev).
Proof.
  intros Hs. destruct ev as [| tg | tg | dt | L | el nm | el opt | el | el] eqn:Eev;
    try (eapply sched_inv_tframe; [exact Hs|apply memory_ops_tframe; done]).
  - unfold step, for_bound. apply fold_pres; [|exact Hs]. intros k w'.
    apply sched_inv_on_target. apply sched_inv_handlers.
  - unfold step, for_bound. apply fold_pres; [|exact Hs]. intros k w'.
    apply sched_inv_on_target. apply sched_inv_handlers.
  - destruct Hs as [Hw H]. split; [apply advance_inv, Hw|].
    eapply ids_inv_tframe; [apply ids_inv_filter, H|apply advance_tframe_filter].
Qed.

(** ** The pending scroll timers through one event *)

Lemma scroll_timers_tframe w w' e : tframe w w' -> scroll_timers_of w' e = scroll_timers_of w e.
Proof. intros (T & _). unfold scroll_timers_of. rewrite T. done. Qed.

Lemma let_setTimeout {B} x kind ms w (f : nat -> world -> B) :
  (let '(id, w2) := setTimeout x kind ms w in f id w2) = f (w_next w) (setTimeout x kind ms w).2.
Proof. reflexivity. Qed.

(** Arming a timer adds it to its element's scroll timers when it is one. *)
Lemma scroll_timers_arm w k b' x kind ms e :
  scroll_timers_of (set_binding k b' (setTimeout x kind ms w).2) e =
  scroll_timers_of w e ++
  (if (x =? e) && bool_decide (kind = KScroll) then [mkTimer (w_next w) (w_now w + ms) x kind] else []).
Proof.
  unfold scroll_timers_of. cbn [set_binding setTimeout snd w_timers]. rewrite filter_app_bool.
  cbn [List.filter tm_owner tm_kind]. by destruct ((x =? e) && _).
Qed.

(** Clearing a binding's id leaves the scroll timers of the other
    elements. *)
Lemma scroll_timers_clear_other w k b e :
  ids_inv w -> w_order w !! k = Some b -> e <> b_el b ->
  scroll_timers_of (clearTimeout (b_scrollTimer b) w) e = scroll_timers_of w e.
Proof.
  intros H Hk Hne. destruct (b_scrollTimer b) as [id|] eqn:Hs; [|done].
  unfold scroll_timers_of. cbn [clearTimeout set_timers w_timers].
  apply filter_filter_implied, Forall_forall. intros t Ht Hp.
  apply andb_prop in Hp as [Ho _]. apply Nat.eqb_eq in Ho.
  destruct (Nat.eqb_spec (tm_id t) id) as [Hid|]; [|done].
  destruct (H k b id Hk Hs) as [_ Hb]. destruct (Hb t Ht Hid) as [_ Hown]. congruence.
Qed.

(** Clearing the id of the only binding of an element leaves it no
    scroll timer. *)
Lemma scroll_timers_clear_own w k b :
  world_inv w -> bind_count w (b_el b) <= 1 -> w_order w !! k = Some b ->
  scroll_timers_of (clearTimeout (b_scrollTimer b) w) (b_el b) = [].
Proof.
  intros Hw Hc Hk. pose proof (clearTimeout_cleared (b_scrollTimer b) w) as Hcl.
  destruct Hw as (_ & _ & Hsc & _). unfold scroll_timers_of. apply filter_all_false, Forall_forall.
  intros t Ht. apply not_true_is_false. intros Hp. apply andb_prop in Hp as [Ho Hkd].
  apply Nat.eqb_eq in Ho. apply bool_decide_eq_true in Hkd.
  assert (Hmem : t ∈ w_timers w).
  { destruct (b_scrollTimer b); [|exact Ht]. cbn [clearTimeout set_timers w_timers] in Ht.
    apply list_elem_of_In, filter_In in Ht as [Ht _]. by apply list_elem_of_In. }
  rewrite Forall_forall in Hsc, Hcl. destruct (Hsc t Hmem Hkd) as (k0 & b0 & L0 & E0 & S0).
  assert (k0 = k) as ->.
  { apply (count_le1_index (bound_els w) (b_el b)); [exact Hc| |];
      unfold bound_els; rewrite list_lookup_fmap; [rewrite L0|rewrite Hk]; cbn; congruence. }
  rewrite Hk in L0. injection L0 as <-. exact (Hcl t Ht S0).
Qed.

(** The scroll and resize handlers change neither the instances nor the
    clock. *)
Lemma handlers_keep_insts k w :
  (w_insts (scroll_handler k w) = w_insts w /\ w_now (scroll_handler k w) = w_now w) /\
  (w_insts (resize_handler k w) = w_insts w /\ w_now (resize_handler k w) = w_now w).
Proof.
  unfold scroll_handler, resize_handler, with_binding. destruct (w_order w !! k) as [b|]; [|done].
  destruct (w_insts w !! b_el b); [|done]. destruct (i_isDisable _); [done|].
  destruct (b_scrollTimer b); done.
Qed.

Lemma on_target_scroll_keeps tg k w :
  let w' := on_target tg scroll_handler k w in
  w_insts w' = w_insts w /\ w_now w' = w_now w /\ bound_els w' = bound_els w.
Proof.
  cbv zeta. split; [|split]; [| |apply on_target_bound_els; apply handlers_bound_els];
    unfold on_target, with_binding; repeat case_match; try done; apply handlers_keep_insts.
Qed.

Lemma resched_keeps tg w w' e :
  w_insts w' = w_insts w -> w_now w' = w_now w -> bound_els w' = bound_els w ->
  resched tg w' e = resched tg w e.
Proof. intros I N B. unfold resched. rewrite I, N, B. done. Qed.

(** The scroll handler of the [k]-th binding reschedules the
    re-evaluation of that binding's element, and of no other. *)
Lemma scroll_step_due tg k w e :
  sched_inv w -> (forall x, bind_count w x <= 1) ->
  map tm_due (scroll_timers_of (on_target tg scroll_handler k w) e) =
  if bool_decide (bound_els w !! k = Some e) then
    match resched tg w e with Some d => [d] | None => map tm_due (scroll_timers_of w e) end
  else map tm_due (scroll_timers_of w e).
Proof.
  intros [Hw H] Hc. unfold on_target, with_binding.
  destruct (w_order w !! k) as [b|] eqn:Hk.
  2:{ rewrite bool_decide_eq_false_2; [done|]. unfold bound_els. rewrite list_lookup_fmap, Hk. done. }
  assert (Hb : bound_els w !! k = Some (b_el b)) by (unfold bound_els; rewrite list_lookup_fmap, Hk; done).
  rewrite Hb. destruct (decide (e = b_el b)) as [->|Hne].
  2:{ rewrite bool_decide_eq_false_2 by congruence. cbv beta iota.
      destruct (w_insts w !! b_el b) as [i|] eqn:Hi; [|done]. case_decide; [|done].
      unfold scroll_handler, with_binding. rewrite Hk, Hi. cbv beta iota.
      destruct (i_isDisable i); [done|].
      rewrite let_setTimeout, scroll_timers_arm, (scroll_timers_clear_other w k b) by done.
      replace (b_el b =? e) with false by (symmetry; apply Nat.eqb_neq; congruence).
      rewrite app_nil_r. done. }
  rewrite bool_decide_eq_true_2 by done. unfold resched.
  rewrite bool_decide_eq_true_2 with (P := b_el b ∈ bound_els w)
    by (eapply list_elem_of_lookup_2; exact Hb).
  destruct (w_insts w !! b_el b) as [i|] eqn:Hi; [|done].
  destruct (decide (tg ∈ i_sWindow i)) as [Htg|Htg].
  2:{ rewrite (bool_decide_eq_false_2 (tg ∈ i_sWindow i)) by done. rewrite andb_false_r. done. }
  rewrite (bool_decide_eq_true_2 (tg ∈ i_sWindow i)) by done.
  cbv beta iota.
  unfold scroll_handler, with_binding. rewrite Hk, Hi. cbv beta iota.
  destruct (i_isDisable i); [cbn [negb andb]; reflexivity|].
  cbn [negb andb]. rewrite let_setTimeout, scroll_timers_arm, (scroll_timers_clear_own w k b) by auto.
  rewrite Nat.eqb_refl, bool_decide_eq_true_2 by done. cbn [andb app map tm_due].
  by destruct (b_scrollTimer b).
Qed.

(** The scroll handlers of the bindings at the indices [l], each index
    once, in order. *)
Lemma scroll_fold_due tg l w e :
  NoDup l -> sched_inv w -> (forall x, bind_count w x <= 1) ->
  map tm_due (scroll_timers_of (fold_left (fun w k => on_target tg scroll_handler k w) l w) e) =
  if existsb (fun k => bool_decide (bound_els w !! k = Some e)) l then
    match resched tg w e with Some d => [d] | None => map tm_due (scroll_timers_of w e) end
  else map tm_due (scroll_timers_of w e).
Proof.
  revert w. induction l as [|k l IH]; intros w Hnd Hs Hc; cbn [fold_left existsb]; [done|].
  apply NoDup_cons in Hnd as [Hk Hnd].
  destruct (on_target_scroll_keeps tg k w) as (I & N & B).
  rewrite IH; [|done|apply sched_inv_on_target; [apply sched_inv_handlers|exact Hs]
              |intros x; rewrite (bind_count_bound_els _ _ x B); apply Hc].
  rewrite B, (resched_keeps tg w _ e I N B), scroll_step_due by done.
  destruct (bool_decide (bound_els w !! k = Some e)) eqn:Hke; cbn [orb].
  - apply bool_decide_eq_true in Hke.
    replace (existsb _ l) with false; [by destruct (resched tg w e)|].
    symmetry. apply not_true_iff_false. intros Hex. apply existsb_exists in Hex as (k' & Hk' & Hb).
    apply bool_decide_eq_true in Hb. apply Hk. apply list_elem_of_In.
    replace k with k'; [exact Hk'|]. eapply count_le1_index; [apply Hc|exact Hb|exact Hke].
  - destruct (existsb _ l); [|done]. by destruct (resched tg w e).
Qed.

Lemma existsb_lookup_seq (l : list nat) e :
  existsb (fun k => bool_decide (l !! k = Some e)) (seq 0 (length l)) = bool_decide (e ∈ l).
Proof.
  apply eq_true_iff_eq. rewrite existsb_exists, bool_decide_eq_true, list_elem_of_lookup. split.
  - intros (k & _ & Hk). apply bool_decide_eq_true in Hk. eauto.
  - intros (k & Hk). exists k. split; [|by apply bool_decide_eq_true].
    apply in_seq. apply lookup_lt_Some in Hk. lia.
Qed.

Lemma sched_scroll w a tg :
  sched_inv w -> (forall x, bind_count w x <= 1) -> sched_rel w a ->
  sched_rel (step w (EvScroll tg)) (spec_sched w (EvScroll tg) a).
Proof.
  intros Hs Hc Hr e. cbn [step spec_sched]. unfold for_bound.
  rewrite scroll_fold_due by (apply NoDup_seq || done).
  replace (length (w_order w)) with (length (bound_els w)) by apply length_fmap.
  rewrite existsb_lookup_seq, (Hr e). unfold resched.
  destruct (decide (e ∈ bound_els w)) as [Hin|Hin];
    [rewrite !bool_decide_eq_true_2 by done|rewrite !bool_decide_eq_false_2 by done];
    destruct (w_insts w !! e); rewrite ?andb_false_r; try done.
  by destruct (_ && _).
Qed.

Lemma sched_advance w a dt : sched_rel w a -> sched_rel (advance dt w) (spec_sched w (EvAdvance dt) a).
Proof.
  intros Hr e. specialize (Hr e). cbn [spec_sched].
  destruct (advance_tframe_filter dt w) as (T & _). unfold scroll_timers_of in *. rewrite T.
  cbn [set_timers w_timers]. rewrite filter_comm_bool.
  destruct (List.filter _ (w_timers w)) as [|t [|t' ts]]; cbn [map] in Hr |- *;
    destruct (a e) as [d|]; try discriminate; [done|].
  injection Hr as <-. cbn [List.filter]. unfold is_due. by destruct (tm_due t <=? _)%Z.
Qed.

Lemma sched_step w a ev :
  sched_inv w -> (forall x, bind_count w x <= 1) -> sched_rel w a -> is_resize ev = false ->
  sched_rel (step w ev) (spec_sched w ev a).
Proof.
  intros Hs Hc Hr Hnr. destruct ev as [| tg | tg | dt | L | el nm | el opt | el | el];
    try discriminate; try (intros e; rewrite (scroll_timers_tframe w); [apply Hr|];
                           apply memory_ops_tframe; done).
  - apply sched_scroll; done.
  - apply sched_advance, Hr.
Qed.

(** ** The refinement *)

(** C29: on a page where every element is bound once, from a world
    satisfying the invariants and related to an abstract state, every run
    of host events without [resize] keeps the relation: the pending
    scroll timers of each element are exactly the pending re-evaluation
    the specification's debounce prescribes (rescheduled to [delay] ms
    after each notification to an enabled tracker, dropped once due). *)
Theorem schedule_refines_spec (w : world) (a : pending) (evs : list event) :
  sched_inv w -> (forall e, bind_count w e <= 1) -> sched_rel w a ->
  Forall (fun ev => is_resize ev = false) evs ->
  sched_rel (run evs w) (spec_run evs w a).
Proof.
  revert w a. induction evs as [|ev evs IH]; intros w a Hs Hc Hr Hnr; [exact Hr|].
  apply Forall_cons in Hnr as [Hev Hnr]. cbn [run fold_left spec_run]. apply IH; [| |apply sched_step; done|exact Hnr].
  - apply sched_inv_step, Hs.
  - intros e. rewrite (bind_count_bound_els _ _ e (step_bound_els w ev)). apply Hc.
Qed.

(** ** The page with one tracker *)

Lemma solo_world_sched_inv : sched_inv solo_world.
Proof.
  split; [exact solo_world_inv|]. intros k b id Hk Hs.
  change (w_order solo_world) with [fresh_binding 7] in Hk.
  destruct k as [|k]; cbn [lookup list_lookup] in Hk; [|destruct k; discriminate].
  injection Hk as <-. discriminate.
Qed.

(** A scroll at time 0, 30 ms, another scroll: the pending re-evaluation
    of [7] is rescheduled from 70 to 100. *)
Lemma schedule_refines_spec_witness :
  let evs := [EvScroll 0; EvAdvance 30; EvScroll 0] in
  sched_rel (run evs solo_world) (spec_run evs solo_world (fun _ => None)) /\
  spec_run evs solo_world (fun _ => None) 7 = Some 100%Z.
Proof.
  cbv zeta. split; [|vm_compute; reflexivity].
  apply schedule_refines_spec; [exact solo_world_sched_inv | | intros e; reflexivity | repeat constructor].
  intros e. unfold bind_count, bound_els. cbn [w_order solo_world fmap list_fmap List.filter b_el fresh_binding].
  destruct (7 =? e); cbn; lia.
Defined.
