(* ===== verification/Bridge.v ===== *)
(** * The constructor, [init] and the jQuery bridge [$.fn.viewpoint]

    [src/js/viewpoint.js] lines 55-73 ([Viewpoint]), 75-98 (the
    prototype's fields and [init]) and 324-354 ([$.fn.viewpoint]).  A
    call of the bridge with a plain object, or with a falsy argument,
    walks the selected elements in order; an element that already has
    [$.data(el, "viewpoint")] is skipped, any other gets
    [new Viewpoint(el, options)] stored under that key.  The constructor
    keeps the instance inert (no options, no handlers) unless the object
    sets some callback to a function; then it merges the options over
    the defaults and runs [init], which resolves the scroll element and
    the content pane, throws when one is missing and otherwise binds the
    handlers of [setupEvents].  An exception leaves the walk: the
    elements before it keep their instances, the element and those
    after it get none.

    A call with a non-empty string looks the name up on the instance of
    the first selected element ([pluginInstance[methodName]]) and, when
    the value is truthy, calls it with [.apply].  The members are the
    instance's data fields (a truthy one is not a function, so [.apply]
    raises a [TypeError]; a falsy one makes the call return
    [undefined]), the five checks, [isInViewPoint],
    [updateCurrentState], [reset], [disable], [enable] and
    [setupEvents], which binds the handlers once more
    ([Tracker.setupEvents]) and returns the instance.  On an inert
    instance, which has no [options] and no [$element], every method
    that reads them raises a [TypeError].  [init(element)] resolves the
    scroll element and the content pane again and binds the handlers
    once more; the model follows it when [$(element)] is the instance's
    own element.  The instance's [constructor] returns [undefined] at
    its guard unless given a truthy element and a plain object.  The
    calls that point an instance at other elements or read an
    arbitrary object's keys, and the members every object inherits
    ([toString], [hasOwnProperty], ...), are outside the model:
    [viewpoint] returns [None] for them.

    The host's [$()] is the section variable [resolve]: the elements a
    value selects ([window], a selector string, an element). *)

From S2P Require Import Prelude JsNumber JsValue Options Offsets Edges Sampler Dispatch Tracker.
From stdpp Require Import base list strings gmap sets.
From Stdlib Require Import QArith.
Local Close Scope Q_scope.

(** The page: the world of the trackers and the inert instances, each
    with its [isDisable] (the only field of an inert instance a method
    call can change to a value a later call can observe). *)
Record page := mkPage {
  pg_world : world;
  pg_inert : gmap elem bool
}.

(** The first argument of [$.fn.viewpoint]: a plain object, given by its
    keys, or any other JavaScript value. *)
Inductive bridge_arg :=
  | BObj (o : options)
  | BVal (v : jsval).

(** What a call returns: the jQuery object ([return this.each(...)]),
    the instance of an element ([setupEvents]' [return this]) or a
    value. *)
Inductive bridge_ret :=
  | RThis
  | RInstance (el : elem)
  | RValue (v : jsval).

(** What [new Viewpoint(el, opt)] returns. *)
Inductive constructed :=
  | CTracker (i : inst)
  | CInert.

(** The data fields an instance has, own or from the prototype. *)
Inductive data_field :=
  | FsWindow | FisCalled | FisAffixTopCalled | FisDisable | FcurrentState
  | Foptions | Felement | FdollarElement | FdollarContentPane.

Inductive edge_check := COffTop | COffRight | COffBottom | COffLeft | CAffixTop.

(** What [pluginInstance[methodName]] names, in the model. *)
Inductive member :=
  | MField (f : data_field)
  | MCheck (c : edge_check)
  | MIsInViewPoint
  | MUpdateCurrentState
  | MReset
  | MDisable
  | MEnable
  | MSetupEvents
  | MInit
  | MConstructor
  | MAbsent.

#[export] Instance data_field_eq_dec : EqDecision data_field.
Proof. solve_decision. Defined.
#[export] Instance edge_check_eq_dec : EqDecision edge_check.
Proof. solve_decision. Defined.
#[export] Instance member_eq_dec : EqDecision member.
Proof. solve_decision. Defined.

(** The names of the members; [None] marks the names outside the model. *)
Definition member_table : list (string * option member) :=
  [("sWindow", Some (MField FsWindow)); ("isCalled", Some (MField FisCalled));
   ("isAffixTopCalled", Some (MField FisAffixTopCalled)); ("isDisable", Some (MField FisDisable));
   ("currentState", Some (MField FcurrentState)); ("options", Some (MField Foptions));
   ("element", Some (MField Felement)); ("$element", Some (MField FdollarElement));
   ("$contentPane", Some (MField FdollarContentPane));
   ("checkOffTop", Some (MCheck COffTop)); ("checkOffRight", Some (MCheck COffRight));
   ("checkOffBottom", Some (MCheck COffBottom)); ("checkOffLeft", Some (MCheck COffLeft));
   ("checkAffixTop", Some (MCheck CAffixTop)); ("isInViewPoint", Some MIsInViewPoint);
   ("updateCurrentState", Some MUpdateCurrentState); ("reset", Some MReset);
   ("disable", Some MDisable); ("enable", Some MEnable);
   ("setupEvents", Some MSetupEvents); ("init", Some MInit); ("constructor", Some MConstructor);
   ("toString", None); ("toLocaleString", None); ("valueOf", None); ("hasOwnProperty", None);
   ("isPrototypeOf", None); ("propertyIsEnumerable", None); ("__proto__", None);
   ("__defineGetter__", None); ("__defineSetter__", None); ("__lookupGetter__", None);
   ("__lookupSetter__", None)].

Definition member_of (name : string) : option member :=
  match List.find (fun p => String.eqb p.1 name) member_table with
  | Some (_, m) => m
  | None => Some MAbsent
  end.

(** The new instance, as [init] leaves it, runs [setupEvents]
    (line 97). *)
Definition bind_tracker (el : elem) (i : inst) (w : world) : world :=
  setupEvents el (set_inst el i w).

Definition set_cs_world (cs : snapshot) (w : world) : world :=
  mkWorld (w_now w) (w_insts w) (w_order w) cs (w_timers w)
          (w_next w) (w_calls w) (w_evals w) (w_errors w) (w_layout w) (w_path w).

(** The page before any call: no tracker, nothing pending. *)
Definition empty_page (L : elem -> sample) (P : elem -> list elem) : page :=
  mkPage (mkWorld 0 ∅ [] empty_snapshot [] 0 [] [] [] L P) ∅.

Section Bridge.
Variable resolve : jsval -> list elem.

(** [init] (lines 82-98) on the merged options.  The instance starts
    with the prototype's [isCalled: ""], [isAffixTopCalled: ""] and
    [isDisable: false]. *)
Definition init (o : options) : outcome inst :=
  match resolve (scrollElement o) with
  | [] => Exc (Thrown "scrollElement not found")
  | sw =>
      if typeof_string (contentPane o) then
        match resolve (contentPane o) with
        | [] => Exc (Thrown "contentPane not found")
        | _ => Ok (mkInst o true sw PNone ANone false)
        end
      else Ok (mkInst o false sw PNone ANone false)
  end.

(** [new Viewpoint(element, opt)] (lines 55-73); [opt] is [Some] of a
    plain object or [None] for any other value.  A DOM element is truthy. *)
Definition Viewpoint (opt : option options) : outcome constructed :=
  match opt with
  | Some o =>
      if has_callback o then
        match init (extend defaultOptions o) with
        | Ok i => Ok (CTracker i)
        | Exc x => Exc x
        end
      else Ok CInert
  | None => Ok CInert
  end.

(** [$.data(el, "viewpoint")] holds an instance. *)
Definition has_data (pg : page) (el : elem) : bool :=
  bool_decide (is_Some (w_insts (pg_world pg) !! el)) || bool_decide (is_Some (pg_inert pg !! el)).

(** [$.data(el, "viewpoint", pluginInstance)]; an inert instance starts
    enabled. *)
Definition store (el : elem) (c : constructed) (pg : page) : page :=
  match c with
  | CTracker i => mkPage (bind_tracker el i (pg_world pg)) (pg_inert pg)
  | CInert => mkPage (pg_world pg) (<[el := false]> (pg_inert pg))
  end.

(** The [this.each] loop of lines 330-342. *)
Fixpoint each_new (opt : option options) (els : list elem) (pg : page) : outcome unit * page :=
  match els with
  | [] => (Ok tt, pg)
  | el :: rest =>
      if has_data pg el then each_new opt rest pg
      else
        match Viewpoint opt with
        | Ok c => each_new opt rest (store el c pg)
        | Exc x => (Exc x, pg)
        end
  end.

(** The value of a data field of a tracker is truthy: [sWindow],
    [currentState], [options], [element] and [$element] are objects,
    [isCalled] and [isAffixTopCalled] are truthy once not [""], and
    [$contentPane] exists when [init] resolved a content pane. *)
Definition field_truthy (i : inst) (f : data_field) : bool :=
  match f with
  | FsWindow | FcurrentState | Foptions | Felement | FdollarElement => true
  | FisCalled => bool_decide (i_isCalled i <> PNone)
  | FisAffixTopCalled => bool_decide (i_isAffixTopCalled i <> ANone)
  | FisDisable => i_isDisable i
  | FdollarContentPane => i_pane i
  end.

(** The same on an inert instance: [sWindow] is the prototype's [null],
    the memories stay [""], [currentState] is the prototype's object and
    the other fields are absent. *)
Definition inert_field_truthy (disabled : bool) (f : data_field) : bool :=
  match f with
  | FisDisable => disabled
  | FcurrentState => true
  | _ => false
  end.

(** A check (lines 252-304) on the shared [currentState]: before any
    [updateCurrentState] its fields are [undefined] and every comparison
    is false. *)
Definition check_value (c : edge_check) (o : options) (cs : snapshot) : bool :=
  match cs_geo cs with
  | Some g =>
      match c with
      | COffTop => checkOffTop o g
      | COffRight => checkOffRight o g
      | COffBottom => checkOffBottom o g
      | COffLeft => checkOffLeft o g
      | CAffixTop => checkAffixTop o g
      end
  | None => false
  end.

Definition not_a_function : exn := TypeError "pluginInstance[methodName].apply is not a function".
Definition undefined_options : exn := TypeError "Cannot read properties of undefined".

(** [$.data(this[0], pluginName)] on an empty selection reads a
    property of [undefined]. *)
Definition no_element : exn := TypeError "Cannot read properties of undefined".

(** [$.isPlainObject(opt)] can hold: a value that is not an object is
    not a plain object; an object ([JObj]) may be one, and the model,
    which holds neither its prototype nor its keys, leaves such a call
    out. *)
Definition may_be_plain (v : jsval) : bool :=
  match v with JObj _ => true | _ => false end.

(** The first and second arguments after the method name. *)
Definition arg1 (arg : option (jsval * jsval)) : jsval := from_option fst JUndefined arg.
Definition arg2 (arg : option (jsval * jsval)) : jsval := from_option snd JUndefined arg.

(** [init(element)] (lines 82-98) called through the bridge on the
    tracker of [el]: it resolves [sWindow] and, for a string
    [contentPane], [$contentPane] again from the tracker's options, each
    assignment made before its check throws; then it points [element]
    and [$element] at [element] and runs [setupEvents].  The model
    follows the call when [$(element)] is the tracker's own element;
    pointing [$element] at other elements is outside it ([None]). *)
Definition call_init (x : jsval) (el : elem) (i : inst) (pg : page) : option (outcome bridge_ret * page) :=
  let w := pg_world pg in
  let o := i_opts i in
  let sw := resolve (scrollElement o) in
  let i1 := mkInst o (i_pane i) sw (i_isCalled i) (i_isAffixTopCalled i) (i_isDisable i) in
  match sw with
  | [] => Some (Exc (Thrown "scrollElement not found"), mkPage (set_inst el i1 w) (pg_inert pg))
  | _ =>
      let i2 := if typeof_string (contentPane o)
                then mkInst o true sw (i_isCalled i) (i_isAffixTopCalled i) (i_isDisable i) else i1 in
      if typeof_string (contentPane o) && bool_decide (resolve (contentPane o) = []) then
        Some (Exc (Thrown "contentPane not found"), mkPage (set_inst el i2 w) (pg_inert pg))
      else if truthy x && bool_decide (resolve x = [el]) then
        Some (Ok (RValue JUndefined), mkPage (setupEvents el (set_inst el i2 w)) (pg_inert pg))
      else None
  end.

(** [Viewpoint(element, opt)] (lines 55-73) called through the bridge as
    the instance's own [constructor]: it sets [constructor] to the
    function it already holds and, unless [element] is truthy and [opt]
    a plain object, returns [undefined].  Re-initialising the instance
    from a plain object's keys is outside the model ([None]). *)
Definition call_constructor (x opt : jsval) (pg : page) : option (outcome bridge_ret * page) :=
  if truthy x && may_be_plain opt then None else Some (Ok (RValue JUndefined), pg).

(** [pluginInstance[methodName].apply(pluginInstance, args)] on the
    tracker of [el] (lines 347-350); [arg] holds the arguments after
    the method name. *)
Definition call_tracker (m : member) (arg : option (jsval * jsval)) (el : elem) (i : inst)
    (pg : page) : option (outcome bridge_ret * page) :=
  let w := pg_world pg in
  let keep w' := mkPage w' (pg_inert pg) in
  match m with
  | MField f => Some (if field_truthy i f then (Exc not_a_function, pg) else (Ok (RValue JUndefined), pg))
  | MCheck c => Some (Ok (RValue (JBool (check_value c (i_opts i) (w_cs w)))), pg)
  | MIsInViewPoint =>
      let '(cs, iv) := isInViewPoint (i_opts i) (w_cs w) in
      Some (Ok (RValue (JBool iv)), keep (set_cs_world cs w))
  | MUpdateCurrentState =>
      Some (Ok (RValue JUndefined),
            keep (set_cs_world (updateCurrentState (i_pane i) (i_opts i) (w_layout w el) (w_cs w)) w))
  | MReset => Some (Ok (RValue JUndefined), keep (reset_inst el arg w))
  | MDisable => Some (Ok (RValue JUndefined), keep (disable el w))
  | MEnable => Some (Ok (RValue JUndefined), keep (enable el w))
  | MSetupEvents => Some (Ok (RInstance el), keep (setupEvents el w))
  | MInit => call_init (arg1 arg) el i pg
  | MConstructor => call_constructor (arg1 arg) (arg2 arg) pg
  | MAbsent => Some (Ok (RValue JUndefined), pg)
  end.

(** The same on an inert instance, which has neither [options] nor
    [$element] (the constructor returned before [init]): [reset]
    (lines 306-310) writes [""] over [""], [disable] and [enable] set
    its [isDisable], and its [constructor] is the one of a tracker.  The
    other methods raise a [TypeError] at their first statement, before
    any write: the checks (lines 254, 266, 278, 290, 302) read
    [self.options.<x>Offset]; [isInViewPoint] (line 243) calls
    [checkOffTop] before its first assignment completes;
    [updateCurrentState] (line 224) calls [self.$element.offset()];
    [setupEvents] (line 112) calls [self.$element.on]; [init] (line 84)
    reads [self.options.scrollElement].  The model gives that first
    statement's exception and not the rest of each body, which is never
    reached. *)
Definition call_inert (m : member) (arg : option (jsval * jsval)) (el : elem) (disabled : bool)
    (pg : page) : option (outcome bridge_ret * page) :=
  match m with
  | MField f =>
      Some (if inert_field_truthy disabled f then (Exc not_a_function, pg) else (Ok (RValue JUndefined), pg))
  | MCheck _ | MIsInViewPoint | MUpdateCurrentState | MSetupEvents | MInit => Some (Exc undefined_options, pg)
  | MReset | MAbsent => Some (Ok (RValue JUndefined), pg)
  | MDisable => Some (Ok (RValue JUndefined), mkPage (pg_world pg) (<[el := true]> (pg_inert pg)))
  | MEnable => Some (Ok (RValue JUndefined), mkPage (pg_world pg) (<[el := false]> (pg_inert pg)))
  | MConstructor => call_constructor (arg1 arg) (arg2 arg) pg
  end.

Definition ret_this (r : outcome unit * page) : outcome bridge_ret * page :=
  match r with
  | (Ok _, pg) => (Ok RThis, pg)
  | (Exc x, pg) => (Exc x, pg)
  end.

(** [$(els).viewpoint(arg, extra)] (lines 324-354); [extra] is the
    second argument as [reset] reads it.  [None] is a call of a member
    outside the model. *)
Definition viewpoint (els : list elem) (arg : bridge_arg) (extra : option (jsval * jsval))
    (pg : page) : option (outcome bridge_ret * page) :=
  match arg with
  | BObj o => Some (ret_this (each_new (Some o) els pg))
  | BVal v =>
      if negb (truthy v) then Some (ret_this (each_new None els pg))
      else
        match v, els with
        | JStr _, [] => Some (Exc no_element, pg)
        | JStr name, el :: _ =>
            match w_insts (pg_world pg) !! el, pg_inert pg !! el with
            | Some i, _ => m ← member_of name; call_tracker m extra el i pg
            | None, Some dis => m ← member_of name; call_inert m extra el dis pg
            | None, None => Some (Ok (RValue JUndefined), pg)
            end
        | _, _ => Some (Ok (RValue JUndefined), pg)
        end
  end.

(** The [:viewpoint] pseudo-selector (lines 335-338). *)
Definition viewpoint_selector (pg : page) (el : elem) : bool := has_data pg el.

End Bridge.

(** ** Lemmas *)

Lemma init_spec resolve o i :
  init resolve o = Ok i ->
  i = mkInst o (typeof_string (contentPane o)) (resolve (scrollElement o)) PNone ANone false.
Proof.
  unfold init. destruct (resolve (scrollElement o)) as [|s sw] eqn:Hs; [discriminate|].
  destruct (typeof_string (contentPane o)); [destruct (resolve (contentPane o)); [discriminate|]|];
    intros [= <-]; done.
Qed.

Lemma Viewpoint_tracker resolve opt i :
  Viewpoint resolve opt = Ok (CTracker i) ->
  exists o, opt = Some o /\ has_callback o = true /\ init resolve (extend defaultOptions o) = Ok i.
Proof.
  intros H. destruct opt as [o|]; [|discriminate]. exists o. split; [done|]. simpl in H.
  destruct (has_callback o); [|discriminate]. split; [done|].
  destruct (init resolve (extend defaultOptions o)); congruence.
Qed.

Lemma has_data_false pg el :
  has_data pg el = false -> w_insts (pg_world pg) !! el = None /\ pg_inert pg !! el = None.
Proof.
  unfold has_data. intros H. apply orb_false_iff in H as [H1 H2].
  apply bool_decide_eq_false in H1, H2.
  split; [destruct (w_insts _ !! el) | destruct (pg_inert pg !! el)]; try done; exfalso; eauto.
Qed.

Lemma has_data_true pg el :
  has_data pg el = true <-> is_Some (w_insts (pg_world pg) !! el) \/ is_Some (pg_inert pg !! el).
Proof. unfold has_data. rewrite orb_true_iff, !bool_decide_eq_true. done. Qed.

Lemma bind_tracker_inv el i w : world_inv w -> world_inv (bind_tracker el i w).
Proof. intros Hw. apply setupEvents_inv. eapply inv_tframe; [exact Hw|apply tframe_set_inst]. Qed.

Lemma store_inv el c pg : world_inv (pg_world pg) -> world_inv (pg_world (store el c pg)).
Proof. intros Hw. destruct c as [i|]; [apply bind_tracker_inv, Hw|exact Hw]. Qed.

Lemma each_new_inv resolve opt els pg :
  world_inv (pg_world pg) -> world_inv (pg_world (each_new resolve opt els pg).2).
Proof.
  revert pg. induction els as [|el els IH]; intros pg Hw; cbn [each_new]; [done|].
  repeat case_match; auto using store_inv.
Qed.

Lemma ret_this_page r : (ret_this r).2 = r.2.
Proof. by destruct r as [[]]. Qed.

(** Writing a well-formed snapshot into the world is a frame step. *)
Lemma set_cs_world_tframe cs w :
  (snapshot_wf (w_cs w) -> snapshot_wf cs) -> tframe w (set_cs_world cs w).
Proof. intros H. tframe_split; auto. Qed.

Lemma call_constructor_page x opt pg r pg' : call_constructor x opt pg = Some (r, pg') -> pg' = pg.
Proof. unfold call_constructor. case_match; [discriminate|]. by intros [= _ <-]. Qed.

(** [init] through the bridge writes the instance and, once its checks
    pass, binds it again. *)
Lemma call_init_cases resolve x el i pg r pg' :
  call_init resolve x el i pg = Some (r, pg') ->
  exists i', pg' = mkPage (set_inst el i' (pg_world pg)) (pg_inert pg) \/
             pg' = mkPage (bind_tracker el i' (pg_world pg)) (pg_inert pg).
Proof. unfold call_init, bind_tracker. intros Hc. repeat case_match; simplify_eq; eauto. Qed.

(** A method other than [setupEvents] and [init] touches neither the
    timers nor the bindings. *)
Lemma call_tracker_tframe resolve m arg el i pg r pg' :
  m <> MSetupEvents -> m <> MInit -> call_tracker resolve m arg el i pg = Some (r, pg') ->
  tframe (pg_world pg) (pg_world pg').
Proof.
  intros Hs Hi Hc. destruct m; cbn [call_tracker] in Hc; try congruence.
  - case_match; simplify_eq; apply tframe_refl.
  - simplify_eq. apply tframe_refl.
  - destruct (isInViewPoint (i_opts i) _) as [cs iv] eqn:E. simplify_eq. cbn [pg_world].
    apply set_cs_world_tframe. intros Hc.
    pose proof (isInViewPoint_wf (i_opts i) _ Hc) as H. rewrite E in H. exact H.
  - simplify_eq. apply set_cs_world_tframe, updateCurrentState_wf.
  - simplify_eq. apply (memory_ops_tframe (EvReset el arg)); done.
  - simplify_eq. apply (memory_ops_tframe (EvDisable el)); done.
  - simplify_eq. apply (memory_ops_tframe (EvEnable el)); done.
  - apply call_constructor_page in Hc. subst. apply tframe_refl.
  - simplify_eq. apply tframe_refl.
Qed.

Lemma call_tracker_inv resolve m arg el i pg r pg' :
  world_inv (pg_world pg) -> call_tracker resolve m arg el i pg = Some (r, pg') ->
  world_inv (pg_world pg').
Proof.
  intros Hw Hc. destruct (decide (m = MSetupEvents)) as [->|Hs].
  { cbn [call_tracker] in Hc. simplify_eq. apply setupEvents_inv, Hw. }
  destruct (decide (m = MInit)) as [->|Hi].
  { cbn [call_tracker] in Hc. destruct (call_init_cases _ _ _ _ _ _ _ Hc) as (i' & [-> | ->]);
      cbn [pg_world]; [eapply inv_tframe; [exact Hw|apply tframe_set_inst]|apply bind_tracker_inv, Hw]. }
  eapply inv_tframe; [exact Hw|]. eapply call_tracker_tframe; eauto.
Qed.

Lemma call_inert_world m arg el dis pg r pg' :
  call_inert m arg el dis pg = Some (r, pg') -> pg_world pg' = pg_world pg.
Proof.
  intros Hc. destruct m; cbn [call_inert] in Hc;
    try (apply call_constructor_page in Hc; by subst); repeat case_match; simplify_eq; done.
Qed.

(** What a call of the bridge does to the page: nothing, the [each]
    loop of a construction, a method of a tracker or a method of an
    inert instance. *)
Lemma viewpoint_cases resolve els arg extra pg r pg' :
  viewpoint resolve els arg extra pg = Some (r, pg') ->
  pg' = pg \/
  (exists opt els', pg' = (each_new resolve opt els' pg).2) \/
  (exists name el i m, arg = BVal (JStr name) /\ member_of name = Some m /\
     w_insts (pg_world pg) !! el = Some i /\ call_tracker resolve m extra el i pg = Some (r, pg')) \/
  (exists m el dis, call_inert m extra el dis pg = Some (r, pg')).
Proof.
  intros Hv. destruct arg as [o|v]; cbn [viewpoint] in Hv.
  { injection Hv as Hv. pose proof (f_equal snd Hv) as H. rewrite ret_this_page in H.
    cbn in H. eauto. }
  destruct (negb (truthy v)).
  { injection Hv as Hv. pose proof (f_equal snd Hv) as H. rewrite ret_this_page in H.
    cbn in H. eauto. }
  destruct v; try (injection Hv as _ <-; auto). destruct els as [|el els]; [injection Hv as _ <-; auto|].
  destruct (w_insts _ !! el) as [i|] eqn:Hi, (pg_inert pg !! el) as [dis|];
    destruct (member_of s) as [m|] eqn:Hm; cbn [mbind option_bind] in Hv; try discriminate;
    try (injection Hv as _ <-; auto; fail); eauto 12.
Qed.

Lemma viewpoint_inv resolve els arg extra pg r pg' :
  world_inv (pg_world pg) -> viewpoint resolve els arg extra pg = Some (r, pg') ->
  world_inv (pg_world pg').
Proof.
  intros Hw Hv.
  destruct (viewpoint_cases _ _ _ _ _ _ _ Hv)
    as [->|[(opt & els' & ->)|[(name & el & i & m & _ & _ & _ & Hc)|(m & el & dis & Hc)]]].
  - exact Hw.
  - apply each_new_inv, Hw.
  - eapply call_tracker_inv; eauto.
  - rewrite (call_inert_world _ _ _ _ _ _ _ Hc). exact Hw.
Qed.

Lemma store_keeps el c pg e :
  has_data pg el = false -> has_data pg e = true ->
  w_insts (pg_world (store el c pg)) !! e = w_insts (pg_world pg) !! e /\
  has_data (store el c pg) e = true.
Proof.
  intros Hel He. assert (Hne : e <> el) by (intros ->; congruence).
  rewrite has_data_true in He |- *.
  destruct c as [i|]; cbn [store pg_world pg_inert bind_tracker setupEvents set_inst w_insts].
  - rewrite lookup_insert_ne by congruence. done.
  - rewrite lookup_insert_ne by congruence. done.
Qed.

(** [new Viewpoint(el, o)] when [o] sets a callback and the elements
    [init] looks up exist. *)
Lemma Viewpoint_ok resolve o :
  let o' := extend defaultOptions o in
  has_callback o = true -> resolve (scrollElement o') <> [] ->
  (typeof_string (contentPane o') = true -> resolve (contentPane o') <> []) ->
  Viewpoint resolve (Some o) =
  Ok (CTracker (mkInst o' (typeof_string (contentPane o')) (resolve (scrollElement o')) PNone ANone false)).
Proof.
  cbv zeta. intros Hc Hs Hp. unfold Viewpoint. rewrite Hc.
  unfold init. destruct (resolve (scrollElement _)) as [|s sw]; [done|].
  destruct (typeof_string _); [|done].
  destruct (resolve (contentPane _)); [exfalso; apply Hp; done|done].
Qed.

Lemma viewpoint_new_one resolve pg el o c extra :
  has_data pg el = false -> Viewpoint resolve (Some o) = Ok c ->
  viewpoint resolve [el] (BObj o) extra pg = Some (Ok RThis, store el c pg).
Proof. intros Hd Hv. cbn [viewpoint each_new]. rewrite ?Hd, Hv. done. Qed.

(** [$(el).viewpoint("setupEvents")] on a tracker. *)
Lemma viewpoint_setupEvents resolve pg el els i extra :
  w_insts (pg_world pg) !! el = Some i ->
  viewpoint resolve (el :: els) (BVal (JStr "setupEvents")) extra pg =
  Some (Ok (RInstance el), mkPage (setupEvents el (pg_world pg)) (pg_inert pg)).
Proof. intros Hi. cbn [viewpoint truthy]. rewrite Hi. reflexivity. Qed.

(** ** Properties of the bridge *)

Section BridgeTheorems.
Variable resolve : jsval -> list elem.

(** C13: a call with a plain object that sets a callback, on an element
    with no instance yet, binds a tracker with the merged options, the
    resolved scroll elements, a fresh memory and no pending timer, when
    the scroll element and a content pane given by a selector exist. *)
Theorem bridge_binds_tracker (pg : page) (el : elem) (o : options) extra :
  let o' := extend defaultOptions o in
  has_data pg el = false -> has_callback o = true -> resolve (scrollElement o') <> [] ->
  (typeof_string (contentPane o') = true -> resolve (contentPane o') <> []) ->
  viewpoint resolve [el] (BObj o) extra pg =
  Some (Ok RThis, mkPage (bind_tracker el (mkInst o' (typeof_string (contentPane o'))
                                               (resolve (scrollElement o')) PNone ANone false)
                                    (pg_world pg)) (pg_inert pg)).
Proof.
  cbv zeta. intros Hd Hc Hs Hp.
  rewrite (viewpoint_new_one resolve pg el o _ extra Hd (Viewpoint_ok resolve o Hc Hs Hp)). done.
Qed.

(** C14: a call whose object sets no callback stores an inert instance,
    and the [$.data] guard then makes every later call on the element
    do nothing: the element is never tracked. *)
Theorem no_callbacks_blocks_binding (pg : page) (el : elem) (o o' : options) x y :
  has_data pg el = false -> has_callback o = false ->
  let pg1 := mkPage (pg_world pg) (<[el := false]> (pg_inert pg)) in
  viewpoint resolve [el] (BObj o) x pg = Some (Ok RThis, pg1) /\
  viewpoint resolve [el] (BObj o') y pg1 = Some (Ok RThis, pg1) /\
  w_insts (pg_world pg1) !! el = None.
Proof.
  intros Hd Hc. cbv zeta. cbn [viewpoint each_new]. rewrite Hd. unfold Viewpoint. rewrite Hc.
  cbn [store each_new ret_this]. split; [done|]. split; [|exact (proj1 (has_data_false pg el Hd))].
  replace (has_data _ el) with true; [done|]. symmetry. apply has_data_true. right.
  cbn [pg_inert]. rewrite lookup_insert_eq. eauto.
Qed.

(** C16: when the scroll element of the merged options selects nothing,
    the call throws ["scrollElement not found"] at the first element
    without an instance and leaves the page as it was. *)
Theorem scroll_element_missing_throws (pg : page) (els : list elem) (o : options) x :
  has_callback o = true -> resolve (scrollElement (extend defaultOptions o)) = [] ->
  viewpoint resolve els (BObj o) x pg =
  Some (if forallb (has_data pg) els then Ok RThis else Exc (Thrown "scrollElement not found"), pg).
Proof.
  intros Hc Hs. cbn [viewpoint]. f_equal.
  induction els as [|el els IH]; [done|]. cbn [each_new forallb].
  destruct (has_data pg el); [exact IH|]. unfold Viewpoint, init. rewrite Hc, Hs. done.
Qed.

(** C20: a construction call never replaces an instance: every element
    that had one keeps it, and keeps its [$.data]. *)
Theorem existing_instances_kept (pg pg' : page) (els : list elem) (o : options) x r (e : elem) :
  has_data pg e = true -> viewpoint resolve els (BObj o) x pg = Some (r, pg') ->
  w_insts (pg_world pg') !! e = w_insts (pg_world pg) !! e /\ has_data pg' e = true.
Proof.
  intros He Hv. cbn [viewpoint] in Hv. injection Hv as Hv.
  pose proof (f_equal snd Hv) as H. rewrite ret_this_page in H. cbn in H. subst pg'. clear Hv.
  revert pg He. induction els as [|el els IH]; intros pg He; [done|].
  cbn [each_new]. destruct (has_data pg el) eqn:Hd; [apply IH, He|].
  destruct (Viewpoint resolve (Some o)) as [c|]; [|done].
  destruct (store_keeps el c pg e Hd He) as [E1 E2]. rewrite <- E1. apply IH, E2.
Qed.

End BridgeTheorems.

(** ** The method branch *)

Lemma viewpoint_method resolve el els name extra pg :
  name <> "" ->
  viewpoint resolve (el :: els) (BVal (JStr name)) extra pg =
  match w_insts (pg_world pg) !! el, pg_inert pg !! el with
  | Some i, _ => m ← member_of name; call_tracker resolve m extra el i pg
  | None, Some dis => m ← member_of name; call_inert m extra el dis pg
  | None, None => Some (Ok (RValue JUndefined), pg)
  end.
Proof.
  intros Hn. cbn [viewpoint truthy]. destruct (String.eqb_spec name ""); [done|]. done.
Qed.

(** [init]'s checks passed. *)
Lemma init_checks resolve o i :
  init resolve o = Ok i ->
  resolve (scrollElement o) <> [] /\ (typeof_string (contentPane o) = true -> resolve (contentPane o) <> []).
Proof.
  unfold init. destruct (resolve (scrollElement o)); [discriminate|].
  destruct (typeof_string (contentPane o)), (resolve (contentPane o)); done.
Qed.

Lemma mkInst_eta i :
  mkInst (i_opts i) (i_pane i) (i_sWindow i) (i_isCalled i) (i_isAffixTopCalled i) (i_isDisable i) = i.
Proof. by destruct i. Qed.

Lemma set_inst_same el i w : w_insts w !! el = Some i -> set_inst el i w = w.
Proof. intros H. destruct w. unfold set_inst. cbn in *. by rewrite insert_id. Qed.

Section MethodTheorems.
Variable resolve : jsval -> list elem.

(** C24: [$(el).viewpoint("isInViewPoint")] on a tracker samples
    nothing: it evaluates the tracker's options against the geometry
    last stored in the shared [currentState], whichever element it was
    sampled for. *)
Theorem bridge_isInViewPoint_stored_geometry (pg : page) (el : elem) (els : list elem) extra
    (i : inst) (g : geometry) :
  w_insts (pg_world pg) !! el = Some i -> cs_geo (w_cs (pg_world pg)) = Some g ->
  exists pg', viewpoint resolve (el :: els) (BVal (JStr "isInViewPoint")) extra pg =
                Some (Ok (RValue (JBool (in_view_of (i_opts i) g))), pg') /\
              cs_geo (w_cs (pg_world pg')) = Some g.
Proof.
  intros Hi Hg. rewrite viewpoint_method by done. rewrite Hi.
  replace (member_of "isInViewPoint") with (Some MIsInViewPoint) by reflexivity.
  cbn [mbind option_bind call_tracker]. destruct (isInViewPoint_result (i_opts i) _ g Hg) as [R G].
  destruct (isInViewPoint (i_opts i) (w_cs (pg_world pg))) as [cs iv]. cbn in R, G. subst iv.
  eexists. split; [reflexivity|exact G].
Qed.

(** C32: [$(el).viewpoint("init", element)] on a tracker, with
    [$(element)] the tracker's own element, resolves [sWindow] and
    [$contentPane] to what they already are and runs [setupEvents]: it
    binds a further set of handlers, exactly as
    [$(el).viewpoint("setupEvents")] does, and returns [undefined]. *)
Theorem bridge_init_rebinds (pg : page) (el : elem) (els : list elem) (i i0 : inst) (x y : jsval) :
  w_insts (pg_world pg) !! el = Some i ->
  init resolve (i_opts i) = Ok i0 -> i_sWindow i = i_sWindow i0 -> i_pane i = i_pane i0 ->
  truthy x = true -> resolve x = [el] ->
  viewpoint resolve (el :: els) (BVal (JStr "init")) (Some (x, y)) pg =
  Some (Ok (RValue JUndefined), mkPage (setupEvents el (pg_world pg)) (pg_inert pg)).
Proof.
  intros Hi Hinit Hsw Hpane Hx Hr. destruct (init_checks _ _ _ Hinit) as [Hsc Hcp].
  apply init_spec in Hinit. subst i0. cbn [i_sWindow i_pane] in Hsw, Hpane.
  rewrite viewpoint_method, Hi by discriminate.
  replace (member_of "init") with (Some MInit) by reflexivity.
  cbn [mbind option_bind call_tracker arg1 from_option fst]. unfold call_init.
  rewrite <- Hsw. destruct (i_sWindow i) as [|s0 sw] eqn:Es; [by rewrite Hsw in Hsc|].
  rewrite Hx, (bool_decide_eq_true_2 (resolve x = [el])) by exact Hr. cbn [andb].
  destruct (typeof_string (contentPane (i_opts i))) eqn:Ec; cbn [andb].
  - rewrite bool_decide_eq_false_2 by (apply Hcp; done). rewrite <- Hpane, <- Es, mkInst_eta.
    rewrite set_inst_same by exact Hi. done.
  - rewrite <- Es, mkInst_eta, set_inst_same by exact Hi. done.
Qed.

End MethodTheorems.

(** ** Concrete pages

    [$()] selects [window] ([0]) and nothing else; the caller's objects
    set [inView] only, nothing, or [inView] with a scroll element
    selector that matches nothing. *)
Definition resolve_window (v : jsval) : list elem :=
  match v with JObj 0 => [0] | _ => [] end.

Definition caller_obj (iv sc : jsval) : options :=
  mkOptions sc JUndefined JUndefined JUndefined iv JUndefined JUndefined JUndefined JUndefined
            JUndefined JUndefined JUndefined JUndefined JUndefined JUndefined JUndefined
            JUndefined JUndefined.

Definition page0 : page := empty_page (fun _ => sample_in_view) (fun e => [e]).

Lemma bridge_binds_tracker_witness :
  viewpoint resolve_window [7] (BObj (caller_obj (JFun 1) JUndefined)) None page0 =
  Some (Ok RThis, mkPage (bind_tracker 7 (mkInst (extend defaultOptions (caller_obj (JFun 1) JUndefined))
                                               false [0] PNone ANone false)
                                    (pg_world page0)) (pg_inert page0)).
Proof.
  apply (bridge_binds_tracker resolve_window page0 7 (caller_obj (JFun 1) JUndefined) None);
    vm_compute; try reflexivity; discriminate.
Defined.

Lemma no_callbacks_blocks_binding_witness :
  let pg1 := mkPage (pg_world page0) (<[7 := false]> (pg_inert page0)) in
  viewpoint resolve_window [7] (BObj (caller_obj JUndefined JUndefined)) None page0 = Some (Ok RThis, pg1) /\
  viewpoint resolve_window [7] (BObj (caller_obj (JFun 1) JUndefined)) None pg1 = Some (Ok RThis, pg1) /\
  w_insts (pg_world pg1) !! 7 = None.
Proof. apply no_callbacks_blocks_binding; vm_compute; reflexivity. Defined.

Lemma scroll_element_missing_throws_witness :
  viewpoint resolve_window [7; 8] (BObj (caller_obj (JFun 1) (JStr "#pane"))) None page0 =
  Some (Exc (Thrown "scrollElement not found"), page0).
Proof.
  apply (scroll_element_missing_throws resolve_window page0 [7; 8]
           (caller_obj (JFun 1) (JStr "#pane")) None); vm_compute; reflexivity.
Defined.

(** The page after [$(7).viewpoint({inView: f})]. *)
Definition page1 : page :=
  mkPage (bind_tracker 7 (mkInst (extend defaultOptions (caller_obj (JFun 1) JUndefined))
                                 false [0] PNone ANone false) (pg_world page0)) ∅.

Lemma existing_instances_kept_witness :
  viewpoint resolve_window [7; 8] (BObj (caller_obj (JFun 2) JUndefined)) None page1 =
    Some (Ok RThis, mkPage (bind_tracker 8 (mkInst (extend defaultOptions (caller_obj (JFun 2) JUndefined))
                                                 false [0] PNone ANone false)
                                      (pg_world page1)) ∅) /\
  w_insts (pg_world (mkPage (bind_tracker 8 (mkInst (extend defaultOptions (caller_obj (JFun 2) JUndefined))
                                                 false [0] PNone ANone false)
                                      (pg_world page1)) ∅)) !! 7 = w_insts (pg_world page1) !! 7 /\
  has_data (mkPage (bind_tracker 8 (mkInst (extend defaultOptions (caller_obj (JFun 2) JUndefined))
                                         false [0] PNone ANone false)
                              (pg_world page1)) ∅) 7 = true.
Proof.
  assert (H : viewpoint resolve_window [7; 8] (BObj (caller_obj (JFun 2) JUndefined)) None page1 =
    Some (Ok RThis, mkPage (bind_tracker 8 (mkInst (extend defaultOptions (caller_obj (JFun 2) JUndefined))
                                                 false [0] PNone ANone false)
                                      (pg_world page1)) ∅)) by (vm_compute; reflexivity).
  split; [exact H|]. eapply existing_instances_kept; [vm_compute; reflexivity | exact H].
Defined.

(** Tracker [8] sampled last: the stored geometry is [8]'s. *)
Definition page_shared : page :=
  mkPage (set_cs_world (updateCurrentState false (i_opts solo_inst) sample_off_top empty_snapshot)
            (bind_tracker 8 solo_inst (pg_world page1))) ∅.

Lemma bridge_isInViewPoint_stored_geometry_witness :
  exists pg', viewpoint resolve_window [7] (BVal (JStr "isInViewPoint")) None page_shared =
                Some (Ok (RValue (JBool (in_view_of (extend defaultOptions (caller_obj (JFun 1) JUndefined))
                                                     (sample_geometry false sample_off_top)))), pg') /\
              cs_geo (w_cs (pg_world pg')) = Some (sample_geometry false sample_off_top).
Proof.
  apply (bridge_isInViewPoint_stored_geometry resolve_window page_shared 7 [] None
           (mkInst (extend defaultOptions (caller_obj (JFun 1) JUndefined)) false [0] PNone ANone false)); vm_compute; reflexivity.
Defined.

(** On that page, the call on [7] answers [false] although [7]'s own
    element is in view (its layout is [sample_in_view]). *)
Example bridge_isInViewPoint_other_element :
  in_view_of (extend defaultOptions (caller_obj (JFun 1) JUndefined))
             (sample_geometry false sample_off_top) = false /\
  in_view_of (extend defaultOptions (caller_obj (JFun 1) JUndefined))
             (sample_geometry false sample_in_view) = true.
Proof. split; vm_compute; reflexivity. Qed.

(** [$()] selects the element an object names. *)
Definition resolve_objs (v : jsval) : list elem :=
  match v with JObj n => [n] | _ => [] end.

Lemma bridge_init_rebinds_witness :
  viewpoint resolve_objs [7] (BVal (JStr "init")) (Some (JObj 7, JUndefined)) page1 =
  Some (Ok (RValue JUndefined), mkPage (setupEvents 7 (pg_world page1)) (pg_inert page1)).
Proof.
  apply (bridge_init_rebinds resolve_objs page1 7 []
           (mkInst (extend defaultOptions (caller_obj (JFun 1) JUndefined)) false [0] PNone ANone false)
           (mkInst (extend defaultOptions (caller_obj (JFun 1) JUndefined)) false [0] PNone ANone false));
    vm_compute; reflexivity.
Defined.
