(* ===== verification/Page.v ===== *)
(** * Runs of a page: bridge calls and host events from the empty page

    A script on the page calls the bridge ([Bridge.viewpoint]) and the
    host delivers its events ([Tracker.step]); a [page_event] is one or
    the other.  A script's uncaught exception from the bridge leaves the
    page as the bridge left it.  A run stops ([None]) at a bridge call
    outside the model: [init] pointing an instance at other elements,
    [constructor] given an object, the members every object inherits.

    The theorems: every page a run reaches satisfies the world
    invariant, so a tracker bound once never has two pending scroll
    timers; and each [setupEvents] call through the bridge adds a
    full set of handlers, so that one scroll notification evaluates the
    element once per pair of bindings. *)

From S2P Require Import Prelude JsNumber JsValue Options Offsets Edges Sampler Dispatch Tracker Bridge.
From stdpp Require Import base list strings gmap sets.
From Stdlib Require Import QArith.
Local Close Scope Q_scope.

Inductive page_event :=
  | PBridge (els : list elem) (arg : bridge_arg) (extra : option (jsval * jsval))
  | PHost (ev : event).

Definition page_step (resolve : jsval -> list elem) (pg : page) (pe : page_event) : option page :=
  match pe with
  | PBridge els arg extra => snd <$> viewpoint resolve els arg extra pg
  | PHost ev => Some (mkPage (step (pg_world pg) ev) (pg_inert pg))
  end.

Fixpoint page_run (resolve : jsval -> list elem) (pes : list page_event) (pg : page) : option page :=
  match pes with
  | [] => Some pg
  | pe :: rest => pg' ← page_step resolve pg pe; page_run resolve rest pg'
  end.

(** ** Lemmas *)

Lemma page_step_inv resolve pg pe pg' :
  world_inv (pg_world pg) -> page_step resolve pg pe = Some pg' -> world_inv (pg_world pg').
Proof.
  intros Hw Hs. destruct pe as [els arg extra|ev]; cbn [page_step] in Hs.
  - destruct (viewpoint resolve els arg extra pg) as [[r pg'']|] eqn:Hv; [|discriminate].
    injection Hs as <-. eapply viewpoint_inv; eauto.
  - injection Hs as <-. apply step_inv, Hw.
Qed.

Lemma page_run_inv resolve pes pg pg' :
  world_inv (pg_world pg) -> page_run resolve pes pg = Some pg' -> world_inv (pg_world pg').
Proof.
  revert pg. induction pes as [|pe pes IH]; intros pg Hw Hr; cbn [page_run] in Hr.
  - injection Hr as <-. exact Hw.
  - destruct (page_step resolve pg pe) as [pg1|] eqn:Hs; [|discriminate].
    eapply IH; [eapply page_step_inv; eauto | exact Hr].
Qed.

Lemma empty_page_inv L P : world_inv (pg_world (empty_page L P)).
Proof. split; [constructor|]. split; [constructor|]. split; [constructor|]. apply empty_snapshot_wf. Qed.

(** [k] calls of [$(el).viewpoint("setupEvents")] on a tracker. *)
Lemma page_run_setupEvents resolve k el rest pg :
  is_Some (w_insts (pg_world pg) !! el) ->
  page_run resolve (repeat (PBridge [el] (BVal (JStr "setupEvents")) None) k ++ rest) pg =
  page_run resolve rest (mkPage (Nat.iter k (setupEvents el) (pg_world pg)) (pg_inert pg)).
Proof.
  revert pg. induction k as [|k IH]; intros pg [i Hi]; [by destruct pg|].
  cbn [repeat app page_run page_step]. rewrite (viewpoint_setupEvents resolve pg el [] i) by done.
  cbn [fmap option_fmap option_map snd mbind option_bind]. rewrite IH by (cbn; eauto).
  rewrite Nat.iter_succ_r. done.
Qed.

Lemma iter_setupEvents k el w :
  Nat.iter k (setupEvents el) w =
  mkWorld (w_now w) (w_insts w) (w_order w ++ repeat (mkBinding el None None) k) (w_cs w)
          (w_timers w) (w_next w) (w_calls w) (w_evals w) (w_errors w) (w_layout w) (w_path w).
Proof.
  induction k as [|k IH]; [cbn [Nat.iter repeat]; rewrite app_nil_r; by destruct w|].
  rewrite Nat.iter_succ, IH. unfold setupEvents. cbn [w_order repeat].
  rewrite repeat_cons, app_assoc. done.
Qed.

(** ** Properties of page runs *)

Section PageTheorems.
Variable resolve : jsval -> list elem.

(** C5: on every page a run reaches from the empty page by calls of the
    bridge and events of the host, a tracker whose handlers were bound
    once has at most one pending scroll timer. *)
Theorem page_scroll_timer_unique (L : elem -> sample) (P : elem -> list elem)
    (pes : list page_event) (pg : page) (t1 t2 : timer) :
  page_run resolve pes (empty_page L P) = Some pg ->
  t1 ∈ w_timers (pg_world pg) -> t2 ∈ w_timers (pg_world pg) ->
  tm_kind t1 = KScroll -> tm_kind t2 = KScroll -> tm_owner t1 = tm_owner t2 ->
  bind_count (pg_world pg) (tm_owner t1) <= 1 -> t1 = t2.
Proof.
  intros Hr. apply scroll_timer_once. exact (page_run_inv resolve pes _ pg (empty_page_inv L P) Hr).
Qed.

(** C27: [setupEvents] called through the bridge binds a second full
    set of handlers, with debounce variables of their own.  After a
    tracker is created and [setupEvents] is called [k] more times, one
    scroll notification leads, once the delay has passed, to
    [(k + 1) * (k + 1)] evaluations of the element instead of one: each
    of the [k + 1] scroll handlers arms a timer, and each timer triggers
    the [k + 1] [checkViewPoint] handlers of the element. *)
Theorem setupEvents_evaluations_square (L : elem -> sample) (P : elem -> list elem)
    (el tg : elem) (o : options) (k : nat) (dt : Z) :
  let o' := extend defaultOptions o in
  has_callback o = true -> callable o' = true -> tg ∈ resolve (scrollElement o') ->
  (typeof_string (contentPane o') = true -> resolve (contentPane o') <> []) ->
  P el = [el] -> (timeout_ms (delay o') <= dt)%Z ->
  exists pg,
    page_run resolve ([PBridge [el] (BObj o) None] ++
                      repeat (PBridge [el] (BVal (JStr "setupEvents")) None) k ++
                      [PHost (EvScroll tg); PHost (EvAdvance dt)]) (empty_page L P) = Some pg /\
    w_evals (pg_world pg) = repeat el (S k * S k).
Proof.
  cbv zeta. intros Hc Hcl Htg Hp HP Hdt.
  set (i := mkInst (extend defaultOptions o) (typeof_string (contentPane (extend defaultOptions o)))
                   (resolve (scrollElement (extend defaultOptions o))) PNone ANone false).
  assert (Hs : resolve (scrollElement (extend defaultOptions o)) <> []) by (intros E; rewrite E in Htg; set_solver).
  cbn [app page_run page_step].
  rewrite (viewpoint_new_one resolve _ el o (CTracker i) None) by (done || apply Viewpoint_ok; done).
  cbn [fmap option_fmap option_map snd mbind option_bind store].
  rewrite page_run_setupEvents by (cbn [pg_world bind_tracker setupEvents set_inst w_insts];
                                   rewrite lookup_insert_eq; eauto).
  cbn [page_run page_step fmap option_fmap option_map mbind option_bind pg_world].
  eexists. split; [reflexivity|]. cbn [pg_world].
  rewrite iter_setupEvents. unfold bind_tracker.
  match goal with |- w_evals (step (step ?w _) _) = _ => set (w2 := w) end.
  change (step (step w2 (EvScroll tg)) (EvAdvance dt)) with (run [EvScroll tg; EvAdvance dt] w2).
  assert (Ho : w_order w2 = repeat (mkBinding el None None) (S k)) by reflexivity.
  rewrite (rebound_scroll_evals w2 el tg i dt); [rewrite Ho, repeat_length; reflexivity| | |
    |exact Hcl|reflexivity|exact Htg|reflexivity|exact Hdt].
  - rewrite Ho. apply Forall_forall. intros b Hb. apply list_elem_of_In, repeat_spec in Hb.
    subst b. done.
  - exact HP.
  - change (w_insts w2) with (<[el := i]> (∅ : gmap elem inst)). apply lookup_insert_eq.
Qed.

End PageTheorems.

(** ** A concrete run *)

Definition run0 : list page_event :=
  [PBridge [7] (BObj (caller_obj (JFun 1) JUndefined)) None; PHost (EvScroll 0);
   PHost (EvScroll 0); PBridge [7] (BVal (JStr "disable")) None].

Lemma page_scroll_timer_unique_witness :
  exists pg, page_run resolve_window run0 page0 = Some pg /\
    w_timers (pg_world pg) = [mkTimer 1 70 7 KScroll] /\
    mkTimer 1 70 7 KScroll = mkTimer 1 70 7 KScroll.
Proof.
  destruct (page_run resolve_window run0 page0) as [pg|] eqn:E; [|vm_compute in E; discriminate].
  assert (T : w_timers (pg_world pg) = [mkTimer 1 70 7 KScroll])
    by (vm_compute in E; injection E as <-; reflexivity).
  exists pg. split; [done|]. split; [exact T|].
  apply (page_scroll_timer_unique resolve_window (fun _ => sample_in_view) (fun e => [e]) run0
           pg (mkTimer 1 70 7 KScroll) (mkTimer 1 70 7 KScroll) E);
    [rewrite T; left | rewrite T; left | reflexivity | reflexivity | reflexivity
    | vm_compute in E; injection E as <-; vm_compute; lia].
Defined.

(** The tracker of [7] created, then [setupEvents] called once more:
    one scroll, four evaluations. *)
Lemma setupEvents_evaluations_square_witness :
  exists pg,
    page_run resolve_window ([PBridge [7] (BObj (caller_obj (JFun 1) JUndefined)) None] ++
                             repeat (PBridge [7] (BVal (JStr "setupEvents")) None) 1 ++
                             [PHost (EvScroll 0); PHost (EvAdvance 70)]) page0 = Some pg /\
    w_evals (pg_world pg) = [7; 7; 7; 7].
Proof.
  apply (setupEvents_evaluations_square resolve_window (fun _ => sample_in_view) (fun e => [e])
           7 0 (caller_obj (JFun 1) JUndefined) 1 70);
    [reflexivity | reflexivity | vm_compute; left | vm_compute; discriminate | reflexivity
    | vm_compute; discriminate].
Defined.
