(* ===== verification/PageSchedule.v ===== *)
(** * The debounce of whole page runs

    [Schedule] shows that host events implement the specification's
    debounce on a world where every element is bound once.  On a page,
    scripts also call the bridge between host events: they construct
    trackers ([each_new], which binds each new tracker once), and call
    the methods of trackers and inert instances.  This file composes the
    bridge with the scheduler: from the empty page, every run whose
    bridge calls call neither [setupEvents] nor [init] and whose host events
    are not [resize] keeps each element's pending scroll timers equal to
    the specification's pending re-evaluation.  Bridge calls change no
    pending re-evaluation (a tracker constructed by the bridge starts
    with no timer), host events change them as [spec_sched] says.

    The invariant of the composition, [page_sched_inv], adds to
    [sched_inv] that every element is bound at most once and a bound
    element has an instance ([bound_once]): the [each] loop skips an
    element with data, so it never binds an element twice.  The same
    invariant bounds the pending scroll timers of every element by one
    on every page such runs reach, [resize] included. *)

From S2P Require Import Prelude JsNumber JsValue Options Offsets Edges Sampler Dispatch Tracker Timers Schedule Bridge Page.
From stdpp Require Import base list strings gmap sets.
From Stdlib Require Import QArith.
Local Close Scope Q_scope.

(** ** The abstract run of a page *)

(** A bridge call of [setupEvents] or [init], which bind a tracker
    once more. *)
Definition rebinds (pe : page_event) : bool :=
  match pe with
  | PBridge _ (BVal (JStr name)) _ =>
      bool_decide (member_of name = Some MSetupEvents) || bool_decide (member_of name = Some MInit)
  | _ => false
  end.

Definition page_resize (pe : page_event) : bool :=
  match pe with PHost ev => is_resize ev | PBridge _ _ _ => false end.

(** Bridge calls leave the pending re-evaluations; host events
    reschedule them as the specification says. *)
Definition page_spec_step (pg : page) (pe : page_event) (a : pending) : pending :=
  match pe with
  | PBridge _ _ _ => a
  | PHost ev => spec_sched (pg_world pg) ev a
  end.

(** The abstract state along a run; the configuration each step reads
    (instances, bindings, clock) is the page the run reaches. *)
Fixpoint page_spec_run (resolve : jsval -> list elem) (pes : list page_event) (pg : page)
    (a : pending) : pending :=
  match pes with
  | [] => a
  | pe :: rest =>
      match page_step resolve pg pe with
      | Some pg' => page_spec_run resolve rest pg' (page_spec_step pg pe a)
      | None => a
      end
  end.

(** ** The invariant *)

(** Every instance of [w] is still there in [w']. *)
Definition keeps_insts (w w' : world) : Prop :=
  forall x, is_Some (w_insts w !! x) -> is_Some (w_insts w' !! x).

Definition bound_once (w : world) : Prop :=
  forall e, bind_count w e <= 1 /\ (bind_count w e <> 0 -> is_Some (w_insts w !! e)).

Definition page_sched_inv (pg : page) : Prop :=
  sched_inv (pg_world pg) /\ bound_once (pg_world pg).

(** ** No step drops an instance *)

Lemma keeps_insts_trans w1 w2 w3 : keeps_insts w1 w2 -> keeps_insts w2 w3 -> keeps_insts w1 w3.
Proof. intros H1 H2 x Hx. auto. Qed.

Lemma keeps_insts_set_inst e i w : keeps_insts w (set_inst e i w).
Proof.
  intros x Hx. cbn [set_inst w_insts]. apply lookup_insert_is_Some'.
  destruct (decide (e = x)); auto.
Qed.

Lemma grows_keeps_insts w w' : grows w w' -> keeps_insts w w'.
Proof. intros (I & _). exact I. Qed.

Lemma keeps_insts_fold {A} (f : A -> world -> world) l w :
  (forall x w, keeps_insts w (f x w)) -> keeps_insts w (fold_left (fun w x => f x w) l w).
Proof.
  intros Hf. apply (fold_pres (keeps_insts w)); [|intros x Hx; exact Hx].
  intros x w' H. eapply keeps_insts_trans; [exact H|apply Hf].
Qed.

Lemma report_trigger_keeps_insts nm p w : keeps_insts w (report (trigger_path nm p w)).
Proof. apply grows_keeps_insts. eapply grows_trans; [apply trigger_path_grows|apply report_grows]. Qed.

#[local] Hint Resolve keeps_insts_set_inst report_trigger_keeps_insts : core.

Lemma step_keeps_insts w ev : keeps_insts w (step w ev).
Proof.
  destruct ev as [| tg | tg | dt | L | el nm | el opt | el | el]; cbn [step].
  - apply keeps_insts_fold. intros k w'. unfold ready_handler, with_binding.
    repeat case_match; try (intros x Hx; exact Hx). unfold triggerCheckViewpoint.
    case_match; auto. intros x Hx; exact Hx.
  - apply keeps_insts_fold. intros k w'. unfold on_target, with_binding.
    repeat case_match; intros x Hx; try exact Hx; rewrite (proj1 (proj1 (handlers_keep_insts k w'))); exact Hx.
  - apply keeps_insts_fold. intros k w'. unfold on_target, with_binding.
    repeat case_match; intros x Hx; try exact Hx; rewrite (proj1 (proj2 (handlers_keep_insts k w'))); exact Hx.
  - unfold advance. apply grows_keeps_insts.
    eapply grows_trans; [|apply set_now_grows]. apply (fire_all_grows _ (set_timers _ w)).
  - intros x Hx. exact Hx.
  - auto.
  - unfold reset_inst. case_match; auto. intros x Hx; exact Hx.
  - unfold disable. case_match; auto. intros x Hx; exact Hx.
  - unfold enable. case_match; auto. intros x Hx; exact Hx.
Qed.

(** ** [bound_once] *)

Lemma bound_once_frame w w' :
  bound_els w' = bound_els w -> keeps_insts w w' -> bound_once w -> bound_once w'.
Proof.
  intros B K H e. rewrite (bind_count_bound_els _ _ e B). destruct (H e) as [H1 H2]. split; auto.
Qed.

(** Binding a tracker to an element with no instance binds it once. *)
Lemma bound_once_bind el i w :
  w_insts w !! el = None -> bound_once w -> bound_once (bind_tracker el i w).
Proof.
  intros Hn H e. unfold bind_tracker. rewrite bind_count_setupEvents.
  replace (bind_count (set_inst el i w) e) with (bind_count w e) by done.
  cbn [setupEvents set_inst w_insts]. destruct (H e) as [H1 H2].
  destruct (Nat.eqb_spec el e) as [<-|Hne].
  - assert (bind_count w el = 0) as ->.
    { destruct (bind_count w el) eqn:Hc; [done|]. destruct H2; [lia|congruence]. }
    split; [lia|]. intros _. rewrite lookup_insert_eq. eauto.
  - split; [lia|]. intros Hc. rewrite lookup_insert_ne by done. auto.
Qed.

(** ** The bridge keeps the invariant and the timers *)

(** A new binding holds no timer id. *)
Lemma ids_inv_setupEvents el w : ids_inv w -> ids_inv (setupEvents el w).
Proof.
  intros H k b id Hk Hs. cbn [setupEvents w_order w_timers w_next] in *.
  apply lookup_app_Some in Hk as [Hk|[_ Hk]]; [exact (H k b id Hk Hs)|].
  apply list_lookup_singleton_Some in Hk as [_ <-]. discriminate.
Qed.

Lemma sched_inv_bind el i w : sched_inv w -> sched_inv (bind_tracker el i w).
Proof.
  intros [Hw H]. split; [apply bind_tracker_inv, Hw|].
  apply ids_inv_setupEvents. eapply ids_inv_tframe; [exact H|apply tframe_set_inst].
Qed.

(** A bridge step from [pg] to [pg']: the invariant holds and the timers
    are those of [pg]. *)
Definition bridge_keeps (pg pg' : page) : Prop :=
  page_sched_inv pg' /\ w_timers (pg_world pg') = w_timers (pg_world pg).

Lemma bridge_keeps_trans pg1 pg2 pg3 :
  bridge_keeps pg1 pg2 -> bridge_keeps pg2 pg3 -> bridge_keeps pg1 pg3.
Proof. intros [_ T1] [I T2]. split; [exact I|congruence]. Qed.

Lemma bridge_keeps_tframe pg pg' :
  page_sched_inv pg -> tframe (pg_world pg) (pg_world pg') ->
  keeps_insts (pg_world pg) (pg_world pg') -> bridge_keeps pg pg'.
Proof.
  intros [Hs Hb] Ht Hk. split; [split|apply Ht].
  - eapply sched_inv_tframe; eauto.
  - eapply bound_once_frame; [apply tframe_bound_els, Ht|exact Hk|exact Hb].
Qed.

Lemma store_keeps_sched el c pg :
  has_data pg el = false -> page_sched_inv pg -> bridge_keeps pg (store el c pg).
Proof.
  intros Hd [Hs Hb]. apply has_data_false in Hd as [Hn _]. destruct c as [i|]; cbn [store pg_world].
  - split; [split|done]; [apply sched_inv_bind, Hs|apply bound_once_bind; done].
  - split; [split|]; done.
Qed.

Lemma each_new_keeps resolve opt els pg :
  page_sched_inv pg -> bridge_keeps pg (each_new resolve opt els pg).2.
Proof.
  revert pg. induction els as [|el els IH]; intros pg Hp; cbn [each_new]; [split; done|].
  destruct (has_data pg el) eqn:Hd; [apply IH, Hp|].
  destruct (Viewpoint resolve opt) as [c|x]; [|split; done].
  pose proof (store_keeps_sched el c pg Hd Hp) as Hs.
  eapply bridge_keeps_trans; [exact Hs|]. apply IH, Hs.
Qed.

Lemma call_tracker_keeps_insts resolve m arg el i pg r pg' :
  call_tracker resolve m arg el i pg = Some (r, pg') -> keeps_insts (pg_world pg) (pg_world pg').
Proof.
  intros Hc. destruct m; cbn [call_tracker] in Hc.
  9: { destruct (call_init_cases _ _ _ _ _ _ _ Hc) as (i' & [-> | ->]); exact (keeps_insts_set_inst el i' _). }
  9: { apply call_constructor_page in Hc. subst. intros x Hx. exact Hx. }
  all: repeat case_match; simplify_eq; cbn [pg_world]; try (intros x Hx; exact Hx).
  - exact (step_keeps_insts _ (EvReset el arg)).
  - exact (step_keeps_insts _ (EvDisable el)).
  - exact (step_keeps_insts _ (EvEnable el)).
Qed.

(** A bridge call other than [setupEvents] and [init] keeps the
    invariant and the timers. *)
Lemma viewpoint_keeps resolve els arg extra pg r pg' :
  page_sched_inv pg -> rebinds (PBridge els arg extra) = false ->
  viewpoint resolve els arg extra pg = Some (r, pg') -> bridge_keeps pg pg'.
Proof.
  intros Hp Hr Hv.
  destruct (viewpoint_cases _ _ _ _ _ _ _ Hv)
    as [->|[(opt & els' & ->)|[(name & el & i & m & -> & Hm & _ & Hc)|(m & el & dis & Hc)]]].
  - split; [exact Hp|done].
  - apply each_new_keeps, Hp.
  - cbn [rebinds] in Hr. rewrite Hm in Hr. apply orb_false_iff in Hr as [H1 H2].
    apply bool_decide_eq_false in H1, H2.
    apply bridge_keeps_tframe; [exact Hp| |eapply call_tracker_keeps_insts; exact Hc].
    apply (call_tracker_tframe resolve m extra el i pg r pg'); [intros ->; by apply H1|intros ->; by apply H2|exact Hc].
  - pose proof (call_inert_world _ _ _ _ _ _ _ Hc) as E.
    split; [|by rewrite E]. unfold page_sched_inv. rewrite E. exact Hp.
Qed.

(** ** One step of a page *)

Lemma sched_rel_timers w w' a : w_timers w' = w_timers w -> sched_rel w a -> sched_rel w' a.
Proof. intros T H e. unfold scroll_timers_of. rewrite T. apply H. Qed.

(** Every step but a rebinding bridge call keeps the invariant,
    [resize] included. *)
Lemma page_step_keeps_inv resolve pg pe pg' :
  page_sched_inv pg -> rebinds pe = false -> page_step resolve pg pe = Some pg' -> page_sched_inv pg'.
Proof.
  intros Hp Hr Hs. destruct pe as [els arg extra|ev]; cbn [page_step] in Hs.
  - destruct (viewpoint resolve els arg extra pg) as [[r pg1]|] eqn:Hv; [|discriminate].
    injection Hs as <-. exact (proj1 (viewpoint_keeps _ _ _ _ _ _ _ Hp Hr Hv)).
  - injection Hs as <-. cbn [pg_world]. destruct Hp as [Hs Hb]. split.
    + apply sched_inv_step, Hs.
    + eapply bound_once_frame; [apply step_bound_els|apply step_keeps_insts|exact Hb].
Qed.

Lemma page_step_sched resolve pg pe pg' a :
  page_sched_inv pg -> sched_rel (pg_world pg) a -> rebinds pe = false -> page_resize pe = false ->
  page_step resolve pg pe = Some pg' ->
  page_sched_inv pg' /\ sched_rel (pg_world pg') (page_spec_step pg pe a).
Proof.
  intros Hp Ha Hr Hz Hs. split; [eapply page_step_keeps_inv; eauto|].
  destruct pe as [els arg extra|ev]; cbn [page_step page_spec_step] in *.
  - destruct (viewpoint resolve els arg extra pg) as [[r pg1]|] eqn:Hv; [|discriminate].
    injection Hs as <-. eapply sched_rel_timers; [|exact Ha].
    exact (proj2 (viewpoint_keeps _ _ _ _ _ _ _ Hp Hr Hv)).
  - injection Hs as <-. destruct Hp as [Hs Hb].
    apply sched_step; [exact Hs|intros x; apply Hb|exact Ha|exact Hz].
Qed.

Lemma page_run_keeps_inv resolve pes pg pg' :
  page_sched_inv pg -> Forall (fun pe => rebinds pe = false) pes ->
  page_run resolve pes pg = Some pg' -> page_sched_inv pg'.
Proof.
  revert pg. induction pes as [|pe pes IH]; intros pg Hp Hf Hr; cbn [page_run] in Hr.
  - injection Hr as <-. exact Hp.
  - apply Forall_cons in Hf as [Hre Hf].
    destruct (page_step resolve pg pe) as [pg1|] eqn:Hs; [|discriminate].
    eapply IH; [eapply page_step_keeps_inv; eauto|exact Hf|exact Hr].
Qed.

Lemma page_run_sched resolve pes pg pg' a :
  page_sched_inv pg -> sched_rel (pg_world pg) a ->
  Forall (fun pe => rebinds pe = false /\ page_resize pe = false) pes ->
  page_run resolve pes pg = Some pg' ->
  sched_rel (pg_world pg') (page_spec_run resolve pes pg a).
Proof.
  revert pg a. induction pes as [|pe pes IH]; intros pg a Hp Ha Hf Hr; cbn [page_run page_spec_run] in *.
  - injection Hr as <-. exact Ha.
  - apply Forall_cons in Hf as [[Hre Hz] Hf].
    destruct (page_step resolve pg pe) as [pg1|] eqn:Hs; [|discriminate].
    destruct (page_step_sched _ _ _ _ a Hp Ha Hre Hz Hs) as [Hp1 Ha1]. eauto.
Qed.

Lemma empty_page_sched_inv L P : page_sched_inv (empty_page L P).
Proof.
  split; [split; [apply empty_page_inv|]|].
  - intros k b id Hk. discriminate.
  - intros e. split; cbn; lia.
Qed.

(** ** The refinement *)

(** C30: from the empty page, every run whose bridge calls do not call
    [setupEvents] again and whose host events are not [resize] ends on
    a page whose pending scroll timers are, for each element, exactly
    the pending re-evaluation of the specification's debounce along the
    run: trackers constructed by the bridge start with none, bridge
    calls change none, host events reschedule them as [spec_sched]. *)
Theorem page_schedule_refines_spec (resolve : jsval -> list elem) (L : elem -> sample)
    (P : elem -> list elem) (pes : list page_event) (pg : page) :
  Forall (fun pe => rebinds pe = false /\ page_resize pe = false) pes ->
  page_run resolve pes (empty_page L P) = Some pg ->
  sched_rel (pg_world pg) (page_spec_run resolve pes (empty_page L P) (fun _ => None)).
Proof.
  intros Hf Hr. eapply page_run_sched; [apply empty_page_sched_inv| |exact Hf|exact Hr].
  intros e. done.
Qed.

(** C33: from the empty page, on every page a run reaches whose bridge
    calls do not call [setupEvents] or [init], [resize] events
    included, each element has at most one pending scroll timer: the
    [each] loop binds each tracker once, and the handlers of a binding
    clear the timer they armed before arming another. *)
Theorem page_scroll_timer_at_most_one (resolve : jsval -> list elem) (L : elem -> sample)
    (P : elem -> list elem) (pes : list page_event) (pg : page) (e : elem) :
  Forall (fun pe => rebinds pe = false) pes ->
  page_run resolve pes (empty_page L P) = Some pg ->
  length (scroll_timers_of (pg_world pg) e) <= 1.
Proof.
  intros Hf Hr. destruct (page_run_keeps_inv _ _ _ _ (empty_page_sched_inv L P) Hf Hr) as [[Hw _] Hb].
  etransitivity; [apply scroll_timers_of_bound, Hw|apply Hb].
Qed.

(** ** A concrete run *)

(** The tracker of [7] constructed by the bridge, a scroll at time 0, a
    scroll 30 ms later, [disable], another scroll: the pending
    re-evaluation of [7] is due at 100, the last scroll reaches a
    disabled tracker. *)
Definition run_sched : list page_event :=
  [PBridge [7] (BObj (caller_obj (JFun 1) JUndefined)) None; PHost (EvScroll 0);
   PHost (EvAdvance 30); PHost (EvScroll 0); PBridge [7] (BVal (JStr "disable")) None;
   PHost (EvScroll 0)].

Lemma page_schedule_refines_spec_witness :
  sched_rel (pg_world (default page0 (page_run resolve_window run_sched page0)))
            (page_spec_run resolve_window run_sched page0 (fun _ => None)) /\
  page_spec_run resolve_window run_sched page0 (fun _ => None) 7 = Some 100%Z.
Proof.
  split; [|vm_compute; reflexivity].
  apply (page_schedule_refines_spec resolve_window (fun _ => sample_in_view) (fun e => [e]));
    [repeat constructor | vm_compute; reflexivity].
Defined.

(** A scroll, a resize, a scroll: the resize handler clears the first
    scroll timer and arms a resize timer, the second scroll arms a
    scroll timer; [7] has one pending scroll timer of two timers. *)
Definition run_resize : list page_event :=
  [PBridge [7] (BObj (caller_obj (JFun 1) JUndefined)) None; PHost (EvScroll 0);
   PHost (EvResize 0); PHost (EvScroll 0)].

Lemma page_scroll_timer_at_most_one_witness :
  length (scroll_timers_of (pg_world (default page0 (page_run resolve_window run_resize page0))) 7) <= 1 /\
  length (w_timers (pg_world (default page0 (page_run resolve_window run_resize page0)))) = 2.
Proof.
  split; [|vm_compute; reflexivity].
  apply (page_scroll_timer_at_most_one resolve_window (fun _ => sample_in_view) (fun e => [e]) run_resize);
    [repeat constructor | vm_compute; reflexivity].
Defined.
